(** * Shapes library: category store, shape repository and preview assets

    A shallow embedding of [utils/categoryManager.ts] and
    [utils/shapeSaver.ts].  The functions of the two modules are written
    in a state-and-exception monad over a small model of the file
    system; the theorems at the end are about these functions. *)

From Stdlib Require Import Ascii String ZArith.
From stdpp Require Import gmap strings list fin_maps pretty sorting.

Open Scope string_scope.
Set Warnings "-register-all".

(** ** Strings *)

(** The double quote of the template literals. *)
Definition dq : string := String "034"%char EmptyString.

Definition quoted (s : string) : string := dq ++ s ++ dq.

(** ** Results and exceptions

    A JavaScript [Error] is kept as its [message]. *)

Inductive result (A : Type) : Type :=
  | Ok (a : A)
  | Throw (message : string).
Arguments Ok {A} a.
Arguments Throw {A} message.

(** ** The data model *)

(** An opaque JSON value: the members of a shape record that the
    library only carries along (description, tags, deckSlide, the shape
    definition, ...). *)
Inductive json : Type :=
  | JNull
  | JBool (b : bool)
  | JNum (z : Z)
  | JStr (s : string)
  | JArr (items : list json)
  | JObj (members : list (string * json)).

(** [interface CategoryConfig { id: string; name: string }] *)
Module CategoryConfig.
Record t : Type := mk { id : string; name : string }.
End CategoryConfig.

(** [ShapeInfo], from [types/shapes] (not part of the sources at hand):
    the members the library reads are typed, the others are kept, in
    their order, in [more]. *)
Module ShapeInfo.
Record t : Type := mk {
  id : string;
  name : string;
  category : string;
  preview : string;
  more : list (string * json)
}.
End ShapeInfo.

(** [Partial<ShapeInfo>]: every member optional. *)
Module PartialShapeInfo.
Record t : Type := mk {
  id : option string;
  name : option string;
  category : option string;
  preview : option string;
  more : list (string * json)
}.
End PartialShapeInfo.

(** What a JSON text of the library denotes: an array of shape records
    or an object that may have a [categories] member. *)
Inductive document : Type :=
  | ShapesArray (shapes : list ShapeInfo.t)
  | CategoriesObject (categories : option (list CategoryConfig.t)).

(** The content of a file.  A JSON text is identified with the document
    it denotes ([JSON.stringify] is a function of the document, so equal
    documents are written as equal bytes); [Raw] is any other content: a
    preview image, the time stamp of the repair marker, a damaged
    file. *)
Inductive content : Type :=
  | Json (d : document)
  | Raw (bytes : string).

Definition JSON_stringify (d : document) : content := Json d.

Definition JSON_parse (c : content) : result document :=
  match c with
  | Json d => Ok d
  | Raw _ => Throw "SyntaxError: Unexpected token in JSON"
  end.

(** ** The file system *)

Inductive fsop : Type :=
  | OpRead (path : string)
  | OpWrite (path : string)
  | OpMkdir (path : string)
  | OpRename (src dest : string)
  | OpCopy (src dest : string).

(** The state the two modules run in.
    - [files], [dirs]: the regular files and the directories;
    - [DEFAULT_CATEGORIES]: the module-level array of
      [categoryManager.ts]; [loadCategories] hands out this very array,
      so that [push], [splice] and assignments by its callers change it;
    - [fault]: the operations the environment refuses (permissions,
      another device, a full disk), with the message of the error; what
      is refused does not change while the program runs;
    - [now]: what [new Date().toISOString()] reads;
    - [journal]: the operations that changed the file system, the
      latest first. *)
Record World : Type := mkWorld {
  files : gmap string content;
  dirs : gset string;
  DEFAULT_CATEGORIES : list CategoryConfig.t;
  fault : fsop -> option string;
  now : string;
  journal : list fsop
}.

Definition setDefaults (l : list CategoryConfig.t) (w : World) : World :=
  mkWorld (files w) (dirs w) l (fault w) (now w) (journal w).

Definition commit (op : fsop) (fs : gmap string content) (ds : gset string)
    (w : World) : World :=
  mkWorld fs ds (DEFAULT_CATEGORIES w) (fault w) (now w) (op :: journal w).

(** ** The monad: state that survives an exception *)

Definition M (A : Type) : Type := World -> result A * World.

Definition ret {A} (a : A) : M A := fun w => (Ok a, w).

Definition throw {A} (message : string) : M A := fun w => (Throw message, w).

Definition bind {A B} (m : M A) (k : A -> M B) : M B :=
  fun w =>
    match m w with
    | (Ok a, w') => k a w'
    | (Throw e, w') => (Throw e, w')
    end.

(** [try { m } catch (error) { handler(error.message) }] *)
Definition try_catch {A} (m : M A) (handler : string -> M A) : M A :=
  fun w =>
    match m w with
    | (Ok a, w') => (Ok a, w')
    | (Throw e, w') => handler e w'
    end.

Definition lift {A} (r : result A) : M A := fun w => (r, w).

Notation "'let*' x ':=' m 'in' k" := (bind m (fun x => k))
  (at level 10, x name, m at level 99, k at level 200).
Notation "m1 ';;' m2" := (bind m1 (fun _ => m2))
  (at level 100, m2 at level 200, right associativity).

(** ** [fs] *)

Definition isFile (p : string) (w : World) : bool :=
  bool_decide (is_Some (files w !! p)).

Definition isDir (p : string) (w : World) : bool :=
  bool_decide (p ∈ dirs w).

(** [existsSync] never throws. *)
Definition existsSync (p : string) : M bool :=
  fun w => (Ok (isFile p w || isDir p w), w).

Definition readFileSync (p : string) : M content :=
  fun w =>
    match fault w (OpRead p) with
    | Some e => (Throw e, w)
    | None =>
        match files w !! p with
        | Some c => (Ok c, w)
        | None =>
            (Throw (if isDir p w
                    then "EISDIR: illegal operation on a directory, read"
                    else "ENOENT: no such file or directory, open"), w)
        end
    end.

Definition writeFileSync (p : string) (c : content) : M unit :=
  fun w =>
    match fault w (OpWrite p) with
    | Some e => (Throw e, w)
    | None =>
        if isDir p w
        then (Throw "EISDIR: illegal operation on a directory, open", w)
        else (Ok tt, commit (OpWrite p) (<[p := c]> (files w)) (dirs w) w)
    end.

(** [mkdirSync(p, { recursive: true })].  The call also creates the
    missing parents of [p]: for the folder of a category these are the
    assets directory and what lies above it, paths the program never
    tests.  The model records [p] only. *)
Definition mkdirSync (p : string) : M unit :=
  fun w =>
    match fault w (OpMkdir p) with
    | Some e => (Throw e, w)
    | None =>
        if isFile p w
        then (Throw "EEXIST: file already exists, mkdir", w)
        else (Ok tt, commit (OpMkdir p) (files w) ({[p]} ∪ dirs w) w)
    end.

(** The previews are regular files; renaming or copying anything else
    is an error. *)
Definition renameSync (src dest : string) : M unit :=
  fun w =>
    match fault w (OpRename src dest) with
    | Some e => (Throw e, w)
    | None =>
        match files w !! src with
        | Some c =>
            if isDir dest w
            then (Throw "EISDIR: illegal operation on a directory, rename", w)
            else (Ok tt, commit (OpRename src dest)
                           (<[dest := c]> (delete src (files w))) (dirs w) w)
        | None => (Throw "ENOENT: no such file or directory, rename", w)
        end
    end.

Definition copyFileSync (src dest : string) : M unit :=
  fun w =>
    match fault w (OpCopy src dest) with
    | Some e => (Throw e, w)
    | None =>
        match files w !! src with
        | Some c =>
            if isDir dest w
            then (Throw "EISDIR: illegal operation on a directory, copyfile", w)
            else (Ok tt, commit (OpCopy src dest)
                           (<[dest := c]> (files w)) (dirs w) w)
        | None => (Throw "ENOENT: no such file or directory, copyfile", w)
        end
    end.

(** [path.join] on two parts that need no normalisation: a directory
    and a relative path of plain names, none of them empty, [.] or
    [..].  There [path.join] is the concatenation; a statement that
    sets the files of two such paths apart says so of their parts
    ([plainPath], [hasSeparator], the ids of categories as
    [addCategory] admits them). *)
Definition join (a b : string) : string := a ++ "/" ++ b.

(** ** Arrays *)

(** [Array.prototype.findIndex]; [None] is the [-1] of JavaScript. *)
Fixpoint findIndex {A} (p : A -> bool) (l : list A) : option nat :=
  match l with
  | [] => None
  | x :: r => if p x then Some 0 else S <$> findIndex p r
  end.

(** [Array.prototype.splice(index, 1)] *)
Definition splice {A} (index : nat) (l : list A) : list A :=
  (take index l ++ drop (S index) l)%list.

(** [Array.prototype.sort(compare)]: the sort is stable, and with a
    consistent comparison its result is the one of this insertion
    sort. *)
Fixpoint sortInsert {A} (compare : A -> A -> Z) (x : A) (l : list A) : list A :=
  match l with
  | [] => [x]
  | y :: r =>
      if (compare x y <=? 0)%Z then x :: y :: r
      else y :: sortInsert compare x r
  end.

Definition sort {A} (compare : A -> A -> Z) (l : list A) : list A :=
  foldr (sortInsert compare) [] l.

(** ** Objects *)

(** Assignment of one member: an existing key keeps its place, a new
    key goes last. *)
Fixpoint setMember (k : string) (v : json) (o : list (string * json))
    : list (string * json) :=
  match o with
  | [] => [(k, v)]
  | (k', v') :: r =>
      if bool_decide (k' = k) then (k, v) :: r
      else (k', v') :: setMember k v r
  end.

(** [{ ...shape, ...updates }] *)
Definition spread (shape : ShapeInfo.t) (updates : PartialShapeInfo.t)
    : ShapeInfo.t :=
  ShapeInfo.mk
    (default (ShapeInfo.id shape) (PartialShapeInfo.id updates))
    (default (ShapeInfo.name shape) (PartialShapeInfo.name updates))
    (default (ShapeInfo.category shape) (PartialShapeInfo.category updates))
    (default (ShapeInfo.preview shape) (PartialShapeInfo.preview updates))
    (foldl (fun o kv => setMember kv.1 kv.2 o)
       (ShapeInfo.more shape) (PartialShapeInfo.more updates)).

(** [{ ...o, id, category }] *)
Definition withIdentity (id category : string) (o : ShapeInfo.t)
    : ShapeInfo.t :=
  ShapeInfo.mk id (ShapeInfo.name o) category (ShapeInfo.preview o)
    (ShapeInfo.more o).

(** ** [/^[a-z0-9-]+$/] *)

Definition slugChar (c : ascii) : bool :=
  let n := nat_of_ascii c in
  (Nat.leb 97 n && Nat.leb n 122) || (Nat.leb 48 n && Nat.leb n 57)
  || Nat.eqb n 45.

Fixpoint allSlug (s : string) : bool :=
  match s with
  | EmptyString => true
  | String c r => slugChar c && allSlug r
  end.

Definition validIdRegex_test (s : string) : bool :=
  match s with
  | EmptyString => false
  | String _ _ => allSlug s
  end.

(** ** The library *)

Section Library.

(** [utils/paths] is not part of the sources at hand: the root of the
    library is a parameter.  So is [String.prototype.localeCompare],
    which depends on the locale of the host. *)
Variable libraryRoot : string.
Variable localeCompare : string -> string -> Z.

Definition getLibraryRoot : string := libraryRoot.

(** Modelled from the spec: [utils/paths] is missing; the persisted
    layout has the shape files under [{root}/shapes]. *)
Definition getShapesDir : string := join getLibraryRoot "shapes".

(** Modelled from the spec: [utils/paths] is missing; the persisted
    layout has the previews under [{root}/assets]. *)
Definition getAssetsDir : string := join getLibraryRoot "assets".

(** *** [utils/categoryManager.ts] *)

(** An array of categories as a caller of [loadCategories] holds it:
    one made by [JSON.parse], or the module's [DEFAULT_CATEGORIES]. *)
Inductive categoriesRef : Type :=
  | Parsed (l : list CategoryConfig.t)
  | Defaults.

(** The elements of the array a reference stands for. *)
Definition elementsOf (r : categoriesRef) (w : World)
    : list CategoryConfig.t :=
  match r with
  | Parsed l => l
  | Defaults => DEFAULT_CATEGORIES w
  end.

Definition deref (r : categoriesRef) : M (list CategoryConfig.t) :=
  fun w => (Ok (elementsOf r w), w).

(** A change of the array in place ([push], [splice]). *)
Definition mutate (f : list CategoryConfig.t -> list CategoryConfig.t)
    (r : categoriesRef) : M categoriesRef :=
  fun w =>
    match r with
    | Parsed l => (Ok (Parsed (f l)), w)
    | Defaults => (Ok Defaults, setDefaults (f (DEFAULT_CATEGORIES w)) w)
    end.

Definition getCategoriesFilePath : string :=
  join getLibraryRoot "categories.json".

Definition saveCategories (categories : categoriesRef) : M unit :=
  let filePath := getCategoriesFilePath in
  let* cs := deref categories in
  let data := CategoriesObject (Some cs) in
  try_catch
    (writeFileSync filePath (JSON_stringify data))
    (fun msg => throw ("Failed to save categories: " ++ msg)).

Definition loadCategories : M categoriesRef :=
  let filePath := getCategoriesFilePath in
  let* present := existsSync filePath in
  if negb present then
    saveCategories Defaults ;;
    ret Defaults
  else
    try_catch
      (let* content := readFileSync filePath in
       let* data := lift (JSON_parse content) in
       ret (match data with
            | CategoriesObject (Some l) => Parsed l
            | _ => Defaults
            end))
      (fun _ => ret Defaults).

Definition getCategoryIds : M (list string) :=
  let* categories := loadCategories in
  let* cs := deref categories in
  ret (map CategoryConfig.id cs).

Definition hasId (categoryId : string) (c : CategoryConfig.t) : bool :=
  bool_decide (CategoryConfig.id c = categoryId).

Definition getCategoryDisplayName (categoryId : string) : M string :=
  let* categories := loadCategories in
  let* cs := deref categories in
  let found := List.find (hasId categoryId) cs in
  ret (match found with
       | Some c =>
           match CategoryConfig.name c with
           | EmptyString => categoryId
           | String _ _ => CategoryConfig.name c
           end
       | None => categoryId
       end).

Definition addCategory (id name : string) : M unit :=
  let validId := validIdRegex_test id in
  if negb validId then
    throw "Category ID must be lowercase, alphanumeric, with dashes only"
  else
    let* categories := loadCategories in
    let* cs := deref categories in
    if existsb (hasId id) cs then
      throw ("Category with ID " ++ quoted id ++ " already exists")
    else
      let* categories :=
        mutate (fun l => (l ++ [CategoryConfig.mk id name])%list)
          categories in
      saveCategories categories ;;
      let shapesDir := getShapesDir in
      let shapesFile := join shapesDir (id ++ ".json") in
      let* present := existsSync shapesFile in
      if negb present then
        writeFileSync shapesFile (JSON_stringify (ShapesArray []))
      else ret tt.

Definition getShapeCountInCategory (categoryId : string) : M nat :=
  let shapesDir := getShapesDir in
  let shapesFile := join shapesDir (categoryId ++ ".json") in
  let* present := existsSync shapesFile in
  if negb present then ret 0
  else
    try_catch
      (let* content := readFileSync shapesFile in
       let* shapes := lift (JSON_parse content) in
       ret (match shapes with
            | ShapesArray l => length l
            | CategoriesObject _ => 0
            end))
      (fun _ => ret 0).

Definition notEmptyMessage (name : string) (shapeCount : nat) : string :=
  "Cannot delete category " ++ quoted name ++ " - it contains "
  ++ pretty shapeCount ++ " shape(s). Move or delete the shapes first.".

Definition categoryNotFound (categoryId : string) : string :=
  "Category " ++ quoted categoryId ++ " not found".

Definition deleteCategory (categoryId : string) : M bool :=
  let* categories := loadCategories in
  let* cs := deref categories in
  match findIndex (hasId categoryId) cs with
  | None => throw (categoryNotFound categoryId)
  | Some index =>
      let* shapeCount := getShapeCountInCategory categoryId in
      if Nat.ltb 0 shapeCount then
        throw (notEmptyMessage
                 (from_option CategoryConfig.name EmptyString (cs !! index))
                 shapeCount)
      else
        let* categories := mutate (splice index) categories in
        saveCategories categories ;;
        ret true
  end.

(** *** [utils/shapeSaver.ts] *)

Definition getCategoryFilePath (category : string) : string :=
  let shapesDir := getShapesDir in
  join shapesDir (category ++ ".json").

Definition loadCategoryShapes (category : string) : M document :=
  let filePath := getCategoryFilePath category in
  let* present := existsSync filePath in
  if negb present then ret (ShapesArray [])
  else
    try_catch
      (let* content := readFileSync filePath in
       lift (JSON_parse content))
      (fun _ => ret (ShapesArray [])).

Definition byName (a b : ShapeInfo.t) : Z :=
  localeCompare (ShapeInfo.name a) (ShapeInfo.name b).

Definition saveFailed (category filePath msg : string) : string :=
  "Failed to save shapes to " ++ category ++ ".json at " ++ filePath
  ++ ": " ++ msg.

Definition saveCategoryShapes (category : string) (shapes : list ShapeInfo.t)
    : M unit :=
  let filePath := getCategoryFilePath category in
  try_catch
    (let sortedShapes := sort byName shapes in
     let json := JSON_stringify (ShapesArray sortedShapes) in
     writeFileSync filePath json)
    (fun msg => throw (saveFailed category filePath msg)).

Definition sameId (id : string) (s : ShapeInfo.t) : bool :=
  bool_decide (ShapeInfo.id s = id).

(** An array method applied to the object a shape file should not
    hold. *)
Definition notAnArray (method : string) : string :=
  "shapes." ++ method ++ " is not a function".

Definition shapeExists (id category : string) : M bool :=
  let* shapes := loadCategoryShapes category in
  match shapes with
  | ShapesArray l => ret (existsb (sameId id) l)
  | CategoriesObject _ => throw (notAnArray "some")
  end.

Definition addShapeToLibrary (shape : ShapeInfo.t) : M string :=
  let category := ShapeInfo.category shape in
  let* shapes := loadCategoryShapes category in
  match shapes with
  | CategoriesObject _ => throw (notAnArray "findIndex")
  | ShapesArray l =>
      let shapes :=
        match findIndex (sameId (ShapeInfo.id shape)) l with
        | Some existingIndex => <[existingIndex := shape]> l
        | None => (l ++ [shape])%list
        end in
      saveCategoryShapes category shapes ;;
      ret (getCategoryFilePath category)
  end.

Definition shapeNotFound (id category : string) : string :=
  "Shape with ID '" ++ id ++ "' not found in " ++ category ++ " category".

Definition updateShapeInLibrary (id category : string)
    (updates : PartialShapeInfo.t) : M unit :=
  let* shapes := loadCategoryShapes category in
  match shapes with
  | CategoriesObject _ => throw (notAnArray "findIndex")
  | ShapesArray l =>
      match findIndex (sameId id) l with
      | None => throw (shapeNotFound id category)
      | Some index =>
          let shapes :=
            alter (fun s => withIdentity id category (spread s updates))
              index l in
          saveCategoryShapes category shapes
      end
  end.

Definition removeShapeFromLibrary (id category : string) : M unit :=
  let* shapes := loadCategoryShapes category in
  match shapes with
  | CategoriesObject _ => throw (notAnArray "filter")
  | ShapesArray l =>
      let filteredShapes := List.filter (fun s => negb (sameId id s)) l in
      if Nat.eqb (length filteredShapes) (length l) then
        throw (shapeNotFound id category)
      else saveCategoryShapes category filteredShapes
  end.

Definition movePreviewToCategory (shape : ShapeInfo.t)
    (oldCategory newCategory : string) : M string :=
  let assetsDir := getAssetsDir in
  let oldPreviewPath :=
    join assetsDir (oldCategory ++ "/" ++ ShapeInfo.id shape ++ ".png") in
  let newCategoryDir := join assetsDir newCategory in
  let newPreviewPath :=
    join assetsDir (newCategory ++ "/" ++ ShapeInfo.id shape ++ ".png") in
  let* present := existsSync newCategoryDir in
  (if negb present then mkdirSync newCategoryDir else ret tt) ;;
  let* found := existsSync oldPreviewPath in
  (if found then
     try_catch
       (renameSync oldPreviewPath newPreviewPath)
       (fun _ =>
          try_catch
            (copyFileSync oldPreviewPath newPreviewPath)
            (fun _ => ret tt))
   else ret tt) ;;
  ret (newCategory ++ "/" ++ ShapeInfo.id shape ++ ".png").

(** The search of [repairOrphanedPreviews] for one shape, over the
    category folders left to visit; [true] is the [break] after a
    relocation. *)
Fixpoint searchPreview (assetsDir category : string) (shape : ShapeInfo.t)
    (expectedPath : string) (searchCategories : list string)
    (repairedCount : nat) : M nat :=
  match searchCategories with
  | [] => ret repairedCount
  | searchCategory :: rest =>
      let searchPath :=
        join assetsDir
          (searchCategory ++ "/" ++ ShapeInfo.id shape ++ ".png") in
      let* found := existsSync searchPath in
      if found && negb (bool_decide (searchCategory = category)) then
        let* moved :=
          try_catch
            (renameSync searchPath expectedPath ;; ret true)
            (fun _ =>
               try_catch
                 (copyFileSync searchPath expectedPath ;; ret true)
                 (fun _ => ret false)) in
        if moved then ret (S repairedCount)
        else searchPreview assetsDir category shape expectedPath rest
               repairedCount
      else searchPreview assetsDir category shape expectedPath rest
             repairedCount
  end.

(** The loop over the shapes of one category. *)
Fixpoint repairShapes (assetsDir category : string)
    (categories : list string) (shapes : list ShapeInfo.t)
    (repairedCount : nat) : M nat :=
  match shapes with
  | [] => ret repairedCount
  | shape :: rest =>
      let expectedPath := join assetsDir (ShapeInfo.preview shape) in
      let* present := existsSync expectedPath in
      let* repairedCount :=
        (if negb present then
           searchPreview assetsDir category shape expectedPath categories
             repairedCount
         else ret repairedCount) in
      repairShapes assetsDir category categories rest repairedCount
  end.

(** The loop over the categories still to visit; [categories] is the
    whole list, which the search goes through for every shape. *)
Fixpoint repairCategories (assetsDir : string) (categories : list string)
    (todo : list string) (repairedCount : nat) : M nat :=
  match todo with
  | [] => ret repairedCount
  | category :: rest =>
      let* shapes := loadCategoryShapes category in
      let categoryDir := join assetsDir category in
      let* present := existsSync categoryDir in
      (if negb present then mkdirSync categoryDir else ret tt) ;;
      match shapes with
      | CategoriesObject _ => throw "shapes is not iterable"
      | ShapesArray l =>
          let* repairedCount :=
            repairShapes assetsDir category categories l repairedCount in
          repairCategories assetsDir categories rest repairedCount
      end
  end.

(** [new Date().toISOString()] *)
Definition toISOString_now : M string := fun w => (Ok (now w), w).

Definition repairMarker : string :=
  join getLibraryRoot ".preview_repair_done".

Definition repairOrphanedPreviews (force : bool) : M nat :=
  let assetsDir := getAssetsDir in
  let* categories := getCategoryIds in
  let* marked := existsSync repairMarker in
  if negb force && marked then ret 0
  else
    let* repairedCount :=
      repairCategories assetsDir categories categories 0 in
    try_catch
      (let* stamp := toISOString_now in
       writeFileSync repairMarker (Raw stamp))
      (fun _ => ret tt) ;;
    ret repairedCount.

(** *** More of [utils/categoryManager.ts] *)

Definition getCategoryById (categoryId : string)
    : M (option CategoryConfig.t) :=
  let* categories := loadCategories in
  let* cs := deref categories in
  ret (List.find (hasId categoryId) cs).

(** [categories[index].name = newName] *)
Definition setName (newName : string) (c : CategoryConfig.t)
    : CategoryConfig.t :=
  CategoryConfig.mk (CategoryConfig.id c) newName.

Definition renameCategory (categoryId newName : string) : M unit :=
  let* categories := loadCategories in
  let* cs := deref categories in
  match findIndex (hasId categoryId) cs with
  | None => throw (categoryNotFound categoryId)
  | Some index =>
      let* categories := mutate (alter (setName newName) index) categories in
      saveCategories categories
  end.

Definition categoryExists (categoryId : string) : M bool :=
  let* categories := loadCategories in
  let* cs := deref categories in
  ret (existsb (hasId categoryId) cs).

(** [String.prototype.toLowerCase] follows the Unicode tables of the
    host: a parameter. *)
Variable toLowerCase : string -> string.

(** [[a-z0-9]] *)
Definition alnumChar (c : ascii) : bool :=
  let n := nat_of_ascii c in
  (Nat.leb 97 n && Nat.leb n 122) || (Nat.leb 48 n && Nat.leb n 57).

Definition dashChar (c : ascii) : bool := Nat.eqb (nat_of_ascii c) 45.

(** [.replace(/[^a-z0-9]+/g, "-")]: every maximal run of other
    characters becomes one dash; [inRun] tells that the run has begun. *)
Fixpoint replaceRuns (inRun : bool) (s : string) : string :=
  match s with
  | EmptyString => EmptyString
  | String c r =>
      if alnumChar c then String c (replaceRuns false r)
      else if inRun then replaceRuns true r
      else String "-"%char (replaceRuns true r)
  end.

(** The [^-+] of [.replace(/^-+|-+$/g, "")] *)
Fixpoint dropLeadingDashes (s : string) : string :=
  match s with
  | EmptyString => EmptyString
  | String c r => if dashChar c then dropLeadingDashes r else s
  end.

(** The [-+$] of [.replace(/^-+|-+$/g, "")] *)
Fixpoint dropTrailingDashes (s : string) : string :=
  match s with
  | EmptyString => EmptyString
  | String c r =>
      match dropTrailingDashes r with
      | EmptyString => if dashChar c then EmptyString else String c EmptyString
      | String c' r' => String c (String c' r')
      end
  end.

Definition generateCategoryId (displayName : string) : string :=
  dropTrailingDashes
    (dropLeadingDashes (replaceRuns false (toLowerCase displayName))).

(** *** More of [utils/shapeSaver.ts] *)

(** [shapes.length]: [None] is the [undefined] an object gives. *)
Definition lengthOf (shapes : document) : option nat :=
  match shapes with
  | ShapesArray l => Some (length l)
  | CategoriesObject _ => None
  end.

(** The [forEach] of [getShapeCounts] over the ids left to visit;
    [counts] is the object built so far, a map from the keys to the
    numbers. *)
Fixpoint countCategories (categoryIds : list string)
    (counts : gmap string (option nat)) : M (gmap string (option nat)) :=
  match categoryIds with
  | [] => ret counts
  | category :: rest =>
      let* shapes := loadCategoryShapes category in
      countCategories rest (<[category := lengthOf shapes]> counts)
  end.

Definition getShapeCounts : M (gmap string (option nat)) :=
  let* categoryIds := getCategoryIds in
  countCategories categoryIds ∅.

(** [sum + count]; [None] is [NaN], what a sum with [undefined] is. *)
Definition plus (sum count : option nat) : option nat :=
  match sum, count with
  | Some a, Some b => Some (a + b)
  | _, _ => None
  end.

(** [Object.values(counts).reduce((sum, count) => sum + count, 0)]; the
    order of the values does not matter to the sum. *)
Definition getTotalShapeCount : M (option nat) :=
  let* counts := getShapeCounts in
  ret (foldl plus (Some 0) (map_to_list counts).*2).

End Library.

(** ** [shape-picker.tsx]: the form that edits a shape *)

(** [String.prototype.split(sep)] for a separator of one character. *)
Fixpoint split (sep : ascii) (s : string) : list string :=
  match s with
  | EmptyString => [EmptyString]
  | String c r =>
      if bool_decide (c = sep) then EmptyString :: split sep r
      else
        match split sep r with
        | h :: t => String c h :: t
        | [] => [String c EmptyString]
        end
  end.

(** [interface EditShapeFormValues] *)
Module EditShapeFormValues.
Record t : Type := mk { name : string; category : string; tags : string }.
End EditShapeFormValues.

(** What the handler leaves in the toast. *)
Inductive toast : Type :=
  | Success (title message : string)
  | Failure (title message : string).

Section ShapePicker.
Variable libraryRoot : string.
Variable localeCompare : string -> string -> Z.

(** [String.prototype.trim] follows the Unicode white space of the
    host: a parameter. *)
Variable trim : string -> string.

(** [values.tags ? values.tags.split(",").map((t) => t.trim()) : []] *)
Definition tagsOf (tags : string) : json :=
  JArr (map JStr
          match tags with
          | EmptyString => []
          | String _ _ => map trim (split ","%char tags)
          end).

(** [handleSubmit] of [EditShapeForm]: the [try] block and its
    [catch]; the calls that only drive the user interface ([pop],
    [onSave]) are left out. *)
Definition EditShapeForm_handleSubmit (shape : ShapeInfo.t)
    (values : EditShapeFormValues.t) : M toast :=
  try_catch
    (let oldCategory := ShapeInfo.category shape in
     let newCategory := EditShapeFormValues.category values in
     (if negb (bool_decide (oldCategory = newCategory)) then
        removeShapeFromLibrary libraryRoot localeCompare
          (ShapeInfo.id shape) oldCategory ;;
        let* newPreviewPath :=
          movePreviewToCategory libraryRoot shape oldCategory newCategory in
        let updatedShape :=
          ShapeInfo.mk (ShapeInfo.id shape)
            (EditShapeFormValues.name values) newCategory newPreviewPath
            (setMember "tags" (tagsOf (EditShapeFormValues.tags values))
               (ShapeInfo.more shape)) in
        addShapeToLibrary libraryRoot localeCompare updatedShape ;;
        ret tt
      else
        let updates :=
          PartialShapeInfo.mk None (Some (EditShapeFormValues.name values))
            None None
            [("tags", tagsOf (EditShapeFormValues.tags values))] in
        updateShapeInLibrary libraryRoot localeCompare (ShapeInfo.id shape)
          (ShapeInfo.category shape) updates) ;;
     ret (Success "Shape updated!"
            ("Updated " ++ EditShapeFormValues.name values)))
    (fun msg => ret (Failure "Failed to update shape" msg)).

End ShapePicker.

(** ** Vocabulary of the statements *)

(** [writeFileSync] to [p] is not refused and [p] is not a directory. *)
Definition canWrite (p : string) (w : World) : bool :=
  bool_decide (fault w (OpWrite p) = None) && negb (isDir p w).

(** Two states that differ at most in the file [p] (and in what the
    program keeps in memory or in the journal). *)
Definition sameExcept (p : string) (w w' : World) : Prop :=
  fault w' = fault w /\ now w' = now w /\ dirs w' = dirs w /\
  forall q, q <> p -> files w' !! q = files w !! q.

(** A relocation of a preview: a rename or a copy that went through. *)
Definition isRelocation (op : fsop) : bool :=
  match op with
  | OpRename _ _ | OpCopy _ _ => true
  | _ => false
  end.

Definition relocations (w : World) : nat :=
  length (List.filter isRelocation (journal w)).

Section Views.
Variable libraryRoot : string.

(** The categories a caller of [loadCategories] gets to see. *)
Definition storedCategories : M (list CategoryConfig.t) :=
  let* categories := loadCategories libraryRoot in
  deref categories.

(** What [loadCategories] returns when [categories.json] is there. *)
Definition parsedCategories (w : World) : categoriesRef :=
  match fault w (OpRead (getCategoriesFilePath libraryRoot)) with
  | Some _ => Defaults
  | None =>
      match files w !! getCategoriesFilePath libraryRoot with
      | Some (Json (CategoriesObject (Some l))) => Parsed l
      | _ => Defaults
      end
  end.

(** What [loadCategoryShapes] makes of the file of a category. *)
Definition storedShapes (category : string) (w : World) : document :=
  match fault w (OpRead (getCategoryFilePath libraryRoot category)) with
  | Some _ => ShapesArray []
  | None =>
      match files w !! getCategoryFilePath libraryRoot category with
      | Some (Json d) => d
      | _ => ShapesArray []
      end
  end.

(** The shape files all hold arrays (or nothing that parses). *)
Definition shapeFilesAreArrays (w : World) : Prop :=
  forall category, exists l, storedShapes category w = ShapesArray l.

(** Two states that differ at most under the assets directory (and in
    the journal). *)
Definition assetsOnly (w w' : World) : Prop :=
  fault w' = fault w /\ now w' = now w
  /\ DEFAULT_CATEGORIES w' = DEFAULT_CATEGORIES w
  /\ forall p, (forall rel, p <> join (getAssetsDir libraryRoot) rel) ->
       files w' !! p = files w !! p /\ isDir p w' = isDir p w.

End Views.

(** [x] may stand before [y]. *)
Definition inOrder {A} (compare : A -> A -> Z) (x y : A) : Prop :=
  (compare x y <= 0)%Z.

(** No two elements compare as strictly greater both ways. *)
Definition totalOrder {A} (compare : A -> A -> Z) : Prop :=
  forall x y, (0 < compare x y)%Z -> (compare y x <= 0)%Z.

(** The shape of an id without stray dashes. *)
Fixpoint hasDoubleDash (s : string) : bool :=
  match s with
  | String c (String c' _ as r) =>
      (dashChar c && dashChar c') || hasDoubleDash r
  | _ => false
  end.

Definition startsWithDash (s : string) : bool :=
  match s with
  | String c _ => dashChar c
  | EmptyString => false
  end.

Fixpoint endsWithDash (s : string) : bool :=
  match s with
  | EmptyString => false
  | String c EmptyString => dashChar c
  | String _ r => endsWithDash r
  end.

(** The completed sum of the counts of a list of categories. *)
Definition sumOfCounts (libraryRoot : string) (ids : list string)
    (w : World) : nat :=
  sum_list
    (map (fun c => match storedShapes libraryRoot c w with
                   | ShapesArray l => length l
                   | CategoriesObject _ => 0
                   end) ids).

(** A separator of paths, on either platform: the slash and the
    backslash (code 92). *)
Definition separator (c : ascii) : bool :=
  bool_decide (c = "/"%char) || bool_decide (c = "092"%char).

Fixpoint hasSeparator (s : string) : bool :=
  match s with
  | EmptyString => false
  | String c r => separator c || hasSeparator r
  end.

(** A name that [path.join] leaves as it is: not empty, not [.] or
    [..], without a separator. *)
Definition plainName (s : string) : bool :=
  negb (hasSeparator s)
  && negb (bool_decide (s = EmptyString))
  && negb (bool_decide (s = "."))
  && negb (bool_decide (s = "..")).

(** A relative path made of such names. *)
Definition plainPath (p : string) : bool :=
  forallb plainName (split "/"%char p).

(** The content of no file is lost from [w] to [w']: it is where it
    was, or in a file under the assets directory, at a relative path
    of plain names. *)
Definition keepsContents (libraryRoot : string) (w w' : World) : Prop :=
  forall c p,
    files w !! p = Some c ->
    files w' !! p = Some c
    \/ exists rel,
         plainPath rel = true
         /\ files w' !! join (getAssetsDir libraryRoot) rel = Some c.

(** ** A library to run the functions on *)

Module Demo.

Definition root : string := "/lib".

(** The comparison of the names by code units, standing for
    [localeCompare]. *)
Definition compareNames (a b : string) : Z :=
  match String.compare a b with
  | Lt => (-1)%Z
  | Eq => 0%Z
  | Gt => 1%Z
  end.

(** [DEFAULT_CATEGORIES] as the module is loaded. *)
Definition defaults : list CategoryConfig.t :=
  [ CategoryConfig.mk "basic" "Basic Shapes";
    CategoryConfig.mk "arrows" "Proposals";
    CategoryConfig.mk "flowchart" "Visuals";
    CategoryConfig.mk "callouts" "Legal" ].

Definition categories : list CategoryConfig.t :=
  [ CategoryConfig.mk "basic" "Basic Shapes";
    CategoryConfig.mk "arrows" "Proposals";
    CategoryConfig.mk "misc" EmptyString ].

Definition star : ShapeInfo.t :=
  ShapeInfo.mk "star" "Star" "basic" "basic/star.png"
    [("description", JStr "Five points"); ("tags", JArr [JStr "geometry"])].

Definition noFault : fsop -> option string := fun _ => None.

(** Renames are refused, as between two devices. *)
Definition crossDevice : fsop -> option string :=
  fun op =>
    match op with
    | OpRename _ _ => Some "EXDEV: cross-device link not permitted, rename"
    | _ => None
    end.

(** Nothing can be written or created. *)
Definition readOnly : fsop -> option string :=
  fun op =>
    match op with
    | OpWrite _ => Some "EACCES: permission denied, open"
    | OpMkdir _ => Some "EACCES: permission denied, mkdir"
    | _ => None
    end.

Definition stamp : string := "2024-05-01T10:00:00.000Z".

(** Three categories, one shape in [basic], its preview left in the
    folder of [arrows]. *)
Definition library (refused : fsop -> option string) : World :=
  mkWorld
    (<["/lib/categories.json" := Json (CategoriesObject (Some categories))]>
       (<["/lib/shapes/basic.json" := Json (ShapesArray [star])]>
          (<["/lib/assets/arrows/star.png" := Raw "PNG"]> ∅)))
    ({["/lib/assets/arrows"]} ∪ {["/lib/assets/basic"]})
    defaults refused stamp [].

(** An empty folder in which nothing can be written. *)
Definition lockedFolder : World :=
  mkWorld ∅ ∅ defaults readOnly stamp [].

(** Two records under the id [star], against the data model. *)
Definition twoStars : World :=
  mkWorld
    (<["/lib/shapes/basic.json"
       := Json (ShapesArray
                  [ ShapeInfo.mk "star" "Zenith" "basic" "basic/star.png" [];
                    ShapeInfo.mk "star" "Anchor" "basic" "basic/star.png" [] ])]>
       ∅)
    ∅ defaults noFault stamp [].

(** A record of [basic.json] that names another category. *)
Definition misfiled : World :=
  mkWorld
    (<["/lib/shapes/basic.json"
       := Json (ShapesArray
                  [ ShapeInfo.mk "star" "Star" "arrows" "arrows/star.png" [] ])]>
       ∅)
    ∅ defaults noFault stamp [].

(** [toLowerCase] on the letters of ASCII. *)
Definition lowerChar (c : ascii) : ascii :=
  let n := nat_of_ascii c in
  if Nat.leb 65 n && Nat.leb n 90 then ascii_of_nat (n + 32) else c.

Fixpoint toLowerCase (s : string) : string :=
  match s with
  | EmptyString => EmptyString
  | String c r => String (lowerChar c) (toLowerCase r)
  end.

(** [trim] on the space of ASCII. *)
Fixpoint trimStart (s : string) : string :=
  match s with
  | EmptyString => EmptyString
  | String c r => if bool_decide (c = " "%char) then trimStart r else s
  end.

Fixpoint trimEnd (s : string) : string :=
  match s with
  | EmptyString => EmptyString
  | String c r =>
      match trimEnd r with
      | EmptyString =>
          if bool_decide (c = " "%char) then EmptyString
          else String c EmptyString
      | String c' r' => String c (String c' r')
      end
  end.

Definition trim (s : string) : string := trimEnd (trimStart s).

(** No folder can be created. *)
Definition noFolders : fsop -> option string :=
  fun op =>
    match op with
    | OpMkdir _ => Some "EACCES: permission denied, mkdir"
    | _ => None
    end.

(** Nothing can be written but [categories.json]. *)
Definition shapesLocked : fsop -> option string :=
  fun op =>
    match op with
    | OpWrite p =>
        if bool_decide (p = "/lib/categories.json") then None
        else Some "EACCES: permission denied, open"
    | _ => None
    end.

(** An empty folder, before the first run. *)
Definition emptyFolder : World :=
  mkWorld ∅ ∅ defaults noFault stamp [].

(** A shape that is in no file. *)
Definition moon : ShapeInfo.t :=
  ShapeInfo.mk "moon" "Moon" "basic" "basic/moon.png" [].

End Demo.

(** * Properties *)

(** ** Paths *)

Lemma append_cons (x : ascii) (a b : string) :
  String x a ++ b = String x (a ++ b).
Proof. reflexivity. Qed.

Lemma append_assoc (a b c : string) : (a ++ b) ++ c = a ++ (b ++ c).
Proof.
  induction a as [|x a IH]; [reflexivity |].
  rewrite !append_cons. f_equal. exact IH.
Qed.

Lemma append_inv_head (a b c : string) : a ++ b = a ++ c -> b = c.
Proof. apply String.app_inj. Qed.

Lemma length_append (a b : string) :
  String.length (a ++ b) = String.length a + String.length b.
Proof.
  induction a as [|x a IH]; [reflexivity |].
  rewrite append_cons. simpl. f_equal. exact IH.
Qed.

Lemma append_not_self (a b : string) : b <> EmptyString -> a ++ b <> a.
Proof.
  intros Hb Heq. apply (f_equal String.length) in Heq.
  rewrite length_append in Heq. destruct b; [done | simpl in Heq; lia].
Qed.

Section Paths.
Variable root : string.

Lemma categories_not_shape_file (category : string) :
  getCategoryFilePath root category <> getCategoriesFilePath root.
Proof.
  unfold getCategoryFilePath, getCategoriesFilePath, getShapesDir,
    getLibraryRoot, join.
  rewrite !append_assoc. intros H. apply append_inv_head in H. discriminate.
Qed.

Lemma asset_not_categories (rel : string) :
  join (getAssetsDir root) rel <> getCategoriesFilePath root.
Proof.
  unfold getCategoriesFilePath, getAssetsDir, getLibraryRoot, join.
  rewrite !append_assoc. intros H. apply append_inv_head in H. discriminate.
Qed.

Lemma asset_not_shape_file (rel category : string) :
  join (getAssetsDir root) rel <> getCategoryFilePath root category.
Proof.
  unfold getCategoryFilePath, getShapesDir, getAssetsDir, getLibraryRoot, join.
  rewrite !append_assoc. intros H. apply append_inv_head in H. discriminate.
Qed.

Lemma asset_not_marker (rel : string) :
  join (getAssetsDir root) rel <> repairMarker root.
Proof.
  unfold repairMarker, getAssetsDir, getLibraryRoot, join.
  rewrite !append_assoc. intros H. apply append_inv_head in H. discriminate.
Qed.

Lemma marker_not_categories :
  repairMarker root <> getCategoriesFilePath root.
Proof.
  unfold repairMarker, getCategoriesFilePath, getLibraryRoot, join.
  intros H. apply append_inv_head in H. discriminate.
Qed.

Lemma preview_not_its_folder (category id : string) :
  join (getAssetsDir root) (category ++ "/" ++ id ++ ".png")
  <> join (getAssetsDir root) category.
Proof.
  unfold join. intros H. do 2 apply append_inv_head in H.
  revert H. apply append_not_self. discriminate.
Qed.

End Paths.

(** ** Arrays *)

Lemma findIndex_Some {A} (p : A -> bool) (l : list A) (i : nat) :
  findIndex p l = Some i ->
  exists x, l !! i = Some x /\ p x = true /\ List.find p l = Some x.
Proof.
  revert i. induction l as [|y l IH]; intros i; simpl; [done |].
  destruct (p y) eqn:Hy.
  - intros [= <-]. eauto.
  - destruct (findIndex p l) as [j|]; simpl; [|done].
    intros [= <-]. destruct (IH j eq_refl) as (x & ? & ? & ?). eauto.
Qed.

Lemma findIndex_None {A} (p : A -> bool) (l : list A) :
  findIndex p l = None -> List.find p l = None /\ existsb p l = false.
Proof.
  induction l as [|y l IH]; simpl; [done |].
  destruct (p y); [done |].
  destruct (findIndex p l); simpl; [done | auto].
Qed.

Lemma findIndex_None_all {A} (p : A -> bool) (l : list A) :
  findIndex p l = None -> forall x, x ∈ l -> p x = false.
Proof.
  induction l as [|y l IH]; simpl; [by intros _ x ?%elem_of_nil |].
  destruct (p y) eqn:Hy; [done |].
  destruct (findIndex p l); simpl; [done |].
  intros _ x [-> | Hx]%elem_of_cons; auto.
Qed.

Lemma findIndex_existsb {A} (p : A -> bool) (l : list A) :
  existsb p l = bool_decide (is_Some (findIndex p l)).
Proof.
  induction l as [|y l IH]; simpl; [done |].
  destruct (p y); simpl; [done |]. rewrite IH.
  destruct (findIndex p l); done.
Qed.

(** ** Sorting *)

Section Sorting.
Context {A : Type} (compare : A -> A -> Z).

Lemma sortInsert_perm (x : A) (l : list A) : sortInsert compare x l ≡ₚ x :: l.
Proof.
  induction l as [|y l IH]; simpl; [done |].
  destruct (compare x y <=? 0)%Z; [done |].
  rewrite IH. apply Permutation_swap.
Qed.

Lemma sort_perm (l : list A) : sort compare l ≡ₚ l.
Proof.
  induction l as [|x l IH]; simpl; [done |].
  rewrite sortInsert_perm. by rewrite IH.
Qed.

Lemma sortInsert_sorted (x : A) (l : list A) :
  totalOrder compare -> Sorted (inOrder compare) l ->
  Sorted (inOrder compare) (sortInsert compare x l).
Proof.
  intros Htot. induction 1 as [|y l Hl IH Hhd]; simpl.
  - repeat constructor.
  - destruct (Z.leb_spec (compare x y) 0) as [Hle | Hgt].
    + repeat constructor; assumption.
    + constructor; [exact IH |].
      destruct Hhd as [|z l' Hyz]; simpl.
      * constructor. by apply Htot.
      * destruct (compare x z <=? 0)%Z; constructor;
          [by apply Htot | exact Hyz].
Qed.

Lemma sort_sorted (l : list A) :
  totalOrder compare -> Sorted (inOrder compare) (sort compare l).
Proof.
  intros Htot. induction l as [|x l IH]; simpl; [constructor |].
  by apply sortInsert_sorted.
Qed.

Lemma sort_of_sorted (l : list A) :
  Sorted (inOrder compare) l -> sort compare l = l.
Proof.
  induction 1 as [|x l Hl IH Hhd]; simpl; [done |].
  rewrite IH. destruct Hhd as [|y l' Hxy]; simpl; [done |].
  unfold inOrder in Hxy. by apply Z.leb_le in Hxy as ->.
Qed.

Lemma sort_idempotent (l : list A) :
  totalOrder compare -> sort compare (sort compare l) = sort compare l.
Proof. intros Htot. by apply sort_of_sorted, sort_sorted. Qed.

End Sorting.

(** ** Records with distinct ids *)

Lemma same_key_same_element {A B} (f : A -> B) (l : list A) (x y : A) :
  NoDup (map f l) -> x ∈ l -> y ∈ l -> f x = f y -> x = y.
Proof.
  induction l as [|z l IH]; simpl; [by intros _ ?%elem_of_nil |].
  rewrite NoDup_cons. intros [Hz Hl] Hx Hy Hf.
  apply elem_of_cons in Hx as [-> | Hx]; apply elem_of_cons in Hy as [-> | Hy].
  - done.
  - exfalso. apply Hz. rewrite Hf. by apply list_elem_of_fmap_2.
  - exfalso. apply Hz. rewrite <- Hf. by apply list_elem_of_fmap_2.
  - by apply IH.
Qed.

(** ** The file system operations *)

Ltac unfold_monad := unfold bind, ret, throw, try_catch, lift, deref in *.

Lemma isFile_Some (p : string) (w : World) (c : content) :
  files w !! p = Some c -> isFile p w = true.
Proof. intros H. unfold isFile. rewrite H. by apply bool_decide_eq_true_2. Qed.

Lemma isFile_None (p : string) (w : World) :
  files w !! p = None -> isFile p w = false.
Proof.
  intros H. unfold isFile. rewrite H. apply bool_decide_eq_false_2.
  by intros [? ?].
Qed.

Lemma canWrite_true (p : string) (w : World) :
  canWrite p w = true <-> fault w (OpWrite p) = None /\ isDir p w = false.
Proof.
  unfold canWrite. rewrite andb_true_iff, bool_decide_eq_true, negb_true_iff.
  done.
Qed.

Lemma writeFileSync_ok (p : string) (c : content) (w : World) :
  canWrite p w = true ->
  writeFileSync p c w
  = (Ok tt, commit (OpWrite p) (<[p := c]> (files w)) (dirs w) w).
Proof.
  intros [Hf Hd]%canWrite_true. unfold writeFileSync. by rewrite Hf, Hd.
Qed.

Lemma writeFileSync_refused (p : string) (c : content) (w : World) :
  canWrite p w = false -> exists e, writeFileSync p c w = (Throw e, w).
Proof.
  unfold canWrite, writeFileSync. intros H.
  destruct (fault w (OpWrite p)) as [e|]; [by eexists |].
  destruct (isDir p w); [by eexists | done].
Qed.

Lemma canWrite_sameExcept (q p : string) (w w' : World) :
  sameExcept q w w' -> canWrite p w' = canWrite p w.
Proof.
  intros (Hf & _ & Hd & _). unfold canWrite, isDir. by rewrite Hf, Hd.
Qed.

Lemma sameExcept_refl (p : string) (w : World) : sameExcept p w w.
Proof. by repeat split. Qed.

Lemma sameExcept_trans (p : string) (w1 w2 w3 : World) :
  sameExcept p w1 w2 -> sameExcept p w2 w3 -> sameExcept p w1 w3.
Proof.
  intros (? & ? & ? & H12) (? & ? & ? & H23).
  repeat split; try congruence. intros q Hq. by rewrite H23, H12.
Qed.

Lemma sameExcept_write (p : string) (c : content) (w : World) :
  sameExcept p w (commit (OpWrite p) (<[p := c]> (files w)) (dirs w) w).
Proof.
  repeat split. intros q Hq. simpl. by rewrite lookup_insert_ne.
Qed.

(** ** The category store *)

Section CategoryStore.
Variable root : string.

Local Notation "'categoriesPath'" := (getCategoriesFilePath root).

Lemma saveCategories_ok (r : categoriesRef) (w : World) :
  canWrite categoriesPath w = true ->
  saveCategories root r w
  = (Ok tt,
     commit (OpWrite categoriesPath)
       (<[categoriesPath := Json (CategoriesObject (Some (elementsOf r w)))]>
          (files w))
       (dirs w) w).
Proof.
  intros H. unfold saveCategories. unfold_monad.
  by rewrite writeFileSync_ok.
Qed.

Lemma saveCategories_refused (r : categoriesRef) (w : World) :
  canWrite categoriesPath w = false ->
  exists e, saveCategories root r w = (Throw e, w).
Proof.
  intros H. unfold saveCategories. unfold_monad.
  destruct (writeFileSync_refused _
              (JSON_stringify (CategoriesObject (Some (elementsOf r w)))) _ H)
    as [e ->].
  by eexists.
Qed.

Lemma saveCategories_frame (r : categoriesRef) (w : World) :
  sameExcept categoriesPath w (saveCategories root r w).2
  /\ DEFAULT_CATEGORIES (saveCategories root r w).2 = DEFAULT_CATEGORIES w.
Proof.
  destruct (canWrite categoriesPath w) eqn:Hw.
  - rewrite saveCategories_ok by done. split; [apply sameExcept_write | done].
  - destruct (saveCategories_refused r w Hw) as [e ->].
    split; [apply sameExcept_refl | done].
Qed.

Lemma loadCategories_present (w : World) :
  isFile categoriesPath w || isDir categoriesPath w = true ->
  loadCategories root w = (Ok (parsedCategories root w), w).
Proof.
  intros H. unfold loadCategories, existsSync, readFileSync, parsedCategories.
  unfold_monad. rewrite H. simpl.
  destruct (fault w (OpRead categoriesPath)); [done |].
  destruct (files w !! categoriesPath) as [[[|[]]|]|]; done.
Qed.

Lemma loadCategories_first_run (w : World) :
  isFile categoriesPath w || isDir categoriesPath w = false ->
  loadCategories root w
  = (saveCategories root Defaults ;; ret Defaults) w.
Proof.
  intros H. unfold loadCategories at 1, existsSync. unfold_monad.
  by rewrite H.
Qed.

(** [loadCategories] changes at most [categories.json], and leaves the
    default array as it is. *)
Lemma loadCategories_frame (w : World) :
  sameExcept categoriesPath w (loadCategories root w).2
  /\ DEFAULT_CATEGORIES (loadCategories root w).2 = DEFAULT_CATEGORIES w.
Proof.
  destruct (isFile categoriesPath w || isDir categoriesPath w) eqn:Hex.
  - rewrite loadCategories_present by done. split; [apply sameExcept_refl | done].
  - rewrite loadCategories_first_run by done. unfold_monad.
    destruct (canWrite categoriesPath w) eqn:Hw.
    + rewrite saveCategories_ok by done. simpl.
      split; [apply sameExcept_write | done].
    + destruct (saveCategories_refused Defaults w Hw) as [e ->]. simpl.
      split; [apply sameExcept_refl | done].
Qed.

Lemma storedCategories_inv (w w1 : World) (cs : list CategoryConfig.t) :
  storedCategories root w = (Ok cs, w1) ->
  exists r, loadCategories root w = (Ok r, w1) /\ cs = elementsOf r w1.
Proof.
  unfold storedCategories. unfold_monad.
  destruct (loadCategories root w) as [[r|e] w'] eqn:Hl; [|done].
  intros [= <- <-]. eauto.
Qed.

Lemma isFile_sameExcept (q p : string) (w w' : World) :
  sameExcept q w w' -> p <> q -> isFile p w' = isFile p w.
Proof. intros (_ & _ & _ & Hf) Hp. unfold isFile. by rewrite Hf. Qed.

Lemma isDir_sameExcept (q p : string) (w w' : World) :
  sameExcept q w w' -> isDir p w' = isDir p w.
Proof. intros (_ & _ & Hd & _). unfold isDir. by rewrite Hd. Qed.

Lemma storedShapes_frame (category : string) (w w' : World) :
  sameExcept categoriesPath w w' ->
  storedShapes root category w' = storedShapes root category w.
Proof.
  intros (Hf & _ & _ & Hfiles). unfold storedShapes.
  rewrite Hf, Hfiles; [done | apply categories_not_shape_file].
Qed.

Lemma getShapeCountInCategory_eq (categoryId : string) (w : World) :
  getShapeCountInCategory root categoryId w
  = (Ok match storedShapes root categoryId w with
        | ShapesArray l => length l
        | CategoriesObject _ => 0
        end, w).
Proof.
  unfold getShapeCountInCategory, storedShapes, getCategoryFilePath,
    existsSync.
  unfold_monad.
  destruct (files w !! _) as [c|] eqn:Hc.
  - rewrite (isFile_Some _ _ _ Hc). simpl. unfold readFileSync. rewrite Hc.
    destruct (fault w _); [done |]. by destruct c as [[]|].
  - rewrite (isFile_None _ _ Hc). simpl.
    destruct (isDir _ w) eqn:Hd; simpl; [|by destruct (fault w _)].
    unfold readFileSync. rewrite Hc. by destruct (fault w _).
Qed.

Lemma mutate_frame (f : list CategoryConfig.t -> list CategoryConfig.t)
    (r : categoriesRef) (w : World) :
  exists r' w', mutate f r w = (Ok r', w')
    /\ sameExcept categoriesPath w w' /\ journal w' = journal w
    /\ files w' = files w
    /\ elementsOf r' w' = f (elementsOf r w).
Proof.
  destruct r as [l|]; simpl; do 2 eexists; repeat split; done.
Qed.

End CategoryStore.

(** ** Deleting a category *)

Section DeleteCategory.
Variable root : string.

Local Notation "'categoriesPath'" := (getCategoriesFilePath root).

(** [deleteCategory] after the list was loaded and the category found
    at [index]. *)
Lemma deleteCategory_run (categoryId : string) (w w1 : World)
    (r : categoriesRef) :
  loadCategories root w = (Ok r, w1) ->
  deleteCategory root categoryId w
  = match findIndex (hasId categoryId) (elementsOf r w1) with
    | None => (Throw (categoryNotFound categoryId), w1)
    | Some index =>
        (let* shapeCount := getShapeCountInCategory root categoryId in
         if Nat.ltb 0 shapeCount then
           throw (notEmptyMessage
                    (from_option CategoryConfig.name EmptyString
                       (elementsOf r w1 !! index))
                    shapeCount)
         else
           let* categories := mutate (splice index) r in
           saveCategories root categories ;;
           ret true) w1
    end.
Proof.
  intros Hl. unfold deleteCategory. unfold_monad. rewrite Hl.
  by destruct (findIndex _ _).
Qed.

(** C1. For a category of the store, [deleteCategory] succeeds exactly
    when the category has no shape; with shapes it fails with a message
    that names the category and their number; for an id that is not in
    the store it fails with the not-found error.  (The categories file
    is taken to be writable.) *)
Theorem deleteCategory_iff_empty (categoryId : string) (w w1 : World)
    (cs : list CategoryConfig.t) (n : nat) :
  storedCategories root w = (Ok cs, w1) ->
  getShapeCountInCategory root categoryId w = (Ok n, w) ->
  canWrite categoriesPath w = true ->
  match List.find (hasId categoryId) cs with
  | Some c =>
      ((exists w', deleteCategory root categoryId w = (Ok true, w'))
       <-> n = 0)
      /\ (0 < n ->
          deleteCategory root categoryId w
          = (Throw (notEmptyMessage (CategoryConfig.name c) n), w1))
  | None =>
      deleteCategory root categoryId w
      = (Throw (categoryNotFound categoryId), w1)
  end.
Proof.
  intros (r & Hl & ->)%storedCategories_inv Hn Hw.
  rewrite (deleteCategory_run _ _ _ _ Hl).
  pose proof (loadCategories_frame root w) as [Hs _]. rewrite Hl in Hs.
  simpl in Hs.
  assert (getShapeCountInCategory root categoryId w1 = (Ok n, w1)) as Hn1.
  { rewrite getShapeCountInCategory_eq in Hn |- *.
    rewrite (storedShapes_frame root _ _ _ Hs). by injection Hn as ->. }
  destruct (findIndex _ _) as [index|] eqn:Hi.
  - apply findIndex_Some in Hi as (c & Hc & _ & ->).
    unfold_monad. rewrite Hn1, Hc. simpl.
    destruct n as [|n]; simpl.
    + split; [|lia].
      split; [done | intros _].
      destruct (mutate_frame root (splice index) r w1)
        as (r' & w2 & -> & Hs2 & _).
      rewrite saveCategories_ok; [by eexists |].
      by rewrite (canWrite_sameExcept _ _ _ _ Hs2),
                 (canWrite_sameExcept _ _ _ _ Hs).
    + split; [|done]. split; [by intros [w' ?] | done].
  - by apply findIndex_None in Hi as [-> _].
Qed.

Lemma deleteCategory_sameExcept (categoryId : string) (w : World) :
  sameExcept categoriesPath w (deleteCategory root categoryId w).2.
Proof.
  pose proof (loadCategories_frame root w) as [Hs _].
  destruct (loadCategories root w) as [[r|e] w1] eqn:Hl; simpl in Hs.
  - rewrite (deleteCategory_run _ _ _ _ Hl).
    destruct (findIndex _ _) as [index|]; [|done].
    unfold_monad. rewrite getShapeCountInCategory_eq.
    destruct (0 <? _)%nat; [done |].
    destruct (mutate_frame root (splice index) r w1)
      as (r' & w2 & -> & Hs2 & _).
    pose proof (saveCategories_frame root r' w2) as [Hs3 _].
    destruct (saveCategories root r' w2) as [[[]|e] w3]; simpl in *;
      eauto using sameExcept_trans.
  - unfold deleteCategory. unfold_monad. by rewrite Hl.
Qed.

(** What a successful [deleteCategory] leaves in [categories.json]. *)
Lemma deleteCategory_removes_entry (categoryId : string) (w w1 w' : World)
    (cs : list CategoryConfig.t) :
  storedCategories root w = (Ok cs, w1) ->
  deleteCategory root categoryId w = (Ok true, w') ->
  exists index,
    findIndex (hasId categoryId) cs = Some index
    /\ files w' !! categoriesPath
       = Some (Json (CategoriesObject (Some (splice index cs)))).
Proof.
  intros (r & Hl & ->)%storedCategories_inv.
  rewrite (deleteCategory_run _ _ _ _ Hl).
  destruct (findIndex _ _) as [index|]; [|done].
  unfold_monad. rewrite getShapeCountInCategory_eq.
  destruct (0 <? _)%nat; [done |].
  destruct (mutate_frame root (splice index) r w1)
    as (r' & w2 & -> & _ & _ & _ & Hel).
  destruct (canWrite categoriesPath w2) eqn:Hw.
  - rewrite saveCategories_ok by done. intros [= <-].
    exists index. split; [done |]. simpl. by rewrite lookup_insert_eq, Hel.
  - by destruct (saveCategories_refused root r' w2 Hw) as [e ->].
Qed.

(** C8. [deleteCategory] leaves the shape file of the category, every
    file under the assets directory and all the directories as they
    were: whatever its outcome, the only file it may write is
    [categories.json], which after a success holds the list without the
    entry of the category. *)
Theorem deleteCategory_keeps_shapes_and_assets (categoryId : string)
    (w : World) :
  let w' := (deleteCategory root categoryId w).2 in
  files w' !! getCategoryFilePath root categoryId
  = files w !! getCategoryFilePath root categoryId
  /\ (forall rel,
        files w' !! join (getAssetsDir root) rel
        = files w !! join (getAssetsDir root) rel)
  /\ dirs w' = dirs w
  /\ (forall q, q <> categoriesPath -> files w' !! q = files w !! q)
  /\ (forall cs w1,
        storedCategories root w = (Ok cs, w1) ->
        (deleteCategory root categoryId w).1 = Ok true ->
        exists index,
          findIndex (hasId categoryId) cs = Some index
          /\ files w' !! categoriesPath
             = Some (Json (CategoriesObject (Some (splice index cs))))).
Proof.
  destruct (deleteCategory_sameExcept categoryId w) as (_ & _ & Hd & Hf).
  simpl. split; [|split; [|split; [|split]]].
  - apply Hf, categories_not_shape_file.
  - intros rel. apply Hf, asset_not_categories.
  - exact Hd.
  - exact Hf.
  - intros cs w1 Hcs Hok.
    destruct (deleteCategory root categoryId w) as [res w'] eqn:Hrun.
    simpl in Hok. subst res.
    by apply (deleteCategory_removes_entry _ _ _ _ _ Hcs).
Qed.

End DeleteCategory.

(** ** Display names *)

Section DisplayName.
Variable root : string.

(** C10. [getCategoryDisplayName] returns the id it was given when the
    store has no category with that id, and also when the category is
    there with the empty string as its name. *)
Theorem getCategoryDisplayName_falls_back_to_id (categoryId : string)
    (w w1 : World) (cs : list CategoryConfig.t) :
  storedCategories root w = (Ok cs, w1) ->
  List.find (hasId categoryId) cs = None
  \/ (exists c, List.find (hasId categoryId) cs = Some c
                /\ CategoryConfig.name c = EmptyString) ->
  getCategoryDisplayName root categoryId w = (Ok categoryId, w1).
Proof.
  intros (r & Hl & ->)%storedCategories_inv Hfind.
  unfold getCategoryDisplayName. unfold_monad. rewrite Hl.
  destruct Hfind as [-> | (c & -> & ->)]; done.
Qed.

End DisplayName.

(** ** Adding a category *)

Section AddCategory.
Variable root : string.

Local Notation "'categoriesPath'" := (getCategoriesFilePath root).

Lemma loadCategories_Parsed (w w1 : World) (l : list CategoryConfig.t) :
  loadCategories root w = (Ok (Parsed l), w1) ->
  fault w (OpRead categoriesPath) = None.
Proof.
  destruct (isFile categoriesPath w || isDir categoriesPath w) eqn:Hex.
  - rewrite loadCategories_present by done. unfold parsedCategories.
    by destruct (fault w _).
  - rewrite loadCategories_first_run by done. unfold_monad.
    by destruct (saveCategories root Defaults w) as [[[]|e] w2].
Qed.

(** [addCategory] once the id is valid and the list is loaded. *)
Lemma addCategory_run (id name : string) (w w1 : World) (r : categoriesRef) :
  validIdRegex_test id = true ->
  loadCategories root w = (Ok r, w1) ->
  addCategory root id name w
  = if existsb (hasId id) (elementsOf r w1) then
      (Throw ("Category with ID " ++ quoted id ++ " already exists"), w1)
    else
      (let* categories :=
         mutate (fun l => (l ++ [CategoryConfig.mk id name])%list) r in
       saveCategories root categories ;;
       let* present := existsSync (getCategoryFilePath root id) in
       if negb present then
         writeFileSync (getCategoryFilePath root id)
           (JSON_stringify (ShapesArray []))
       else ret tt) w1.
Proof.
  intros Hv Hl. unfold addCategory. rewrite Hv. simpl. unfold_monad.
  rewrite Hl. by destruct (existsb _ _).
Qed.

(** The state after the two writes of a successful [addCategory]. *)
Lemma addCategory_success (id name : string) (w w1 w' : World)
    (r : categoriesRef) :
  validIdRegex_test id = true ->
  loadCategories root w = (Ok r, w1) ->
  addCategory root id name w = (Ok tt, w') ->
  exists r' w2,
    mutate (fun l => (l ++ [CategoryConfig.mk id name])%list) r w1
    = (Ok r', w2)
    /\ files w' !! categoriesPath
       = Some (Json (CategoriesObject (Some (elementsOf r' w2))))
    /\ DEFAULT_CATEGORIES w' = DEFAULT_CATEGORIES w2
    /\ fault w' = fault w
    /\ (isFile (getCategoryFilePath root id) w
        || isDir (getCategoryFilePath root id) w = false ->
        files w' !! getCategoryFilePath root id = Some (Json (ShapesArray [])))
    /\ (isFile (getCategoryFilePath root id) w
        || isDir (getCategoryFilePath root id) w = true ->
        files w' !! getCategoryFilePath root id
        = files w !! getCategoryFilePath root id).
Proof.
  intros Hv Hl. rewrite (addCategory_run _ _ _ _ _ Hv Hl).
  destruct (existsb _ _); [done |].
  pose proof (loadCategories_frame root w) as [Hs1 _]. rewrite Hl in Hs1.
  simpl in Hs1.
  destruct (mutate_frame root
              (fun l => (l ++ [CategoryConfig.mk id name])%list) r w1)
    as (r' & w2 & Hm & Hs2 & _ & _ & _).
  unfold_monad. rewrite Hm.
  destruct (canWrite categoriesPath w2) eqn:Hw2.
  2:{ by destruct (saveCategories_refused root r' w2 Hw2) as [e ->]. }
  rewrite saveCategories_ok by done.
  set (w3 := commit _ _ _ w2).
  assert (sameExcept categoriesPath w w3) as Hs3.
  { eapply sameExcept_trans; [exact Hs1 |].
    eapply sameExcept_trans; [exact Hs2 | apply sameExcept_write]. }
  pose proof (categories_not_shape_file root id) as Hne.
  unfold existsSync.
  rewrite (isFile_sameExcept _ _ _ _ Hs3 Hne), (isDir_sameExcept _ _ _ _ Hs3).
  destruct Hs3 as (Hf3 & _ & _ & Hfiles3).
  destruct (isFile _ w || isDir _ w) eqn:Hex; simpl.
  - intros [= <-]. exists r', w2. repeat split; try done.
    + subst w3. simpl. by rewrite lookup_insert_eq.
    + intros _. by apply Hfiles3.
  - destruct (canWrite (getCategoryFilePath root id) w3) eqn:Hw3.
    2:{ by destruct (writeFileSync_refused _
                       (JSON_stringify (ShapesArray [])) _ Hw3) as [e ->]. }
    rewrite writeFileSync_ok by done. intros [= <-].
    exists r', w2. repeat split; try done.
    + simpl. rewrite lookup_insert_ne by done. by rewrite lookup_insert_eq.
    + intros _. simpl. by rewrite lookup_insert_eq.
Qed.

(** C2. [addCategory] fails exactly when the id does not match the slug
    pattern or is the id of a category of the store (the two files it
    writes being writable); when it succeeds, the category is among
    those [loadCategories] returns afterwards, and the shape file of
    the category holds the empty array if there was none (a file that
    was there is kept). *)
Theorem addCategory_spec (id name : string) (w : World) :
  (forall cs w1,
     storedCategories root w = (Ok cs, w1) ->
     canWrite categoriesPath w = true ->
     canWrite (getCategoryFilePath root id) w = true ->
     ((exists e w', addCategory root id name w = (Throw e, w'))
      <-> validIdRegex_test id = false \/ existsb (hasId id) cs = true))
  /\ (forall w',
        addCategory root id name w = (Ok tt, w') ->
        (exists cs' w'',
           storedCategories root w' = (Ok cs', w'')
           /\ CategoryConfig.mk id name ∈ cs')
        /\ (isFile (getCategoryFilePath root id) w
            || isDir (getCategoryFilePath root id) w = false ->
            files w' !! getCategoryFilePath root id
            = Some (Json (ShapesArray [])))
        /\ (isFile (getCategoryFilePath root id) w
            || isDir (getCategoryFilePath root id) w = true ->
            files w' !! getCategoryFilePath root id
            = files w !! getCategoryFilePath root id)).
Proof.
  split.
  - intros cs w1 (r & Hl & ->)%storedCategories_inv Hwc Hws.
    destruct (validIdRegex_test id) eqn:Hv.
    2:{ split; [auto |]. intros _. unfold addCategory. rewrite Hv.
        by do 2 eexists. }
    rewrite (addCategory_run _ _ _ _ _ Hv Hl).
    destruct (existsb _ _) eqn:Hex.
    { split; [auto | intros _; by do 2 eexists]. }
    split; [|by intros [|]].
    intros (e & w' & Hthrow). exfalso. revert Hthrow.
    pose proof (loadCategories_frame root w) as [Hs1 _]. rewrite Hl in Hs1.
    simpl in Hs1.
    destruct (mutate_frame root
                (fun l => (l ++ [CategoryConfig.mk id name])%list) r w1)
      as (r' & w2 & Hm & Hs2 & _ & _ & _).
    unfold_monad. rewrite Hm.
    rewrite saveCategories_ok
      by (by rewrite (canWrite_sameExcept _ _ _ _ Hs2),
                     (canWrite_sameExcept _ _ _ _ Hs1)).
    set (w3 := commit _ _ _ w2).
    assert (sameExcept categoriesPath w w3) as Hs3.
    { eapply sameExcept_trans; [exact Hs1 |].
      eapply sameExcept_trans; [exact Hs2 | apply sameExcept_write]. }
    unfold existsSync. destruct (isFile _ w3 || isDir _ w3); simpl; [done |].
    rewrite writeFileSync_ok; [done |].
    by rewrite (canWrite_sameExcept _ _ _ _ Hs3).
  - intros w' Hok.
    destruct (validIdRegex_test id) eqn:Hv.
    2:{ unfold addCategory in Hok. by rewrite Hv in Hok. }
    destruct (loadCategories root w) as [[r|e] w1] eqn:Hl.
    2:{ unfold addCategory in Hok. rewrite Hv in Hok. simpl in Hok.
        unfold_monad. by rewrite Hl in Hok. }
    destruct (addCategory_success _ _ _ _ _ _ Hv Hl Hok)
      as (r' & w2 & Hm & Hcat & Hdef & Hfault & Habsent & Hkept).
    split; [|by split].
    unfold storedCategories. unfold_monad.
    rewrite loadCategories_present
      by (by rewrite (isFile_Some _ _ _ Hcat)).
    do 2 eexists. split; [reflexivity |].
    unfold parsedCategories. rewrite Hcat, Hfault.
    destruct r as [l|]; simpl in Hm; injection Hm as <- <-; simpl.
    + rewrite (loadCategories_Parsed _ _ _ Hl). simpl.
      apply elem_of_app. right. by apply list_elem_of_singleton.
    + destruct (fault w _); simpl; [rewrite Hdef; simpl |];
        apply elem_of_app; right; by apply list_elem_of_singleton.
Qed.

End AddCategory.

(** ** The shape repository *)

Lemma alter_as_insert {A} (f : A -> A) (l : list A) (i : nat) (x : A) :
  l !! i = Some x -> alter f i l = <[i := f x]> l.
Proof.
  revert i. induction l as [|y l IH]; intros [|i]; simpl; try done.
  - by intros [= ->].
  - intros H. f_equal. by apply IH.
Qed.

Lemma filter_out_length {A} (p : A -> bool) (l : list A) :
  Nat.eqb (length (List.filter (fun x => negb (p x)) l)) (length l)
  = negb (existsb p l).
Proof.
  induction l as [|y l IH]; simpl; [done |].
  destruct (p y); simpl; [|exact IH].
  apply Nat.eqb_neq.
  pose proof (List.filter_length_le (fun x => negb (p x)) l). lia.
Qed.

Section ShapeRepository.
Variable root : string.
Variable localeCompare : string -> string -> Z.

Local Notation "'shapesPath' c" := (getCategoryFilePath root c)
  (at level 10, c at level 9).

Lemma loadCategoryShapes_eq (category : string) (w : World) :
  loadCategoryShapes root category w
  = (Ok (storedShapes root category w), w).
Proof.
  unfold loadCategoryShapes, storedShapes, existsSync. unfold_monad.
  destruct (files w !! _) as [c|] eqn:Hc.
  - rewrite (isFile_Some _ _ _ Hc). simpl. unfold readFileSync. rewrite Hc.
    destruct (fault w _); [done |]. by destruct c.
  - rewrite (isFile_None _ _ Hc). simpl.
    destruct (isDir _ w) eqn:Hd; simpl; [|by destruct (fault w _)].
    unfold readFileSync. rewrite Hc. by destruct (fault w _).
Qed.

Lemma saveCategoryShapes_ok (category : string) (shapes : list ShapeInfo.t)
    (w : World) :
  canWrite (shapesPath category) w = true ->
  saveCategoryShapes root localeCompare category shapes w
  = (Ok tt,
     commit (OpWrite (shapesPath category))
       (<[shapesPath category
          := Json (ShapesArray (sort (byName localeCompare) shapes))]>
          (files w))
       (dirs w) w).
Proof.
  intros H. unfold saveCategoryShapes. unfold_monad.
  by rewrite writeFileSync_ok.
Qed.

Lemma saveCategoryShapes_refused (category : string)
    (shapes : list ShapeInfo.t) (w : World) :
  canWrite (shapesPath category) w = false ->
  exists e,
    saveCategoryShapes root localeCompare category shapes w
    = (Throw (saveFailed category (shapesPath category) e), w).
Proof.
  intros H. unfold saveCategoryShapes. unfold_monad.
  destruct (writeFileSync_refused _
              (JSON_stringify
                 (ShapesArray (sort (byName localeCompare) shapes))) _ H)
    as [e ->].
  by eexists.
Qed.

Lemma shapeExists_false (id category : string) (w : World) :
  shapeExists root id category w = (Ok false, w)
  <-> exists l, storedShapes root category w = ShapesArray l
                /\ existsb (sameId id) l = false.
Proof.
  unfold shapeExists. unfold_monad. rewrite loadCategoryShapes_eq.
  destruct (storedShapes root category w) as [l|o].
  - split; [intros [= H]; eauto | by intros (? & [= <-] & ->)].
  - split; [done | by intros (? & ? & ?)].
Qed.

Lemma notFound_not_saveFailed (id category c p e : string) :
  saveFailed c p e <> shapeNotFound id category.
Proof. discriminate. Qed.

Lemma notFound_not_typeError (id category method : string) :
  notAnArray method <> shapeNotFound id category.
Proof. discriminate. Qed.

(** C9. Each of [updateShapeInLibrary] and [removeShapeFromLibrary]
    throws its not-found error exactly when the file of the category has
    no record with the id, and the state in which it throws is the one
    it started in: nothing was written. *)
Theorem notFound_leaves_the_file (id category : string)
    (updates : PartialShapeInfo.t) (w w' : World) :
  (updateShapeInLibrary root localeCompare id category updates w
   = (Throw (shapeNotFound id category), w')
   <-> shapeExists root id category w = (Ok false, w) /\ w' = w)
  /\ (removeShapeFromLibrary root localeCompare id category w
      = (Throw (shapeNotFound id category), w')
      <-> shapeExists root id category w = (Ok false, w) /\ w' = w).
Proof.
  rewrite shapeExists_false.
  unfold updateShapeInLibrary, removeShapeFromLibrary. unfold_monad.
  rewrite loadCategoryShapes_eq.
  destruct (storedShapes root category w) as [l|o].
  2:{ split; (split; [intros [= H]; by apply notFound_not_typeError in H
                     | by intros [(? & ? & ?) _]]). }
  split.
  - destruct (findIndex (sameId id) l) as [index|] eqn:Hi.
    + split.
      2:{ intros [(? & [= <-] & Hex) _]. rewrite findIndex_existsb, Hi in Hex.
          by rewrite bool_decide_eq_true_2 in Hex. }
      destruct (canWrite (shapesPath category) w) eqn:Hw.
      * by rewrite saveCategoryShapes_ok.
      * destruct (saveCategoryShapes_refused category
                    (alter (fun s => withIdentity id category (spread s updates))
                       index l) w Hw) as [e ->].
        intros [= H]; by apply notFound_not_saveFailed in H.
    + apply findIndex_None in Hi as [_ Hex].
      split; [intros [= <-]; eauto | by intros [_ ->]].
  - rewrite filter_out_length.
    destruct (existsb (sameId id) l) eqn:Hex; simpl.
    + split; [|intros [(? & [= <-] & ?) _]; congruence].
      destruct (canWrite (shapesPath category) w) eqn:Hw.
      * by rewrite saveCategoryShapes_ok.
      * destruct (saveCategoryShapes_refused category
                    (List.filter (fun s => negb (sameId id s)) l) w Hw)
          as [e ->].
        intros [= H]; by apply notFound_not_saveFailed in H.
    + split; [intros [= <-]; eauto | by intros [_ ->]].
Qed.

(** C3. [updateShapeInLibrary] fails with the not-found error when the
    file of the category has no record with the id.  Otherwise the
    record that is merged and written has the id and the category of
    the record it replaces, whatever [updates] holds for these two
    members (the records of the file being filed under their own
    category); the other members follow [updates]. *)
Theorem updateShapeInLibrary_keeps_identity (id category : string)
    (updates : PartialShapeInfo.t) (w : World) (l : list ShapeInfo.t) :
  loadCategoryShapes root category w = (Ok (ShapesArray l), w) ->
  (forall s, s ∈ l -> ShapeInfo.category s = category) ->
  match findIndex (sameId id) l with
  | None =>
      updateShapeInLibrary root localeCompare id category updates w
      = (Throw (shapeNotFound id category), w)
  | Some index =>
      exists original merged,
        l !! index = Some original
        /\ ShapeInfo.id merged = ShapeInfo.id original
        /\ ShapeInfo.category merged = ShapeInfo.category original
        /\ ShapeInfo.name merged
           = default (ShapeInfo.name original) (PartialShapeInfo.name updates)
        /\ ShapeInfo.preview merged
           = default (ShapeInfo.preview original)
               (PartialShapeInfo.preview updates)
        /\ merged ∈ sort (byName localeCompare) (<[index := merged]> l)
        /\ (canWrite (shapesPath category) w = true ->
            exists w',
              updateShapeInLibrary root localeCompare id category updates w
              = (Ok tt, w')
              /\ files w' !! shapesPath category
                 = Some (Json (ShapesArray
                                 (sort (byName localeCompare)
                                    (<[index := merged]> l)))))
        /\ (canWrite (shapesPath category) w = false ->
            exists e,
              updateShapeInLibrary root localeCompare id category updates w
              = (Throw e, w))
  end.
Proof.
  intros Hload Hfiled.
  unfold updateShapeInLibrary. unfold_monad. rewrite Hload.
  destruct (findIndex (sameId id) l) as [index|] eqn:Hi; [|done].
  apply findIndex_Some in Hi as (original & Hlook & Hid & _).
  apply bool_decide_eq_true in Hid.
  exists original, (withIdentity id category (spread original updates)).
  rewrite (alter_as_insert _ _ _ _ Hlook).
  split; [done |]. split; [done |].
  split; [symmetry; apply Hfiled; by eapply list_elem_of_lookup_2 |].
  split; [done |]. split; [done |].
  split.
  { rewrite sort_perm. apply list_elem_of_insert.
    by eapply lookup_lt_Some. }
  split; intros Hw.
  - rewrite saveCategoryShapes_ok by done. eexists. split; [done |].
    simpl. by rewrite lookup_insert_eq.
  - destruct (saveCategoryShapes_refused category
                (<[index := withIdentity id category (spread original updates)]> l)
                w Hw) as [e ->].
    by eexists.
Qed.

(** The array [addShapeToLibrary] writes, before the sort. *)
Lemma upsert_distinct (shape : ShapeInfo.t) (l : list ShapeInfo.t) :
  NoDup (map ShapeInfo.id l) ->
  let upserted :=
    match findIndex (sameId (ShapeInfo.id shape)) l with
    | Some existingIndex => <[existingIndex := shape]> l
    | None => (l ++ [shape])%list
    end in
  NoDup (map ShapeInfo.id upserted) /\ shape ∈ upserted.
Proof.
  intros Hnd. simpl.
  destruct (findIndex _ l) as [i|] eqn:Hi.
  - apply findIndex_Some in Hi as (x & Hx & Hid & _).
    apply bool_decide_eq_true in Hid. split.
    + change (NoDup (ShapeInfo.id <$> <[i := shape]> l)).
      rewrite list_fmap_insert, list_insert_id; [done |].
      by rewrite list_lookup_fmap, Hx, <- Hid.
    + apply list_elem_of_insert. by eapply lookup_lt_Some.
  - split.
    + change (NoDup (ShapeInfo.id <$> (l ++ [shape])%list)).
      rewrite fmap_app. apply NoDup_app. split; [done |]. split.
      * intros k (x & -> & Hx)%list_elem_of_fmap Hk.
        apply list_elem_of_singleton in Hk.
        pose proof (findIndex_None_all _ _ Hi x Hx) as Hp.
        by apply bool_decide_eq_false in Hp.
      * apply NoDup_singleton.
    + apply elem_of_app. right. by apply list_elem_of_singleton.
Qed.

(** Upserting a record that is already there, among distinct ids. *)
Lemma upsert_present (shape : ShapeInfo.t) (l : list ShapeInfo.t) :
  NoDup (map ShapeInfo.id l) -> shape ∈ l ->
  match findIndex (sameId (ShapeInfo.id shape)) l with
  | Some existingIndex => <[existingIndex := shape]> l
  | None => (l ++ [shape])%list
  end = l.
Proof.
  intros Hnd Hin.
  destruct (findIndex _ l) as [i|] eqn:Hi.
  - apply findIndex_Some in Hi as (x & Hx & Hid & _).
    apply bool_decide_eq_true in Hid.
    apply list_insert_id. rewrite Hx. f_equal.
    eapply same_key_same_element; eauto. by eapply list_elem_of_lookup_2.
  - pose proof (findIndex_None_all _ _ Hi shape Hin) as Hp.
    by apply bool_decide_eq_false in Hp.
Qed.

Lemma byName_total :
  totalOrder localeCompare -> totalOrder (byName localeCompare).
Proof. intros H a b. apply H. Qed.

Lemma storedShapes_after_save (category : string) (shapes : list ShapeInfo.t)
    (w : World) :
  storedShapes root category
    (commit (OpWrite (shapesPath category))
       (<[shapesPath category := Json (ShapesArray shapes)]> (files w))
       (dirs w) w)
  = match fault w (OpRead (shapesPath category)) with
    | Some _ => ShapesArray []
    | None => ShapesArray shapes
    end.
Proof. unfold storedShapes. simpl. by rewrite lookup_insert_eq. Qed.

(** C4. Upserting a shape a second time leaves every file as the first
    upsert left it: in particular the file of the category holds the
    same bytes.  (The comparison of names is total, which makes the
    result of the sort determined, and the ids of the records in the
    file are distinct.) *)
Theorem addShapeToLibrary_twice (shape : ShapeInfo.t) (w : World) :
  totalOrder localeCompare ->
  (forall l,
     loadCategoryShapes root (ShapeInfo.category shape) w
     = (Ok (ShapesArray l), w) ->
     NoDup (map ShapeInfo.id l)) ->
  let w1 := (addShapeToLibrary root localeCompare shape w).2 in
  let w2 := (addShapeToLibrary root localeCompare shape w1).2 in
  files w2 = files w1
  /\ files w2 !! shapesPath (ShapeInfo.category shape)
     = files w1 !! shapesPath (ShapeInfo.category shape).
Proof.
  intros Htot Hdistinct.
  cut (files (addShapeToLibrary root localeCompare shape
                (addShapeToLibrary root localeCompare shape w).2).2
       = files (addShapeToLibrary root localeCompare shape w).2).
  { simpl. intros ->. done. }
  rewrite loadCategoryShapes_eq in Hdistinct.
  unfold addShapeToLibrary at 2 3. unfold_monad.
  rewrite loadCategoryShapes_eq.
  destruct (storedShapes root _ w) as [l|o] eqn:Hstored.
  2:{ simpl. unfold addShapeToLibrary. unfold_monad.
      by rewrite loadCategoryShapes_eq, Hstored. }
  specialize (Hdistinct l eq_refl).
  destruct (upsert_distinct shape l Hdistinct) as [Hnd Hin]. simpl in Hnd, Hin.
  set (upserted := match findIndex _ l with
                   | Some i => <[i := shape]> l
                   | None => (l ++ [shape])%list
                   end) in *.
  destruct (canWrite (shapesPath (ShapeInfo.category shape)) w) eqn:Hw.
  2:{ destruct (saveCategoryShapes_refused (ShapeInfo.category shape)
                  upserted w Hw) as [e ->].
      simpl. unfold addShapeToLibrary. unfold_monad.
      rewrite loadCategoryShapes_eq, Hstored. fold upserted.
      destruct (saveCategoryShapes_refused (ShapeInfo.category shape)
                  upserted w Hw) as [e' ->].
      done. }
  rewrite saveCategoryShapes_ok by done. simpl.
  set (w1 := commit _ _ _ w).
  unfold addShapeToLibrary. unfold_monad.
  rewrite loadCategoryShapes_eq. subst w1.
  rewrite storedShapes_after_save.
  assert (forall again,
            sort (byName localeCompare) again
            = sort (byName localeCompare) upserted ->
            files (saveCategoryShapes root localeCompare
                     (ShapeInfo.category shape) again
                     (commit (OpWrite (shapesPath (ShapeInfo.category shape)))
                        (<[shapesPath (ShapeInfo.category shape)
                           := Json (ShapesArray
                                      (sort (byName localeCompare) upserted))]>
                           (files w))
                        (dirs w) w)).2
            = <[shapesPath (ShapeInfo.category shape)
                := Json (ShapesArray (sort (byName localeCompare) upserted))]>
                (files w)) as Hsave.
  { intros again Heq. rewrite saveCategoryShapes_ok by done. simpl.
    by rewrite Heq, insert_insert_eq. }
  destruct (fault w (OpRead _)) eqn:Hread.
  - (* the file cannot be read: both runs start from the empty array *)
    unfold storedShapes in Hstored. rewrite Hread in Hstored.
    injection Hstored as <-. simpl in *.
    specialize (Hsave [shape] eq_refl).
    by destruct (saveCategoryShapes _ _ _ _ _) as [[[]|e] w2].
  - (* the second run reads what the first one wrote *)
    assert (Hperm : sort (byName localeCompare) upserted ≡ₚ upserted)
      by apply sort_perm.
    rewrite upsert_present.
    + specialize (Hsave (sort (byName localeCompare) upserted)
                    (sort_idempotent _ _ (byName_total Htot))).
      by destruct (saveCategoryShapes _ _ _ _ _) as [[[]|e] w2].
    + change (NoDup (ShapeInfo.id <$> sort (byName localeCompare) upserted)).
      by rewrite Hperm.
    + by rewrite Hperm.
Qed.

End ShapeRepository.

(** ** The preview assets *)

Section PreviewAssets.
Variable root : string.

Local Notation "'assetsDir'" := (getAssetsDir root).

Lemma assetsOnly_refl (w : World) : assetsOnly root w w.
Proof. by repeat split. Qed.

Lemma assetsOnly_trans (w1 w2 w3 : World) :
  assetsOnly root w1 w2 -> assetsOnly root w2 w3 -> assetsOnly root w1 w3.
Proof.
  intros (? & ? & ? & H12) (? & ? & ? & H23).
  repeat split; try congruence.
  - destruct (H23 p) as [-> _]; [done |]. by destruct (H12 p) as [-> _].
  - destruct (H23 p) as [_ ->]; [done |]. by destruct (H12 p) as [_ ->].
Qed.

Lemma relocations_commit (op : fsop) (fs : gmap string content)
    (ds : gset string) (w : World) :
  relocations (commit op fs ds w)
  = (if isRelocation op then 1 else 0) + relocations w.
Proof. unfold relocations. simpl. by destruct (isRelocation op). Qed.

(** [if (!existsSync(dir)) mkdirSync(dir, { recursive: true })], for a
    directory under the assets. *)
Lemma ensure_directory (rel : string) (w : World) :
  isFile (join assetsDir rel) w || isDir (join assetsDir rel) w = true
  \/ fault w (OpMkdir (join assetsDir rel)) = None ->
  exists w',
    (forall A (k : unit -> M A),
       (let* present := existsSync (join assetsDir rel) in
        let* done := (if negb present then mkdirSync (join assetsDir rel)
                      else ret tt) in
        k done) w
       = k tt w')
    /\ assetsOnly root w w' /\ files w' = files w
    /\ relocations w' = relocations w
    /\ (forall p, p <> join assetsDir rel -> isDir p w' = isDir p w).
Proof.
  intros H. unfold existsSync. unfold_monad.
  destruct (isFile _ w || isDir _ w) eqn:Hex; simpl.
  { exists w. repeat split; done. }
  destruct H as [|Hf]; [done |].
  apply orb_false_iff in Hex as [Hfile _].
  unfold mkdirSync. rewrite Hf, Hfile.
  assert (forall p, p <> join assetsDir rel ->
            isDir p (commit (OpMkdir (join assetsDir rel)) (files w)
                       ({[join assetsDir rel]} ∪ dirs w) w)
            = isDir p w) as Hdirs.
  { intros p Hp. unfold isDir. simpl. apply bool_decide_ext.
    rewrite elem_of_union, elem_of_singleton.
    split; [by intros [? | ?] | by right]. }
  eexists. split; [done |].
  split; [|by repeat split].
  repeat split; try done. by apply Hdirs.
Qed.

(** [try { renameSync } catch { try { copyFileSync } catch { } }]: the
    relocation of one preview, with whether it went through. *)
Lemma relocate_spec (srcRel destRel : string) (w : World) :
  exists moved w',
    try_catch
      (renameSync (join assetsDir srcRel) (join assetsDir destRel) ;; ret true)
      (fun _ =>
         try_catch
           (copyFileSync (join assetsDir srcRel) (join assetsDir destRel) ;;
            ret true)
           (fun _ => ret false)) w
    = (Ok moved, w')
    /\ assetsOnly root w w'
    /\ relocations w' = (if moved then 1 else 0) + relocations w.
Proof.
  assert (forall op fs,
            (forall p, (forall rel, p <> join assetsDir rel) ->
                       fs !! p = files w !! p) ->
            assetsOnly root w (commit op fs (dirs w) w)) as Hcommit.
  { intros op fs Hfs. repeat split; try done. by apply Hfs. }
  unfold renameSync, copyFileSync. unfold_monad. cbv beta.
  destruct (fault w (OpRename (join assetsDir srcRel)
                        (join assetsDir destRel))) eqn:Hr;
    destruct (fault w (OpCopy (join assetsDir srcRel)
                         (join assetsDir destRel))) eqn:Hc;
    destruct (files w !! join assetsDir srcRel) as [c|] eqn:Hsrc;
    destruct (isDir (join assetsDir destRel) w) eqn:Hd;
    cbn -[join getAssetsDir]; rewrite ?Hc, ?Hsrc, ?Hd; cbn -[join getAssetsDir];
    (eexists _, _; split; [reflexivity |]);
    (split;
     [ first [ apply assetsOnly_refl
             | apply Hcommit; intros p Hp;
               rewrite lookup_insert_ne by done;
               rewrite ?lookup_delete_ne by done; done ]
     | rewrite ?relocations_commit; done ]).
Qed.

Lemma searchPreview_spec (category : string) (shape : ShapeInfo.t)
    (destRel : string) (searchCategories : list string) :
  forall (repairedCount : nat) (w : World),
  exists n w',
    searchPreview assetsDir category shape (join assetsDir destRel)
      searchCategories repairedCount w = (Ok n, w')
    /\ assetsOnly root w w'
    /\ n + relocations w = repairedCount + relocations w'.
Proof.
  induction searchCategories as [|searchCategory rest IH];
    intros repairedCount w.
  { exists repairedCount, w.
    split; [done | split; [apply assetsOnly_refl | lia]]. }
  cbn [searchPreview]. unfold existsSync at 1. unfold bind at 1.
  destruct (_ && negb (bool_decide (searchCategory = category))).
  - unfold bind at 1.
    destruct (relocate_spec
                (searchCategory ++ "/" ++ ShapeInfo.id shape ++ ".png")
                destRel w) as (moved & w1 & -> & Ha & Hr).
    destruct moved.
    + exists (S repairedCount), w1. split; [done | split; [apply Ha | lia]].
    + destruct (IH repairedCount w1) as (n & w' & -> & Ha' & Hr').
      exists n, w'. split; [done |].
      split; [by eapply assetsOnly_trans | lia].
  - apply IH.
Qed.

Lemma repairShapes_spec (category : string) (categories : list string)
    (shapes : list ShapeInfo.t) :
  forall (repairedCount : nat) (w : World),
  exists n w',
    repairShapes assetsDir category categories shapes repairedCount w
    = (Ok n, w')
    /\ assetsOnly root w w'
    /\ n + relocations w = repairedCount + relocations w'.
Proof.
  induction shapes as [|shape rest IH]; intros repairedCount w.
  { exists repairedCount, w.
    split; [done | split; [apply assetsOnly_refl | lia]]. }
  cbn [repairShapes]. unfold existsSync at 1. unfold bind at 1 2.
  destruct (negb _).
  - destruct (searchPreview_spec category shape (ShapeInfo.preview shape)
                categories repairedCount w) as (n1 & w1 & -> & Ha & Hr).
    destruct (IH n1 w1) as (n & w' & -> & Ha' & Hr').
    exists n, w'. split; [done |].
    split; [by eapply assetsOnly_trans | lia].
  - unfold ret at 1. apply IH.
Qed.

Lemma storedShapes_assetsOnly (category : string) (w w' : World) :
  assetsOnly root w w' ->
  storedShapes root category w' = storedShapes root category w.
Proof.
  intros (Hf & _ & _ & Hp). unfold storedShapes. rewrite Hf.
  destruct (Hp (getCategoryFilePath root category)) as [-> _]; [|done].
  intros rel Heq. symmetry in Heq. by apply asset_not_shape_file in Heq.
Qed.

(** The relocation of one preview again: it creates no directory,
    changes nothing unless it goes through, and goes through when the
    rename is not refused, the source is a file and the destination is
    no directory. *)
Lemma relocate_more (src dest : string) (w : World) :
  exists moved w',
    try_catch
      (renameSync src dest ;; ret true)
      (fun _ =>
         try_catch (copyFileSync src dest ;; ret true) (fun _ => ret false))
      w
    = (Ok moved, w')
    /\ dirs w' = dirs w
    /\ (moved = false -> w' = w)
    /\ (fault w (OpRename src dest) = None ->
        is_Some (files w !! src) -> isDir dest w = false ->
        moved = true).
Proof.
  unfold renameSync, copyFileSync. unfold_monad. cbv beta.
  destruct (fault w (OpRename src dest)) eqn:Hr;
    destruct (fault w (OpCopy src dest)) eqn:Hc;
    destruct (files w !! src) as [c|] eqn:Hsrc;
    destruct (isDir dest w) eqn:Hd;
    cbn; rewrite ?Hc, ?Hsrc, ?Hd; cbn;
    (eexists _, _; split; [reflexivity |]);
    (split; [done |]); (split; [by intros |]);
    intros H1 H2 H3; try done; by destruct H2.
Qed.

(** The search for one preview: it goes up by one or stays, changes
    nothing when it stays, and goes up when a file of the id lies in
    the folder of another category of the list. *)
Lemma searchPreview_more (category : string) (shape : ShapeInfo.t)
    (dest : string) (searchCategories : list string) :
  forall (repairedCount : nat) (w : World),
  exists n w',
    searchPreview assetsDir category shape dest searchCategories
      repairedCount w = (Ok n, w')
    /\ dirs w' = dirs w
    /\ (n = repairedCount -> w' = w)
    /\ repairedCount <= n <= S repairedCount
    /\ (forall found content,
          found ∈ searchCategories -> found <> category ->
          files w !! join assetsDir
                       (found ++ "/" ++ ShapeInfo.id shape ++ ".png")
          = Some content ->
          (forall src, fault w (OpRename src dest) = None) ->
          isDir dest w = false ->
          n = S repairedCount).
Proof.
  induction searchCategories as [|searchCategory rest IH];
    intros repairedCount w.
  { exists repairedCount, w. split; [done |]. split; [done |].
    split; [done |]. split; [lia |].
    intros found content Hin. by apply elem_of_nil in Hin. }
  cbn [searchPreview]. unfold existsSync at 1. unfold bind at 1.
  set (searchPath :=
         join assetsDir
           (searchCategory ++ "/" ++ ShapeInfo.id shape ++ ".png")).
  destruct (relocate_more searchPath dest w)
    as (moved & w1 & Hrun & Hd1 & Hidle & Hgo).
  destruct (IH repairedCount w) as (n & w' & HrunIH & Hd & Hsame & Hle & Hfind).
  destruct ((isFile searchPath w || isDir searchPath w)
            && negb (bool_decide (searchCategory = category))) eqn:Hcond.
  - unfold bind at 1. rewrite Hrun. destruct moved.
    + exists (S repairedCount), w1. split; [done |]. split; [done |].
      split; [intros ?; exfalso; lia |]. split; [lia | done].
    + rewrite (Hidle eq_refl). exists n, w'. split; [exact HrunIH |].
      split; [done |]. split; [done |]. split; [done |].
      intros found content Hin Hne Hfile Hren Hdir.
      apply elem_of_cons in Hin as [-> | Hin].
      * exfalso. fold searchPath in Hfile.
        assert (false = true) as Habs
          by (apply Hgo; [apply Hren | by exists content | done]).
        discriminate Habs.
      * by eapply Hfind.
  - exists n, w'. split; [exact HrunIH |].
    split; [done |]. split; [done |]. split; [done |].
    intros found content Hin Hne Hfile Hren Hdir.
    apply elem_of_cons in Hin as [-> | Hin].
    + exfalso. fold searchPath in Hfile.
      rewrite (isFile_Some _ _ _ Hfile) in Hcond. cbn [orb andb] in Hcond.
      by rewrite bool_decide_eq_false_2 in Hcond.
    + by eapply Hfind.
Qed.

(** The loop over the shapes of one category: the count does not go
    down, nothing changes while it stays, and it goes up when the
    preview of a record is missing while a file of its id lies in the
    folder of another category. *)
Lemma repairShapes_more (category : string) (categories : list string)
    (shapes : list ShapeInfo.t) :
  forall (repairedCount : nat) (w : World),
  exists n w',
    repairShapes assetsDir category categories shapes repairedCount w
    = (Ok n, w')
    /\ dirs w' = dirs w
    /\ (n = repairedCount -> w' = w)
    /\ repairedCount <= n <= repairedCount + length shapes
    /\ (forall s found content,
          s ∈ shapes -> found ∈ categories -> found <> category ->
          isFile (join assetsDir (ShapeInfo.preview s)) w
          || isDir (join assetsDir (ShapeInfo.preview s)) w = false ->
          files w !! join assetsDir
                       (found ++ "/" ++ ShapeInfo.id s ++ ".png")
          = Some content ->
          (forall src,
             fault w (OpRename src (join assetsDir (ShapeInfo.preview s)))
             = None) ->
          repairedCount < n).
Proof.
  induction shapes as [|shape rest IH]; intros repairedCount w.
  { exists repairedCount, w. split; [done |]. split; [done |].
    split; [done |]. split; [simpl; lia |].
    intros s found content Hin. by apply elem_of_nil in Hin. }
  cbn [repairShapes]. unfold existsSync at 1. unfold bind at 1 2.
  destruct (isFile (join assetsDir (ShapeInfo.preview shape)) w
            || isDir (join assetsDir (ShapeInfo.preview shape)) w) eqn:Hex;
    cbn [negb].
  - unfold ret at 1.
    destruct (IH repairedCount w) as (n & w' & Hrun & Hd & Hsame & Hle & Hfind).
    exists n, w'. split; [exact Hrun |].
    split; [done |]. split; [done |]. split; [cbn [length]; lia |].
    intros s found content Hin Hfound Hne Hmiss Hfile Hren.
    apply elem_of_cons in Hin as [-> | Hin]; [congruence |].
    by eapply Hfind.
  - destruct (searchPreview_more category shape
                (join assetsDir (ShapeInfo.preview shape)) categories
                repairedCount w)
      as (n1 & w1 & -> & Hd1 & Hsame1 & Hle1 & Hfind1).
    destruct (IH n1 w1) as (n & w' & -> & Hd & Hsame & Hle & Hfind).
    exists n, w'. split; [done |]. split; [congruence |]. split.
    { intros ->. assert (n1 = repairedCount) as -> by lia.
      rewrite (Hsame eq_refl). by apply Hsame1. }
    split; [cbn [length]; lia |].
    intros s found content Hin Hfound Hne Hmiss Hfile Hren.
    apply elem_of_cons in Hin as [-> | Hin].
    + assert (n1 = S repairedCount) as ->; [|lia].
      eapply Hfind1; [exact Hfound | exact Hne | exact Hfile | exact Hren |].
      by apply orb_false_iff in Hmiss as [_ ?].
    + destruct (decide (n1 = repairedCount)) as [-> | Hne1]; [|lia].
      pose proof (Hsame1 eq_refl) as ->.
      by eapply Hfind.
Qed.

(** [if (!existsSync(dir)) mkdirSync(dir, { recursive: true })] for
    the folder of a category that is there as a directory or can be
    created: the directories that were there stay. *)
Lemma ensure_folder (rel : string) (w : World) :
  isDir (join assetsDir rel) w = true
  \/ fault w (OpMkdir (join assetsDir rel)) = None ->
  exists w',
    (forall A (k : unit -> M A),
       (let* present := existsSync (join assetsDir rel) in
        let* done := (if negb present then mkdirSync (join assetsDir rel)
                      else ret tt) in
        k done) w
       = k tt w')
    /\ assetsOnly root w w' /\ files w' = files w
    /\ relocations w' = relocations w
    /\ (forall p, p <> join assetsDir rel -> isDir p w' = isDir p w)
    /\ (forall p, isDir p w = true -> isDir p w' = true).
Proof.
  intros H.
  destruct (isFile (join assetsDir rel) w || isDir (join assetsDir rel) w)
    eqn:Hex.
  - exists w. split; [|by repeat split].
    intros A k. unfold existsSync. unfold_monad. by rewrite Hex.
  - apply orb_false_iff in Hex as [Hfile Hdir].
    destruct H as [H | Hf]; [congruence |].
    destruct (ensure_directory rel w (or_intror Hf))
      as (w' & Hrun & Ha & Hfiles & Hr & Hdirs).
    exists w'. split; [exact Hrun |]. split; [exact Ha |].
    split; [exact Hfiles |]. split; [exact Hr |]. split; [exact Hdirs |].
    intros p Hp. rewrite Hdirs; [done |]. intros ->. congruence.
Qed.

(** A record whose preview is missing where it is expected, while a
    file of its id lies in the folder of another category. *)
Lemma orphan_transfer (w w' : World) (expected candidate : string)
    (content : content) :
  files w' = files w -> fault w' = fault w ->
  isDir expected w' = isDir expected w ->
  isFile expected w || isDir expected w = false ->
  files w !! candidate = Some content ->
  (forall src, fault w (OpRename src expected) = None) ->
  isFile expected w' || isDir expected w' = false
  /\ files w' !! candidate = Some content
  /\ (forall src, fault w' (OpRename src expected) = None).
Proof.
  intros Hfiles Hfault Hdir Hmiss Hfile Hren.
  unfold isFile in *. rewrite Hfiles, Hfault, Hdir. done.
Qed.

Lemma sumOfCounts_cons (c : string) (ids : list string) (w : World) :
  sumOfCounts root (c :: ids) w
  = match storedShapes root c w with
    | ShapesArray l => length l
    | CategoriesObject _ => 0
    end + sumOfCounts root ids w.
Proof. reflexivity. Qed.

Lemma sumOfCounts_assetsOnly (ids : list string) (w w' : World) :
  assetsOnly root w w' ->
  sumOfCounts root ids w' = sumOfCounts root ids w.
Proof.
  intros Ha. unfold sumOfCounts. f_equal. apply map_ext. intros c.
  by rewrite (storedShapes_assetsOnly _ _ _ Ha).
Qed.

(** The loop over the categories, the folder of each being there or
    possible to create and the shape files holding arrays: it runs to
    its end, changes the assets only, counts the relocations, at most
    one for each record, and relocates when there is a preview to
    relocate. *)
Lemma repairCategories_more (categories todo : list string) :
  forall (repairedCount : nat) (w : World),
  (forall c, c ∈ todo ->
     isDir (join assetsDir c) w = true
     \/ fault w (OpMkdir (join assetsDir c)) = None) ->
  shapeFilesAreArrays root w ->
  exists n w',
    repairCategories root assetsDir categories todo repairedCount w
    = (Ok n, w')
    /\ assetsOnly root w w'
    /\ n + relocations w = repairedCount + relocations w'
    /\ repairedCount <= n <= repairedCount + sumOfCounts root todo w
    /\ (forall c found l s content,
          c ∈ todo -> found ∈ categories -> found <> c ->
          storedShapes root c w = ShapesArray l -> s ∈ l ->
          (forall c', c' ∈ todo -> ShapeInfo.preview s <> c') ->
          isFile (join assetsDir (ShapeInfo.preview s)) w
          || isDir (join assetsDir (ShapeInfo.preview s)) w = false ->
          files w !! join assetsDir
                       (found ++ "/" ++ ShapeInfo.id s ++ ".png")
          = Some content ->
          (forall src,
             fault w (OpRename src (join assetsDir (ShapeInfo.preview s)))
             = None) ->
          repairedCount < n).
Proof.
  induction todo as [|category rest IH]; intros repairedCount w Hmk Harr.
  { exists repairedCount, w. split; [done |].
    split; [apply assetsOnly_refl |]. split; [lia |].
    split; [lia |].
    intros c found l s content Hin. by apply elem_of_nil in Hin. }
  cbn [repairCategories]. unfold bind at 1.
  rewrite loadCategoryShapes_eq. cbv beta iota.
  destruct (Harr category) as [lc Hlc]. rewrite Hlc.
  destruct (ensure_folder category w (Hmk _ (list_elem_of_here _ _)))
    as (w1 & Hdir & Ha1 & Hfiles1 & Hr1 & Hdirs1 & Hmono1).
  rewrite Hdir. unfold bind at 1.
  destruct (repairShapes_spec category categories lc repairedCount w1)
    as (n2 & w2 & Hrun2 & Ha2 & Hr2).
  destruct (repairShapes_more category categories lc repairedCount w1)
    as (n2' & w2' & Hrun2' & Hd2 & Hsame2 & Hle2 & Hfind2).
  rewrite Hrun2 in Hrun2'. injection Hrun2' as <- <-. rewrite Hrun2.
  assert (assetsOnly root w w2) as Ha by (by eapply assetsOnly_trans).
  destruct (IH n2 w2) as (n & w' & -> & Ha' & Hr' & Hle' & Hfind').
  { intros c Hc. destruct Ha as (-> & _).
    destruct (Hmk c (list_elem_of_further _ _ _ Hc)) as [Hthere | Hf];
      [left | by right].
    apply Hmono1 in Hthere. unfold isDir in *. by rewrite Hd2. }
  { intros c. rewrite (storedShapes_assetsOnly _ _ _ Ha). apply Harr. }
  exists n, w'. split; [done |].
  split; [by eapply assetsOnly_trans |]. split; [lia |]. split.
  { rewrite (sumOfCounts_assetsOnly _ _ _ Ha) in Hle'.
    rewrite sumOfCounts_cons, Hlc. lia. }
  intros c found l s content Hin Hfound Hne Hl Hs Hfolders Hmiss Hfile Hren.
  destruct (orphan_transfer w w1 (join assetsDir (ShapeInfo.preview s))
              (join assetsDir (found ++ "/" ++ ShapeInfo.id s ++ ".png"))
              content) as (Hmiss1 & Hfile1 & Hren1); try done.
  { by destruct Ha1 as (? & _). }
  { apply Hdirs1. intros Heq. unfold join in Heq.
    do 2 apply append_inv_head in Heq.
    by apply (Hfolders category (list_elem_of_here _ _)). }
  apply elem_of_cons in Hin as [-> | Hin].
  - assert (l = lc) as -> by congruence.
    assert (repairedCount < n2); [|lia].
    by eapply Hfind2.
  - destruct (decide (n2 = repairedCount)) as [-> | Hne2]; [|lia].
    pose proof (Hsame2 eq_refl) as ->.
    eapply (Hfind' c found l s content); try done.
    + by rewrite (storedShapes_assetsOnly _ _ _ Ha1).
    + intros c' Hc'. apply Hfolders. by apply list_elem_of_further.
Qed.

(** The second half of [movePreviewToCategory]: the move itself. *)
Lemma movePreview_step (src dest : string) (result : string) (w : World) :
  exists w',
    (let* found := existsSync src in
     (if found then
        try_catch (renameSync src dest)
          (fun _ => try_catch (copyFileSync src dest) (fun _ => ret tt))
      else ret tt) ;;
     ret result) w
    = (Ok result, w')
    /\ forall c e,
         files w !! src = Some c ->
         fault w (OpRename src dest) = Some e ->
         files w' !! src = Some c
         /\ (fault w (OpCopy src dest) = None -> isDir dest w = false ->
             files w' !! dest = Some c).
Proof.
  unfold existsSync, renameSync, copyFileSync. unfold_monad. cbv beta.
  destruct (files w !! src) as [c|] eqn:Hsrc.
  - rewrite (isFile_Some _ _ _ Hsrc). cbn [orb].
    destruct (fault w (OpRename src dest)) eqn:Hr;
      destruct (fault w (OpCopy src dest)) eqn:Hc;
      destruct (isDir dest w) eqn:Hd;
      do 3 (cbn; rewrite ?Hr, ?Hc, ?Hsrc, ?Hd);
      (eexists; split; [reflexivity |]);
      intros c' e' [= <-] He'; try done; cbn;
      (split; [|intros; try done]).
    all: try done.
    all: try by rewrite lookup_insert_eq.
    destruct (decide (dest = src)) as [-> | Hne].
    + by rewrite lookup_insert_eq.
    + by rewrite lookup_insert_ne.
  - destruct (isFile src w || isDir src w);
      destruct (fault w (OpRename src dest)) eqn:Hr;
      destruct (fault w (OpCopy src dest)) eqn:Hc;
      do 3 (cbn; rewrite ?Hr, ?Hc, ?Hsrc);
      (eexists; split; [reflexivity |]); intros; done.
Qed.

(** C7. [movePreviewToCategory] returns [<newCategory>/<id>.png]
    whether or not a file was moved (the folder of the new category
    being there or possible to create); and when the rename is refused,
    the source file stays where it was, the copy that goes through
    giving the new location the same content. *)
Theorem movePreviewToCategory_returns_path (shape : ShapeInfo.t)
    (oldCategory newCategory : string) (w : World) :
  let oldPreviewPath :=
    join assetsDir (oldCategory ++ "/" ++ ShapeInfo.id shape ++ ".png") in
  let newCategoryDir := join assetsDir newCategory in
  let newPreviewPath :=
    join assetsDir (newCategory ++ "/" ++ ShapeInfo.id shape ++ ".png") in
  isFile newCategoryDir w || isDir newCategoryDir w = true
  \/ fault w (OpMkdir newCategoryDir) = None ->
  exists w',
    movePreviewToCategory root shape oldCategory newCategory w
    = (Ok (newCategory ++ "/" ++ ShapeInfo.id shape ++ ".png"), w')
    /\ forall c e,
         files w !! oldPreviewPath = Some c ->
         fault w (OpRename oldPreviewPath newPreviewPath) = Some e ->
         files w' !! oldPreviewPath = Some c
         /\ (fault w (OpCopy oldPreviewPath newPreviewPath) = None ->
             isDir newPreviewPath w = false ->
             files w' !! newPreviewPath = Some c).
Proof.
  intros oldPreviewPath newCategoryDir newPreviewPath Hdir.
  unfold movePreviewToCategory.
  destruct (ensure_directory newCategory w Hdir)
    as (w1 & -> & (Hfault & _) & Hfiles & _ & Hdirs).
  destruct (movePreview_step oldPreviewPath newPreviewPath
              (newCategory ++ "/" ++ ShapeInfo.id shape ++ ".png") w1)
    as (w' & Hrun & Hkeep).
  exists w'. split; [exact Hrun |].
  rewrite Hfiles, Hfault in Hkeep.
  rewrite (Hdirs newPreviewPath) in Hkeep
    by apply preview_not_its_folder.
  exact Hkeep.
Qed.

Lemma getCategoryIds_frame (w w1 : World) (ids : list string) :
  getCategoryIds root w = (Ok ids, w1) ->
  sameExcept (getCategoriesFilePath root) w w1
  /\ relocations w1 = relocations w.
Proof.
  unfold getCategoryIds. unfold_monad.
  pose proof (loadCategories_frame root w) as [Hs _].
  destruct (isFile (getCategoriesFilePath root) w
            || isDir (getCategoriesFilePath root) w) eqn:Hex.
  - rewrite loadCategories_present by done. by intros [= _ <-].
  - revert Hs. rewrite loadCategories_first_run by done. unfold_monad.
    destruct (canWrite (getCategoriesFilePath root) w) eqn:Hw.
    + rewrite saveCategories_ok by done. simpl. by intros Hs [= _ <-].
    + by destruct (saveCategories_refused root Defaults w Hw) as [e ->].
Qed.

Lemma marker_sameExcept (w w1 : World) :
  sameExcept (getCategoriesFilePath root) w w1 ->
  isFile (repairMarker root) w1 = isFile (repairMarker root) w
  /\ isDir (repairMarker root) w1 = isDir (repairMarker root) w
  /\ canWrite (repairMarker root) w1 = canWrite (repairMarker root) w.
Proof.
  intros Hs. split; [|split].
  - apply (isFile_sameExcept _ _ _ _ Hs), marker_not_categories.
  - apply (isDir_sameExcept _ _ _ _ Hs).
  - apply (canWrite_sameExcept _ _ _ _ Hs).
Qed.

Lemma marker_assetsOnly (w w' : World) :
  assetsOnly root w w' ->
  canWrite (repairMarker root) w' = canWrite (repairMarker root) w.
Proof.
  intros (Hf & _ & _ & Hp). unfold canWrite. rewrite Hf.
  destruct (Hp (repairMarker root)) as [_ ->]; [|done].
  intros rel Heq. symmetry in Heq. by apply asset_not_marker in Heq.
Qed.

Lemma validIdRegex_allSlug (s : string) :
  validIdRegex_test s = true -> allSlug s = true.
Proof. by destruct s. Qed.

Lemma slug_no_slash (a b : string) : allSlug (a ++ "/" ++ b) = false.
Proof.
  induction a as [|x a IH]; [reflexivity |].
  rewrite append_cons. cbn [allSlug]. rewrite IH. apply andb_false_r.
Qed.

(** The scan and the marker, from the state in which the list of
    categories was loaded. *)
Lemma repair_scan (ids : list string) (w : World) :
  (forall c, c ∈ ids ->
     isDir (join assetsDir c) w = true
     \/ fault w (OpMkdir (join assetsDir c)) = None) ->
  shapeFilesAreArrays root w ->
  exists n w2 w',
    repairCategories root assetsDir ids ids 0 w = (Ok n, w2)
    /\ (let* repairedCount := repairCategories root assetsDir ids ids 0 in
        try_catch
          (let* stamp := toISOString_now in
           writeFileSync (repairMarker root) (Raw stamp))
          (fun _ => ret tt) ;;
        ret repairedCount) w
       = (Ok n, w')
    /\ n + relocations w = relocations w'
    /\ n <= sumOfCounts root ids w
    /\ (forall p, p <> repairMarker root -> files w' !! p = files w2 !! p)
    /\ (canWrite (repairMarker root) w = true ->
        files w' !! repairMarker root = Some (Raw (now w)))
    /\ (forall c found l s content,
          c ∈ ids -> found ∈ ids -> found <> c ->
          storedShapes root c w = ShapesArray l -> s ∈ l ->
          (forall c', c' ∈ ids -> ShapeInfo.preview s <> c') ->
          isFile (join assetsDir (ShapeInfo.preview s)) w
          || isDir (join assetsDir (ShapeInfo.preview s)) w = false ->
          files w !! join assetsDir
                       (found ++ "/" ++ ShapeInfo.id s ++ ".png")
          = Some content ->
          (forall src,
             fault w (OpRename src (join assetsDir (ShapeInfo.preview s)))
             = None) ->
          1 <= n).
Proof.
  intros Hmk Harr.
  destruct (repairCategories_more ids ids 0 w Hmk Harr)
    as (n & w2 & Hscan & Ha & Hr & Hle & Hfind).
  assert (forall c found l s content,
            c ∈ ids -> found ∈ ids -> found <> c ->
            storedShapes root c w = ShapesArray l -> s ∈ l ->
            (forall c', c' ∈ ids -> ShapeInfo.preview s <> c') ->
            isFile (join assetsDir (ShapeInfo.preview s)) w
            || isDir (join assetsDir (ShapeInfo.preview s)) w = false ->
            files w !! join assetsDir
                         (found ++ "/" ++ ShapeInfo.id s ++ ".png")
            = Some content ->
            (forall src,
               fault w (OpRename src (join assetsDir (ShapeInfo.preview s)))
               = None) ->
            1 <= n) as Horphan.
  { intros c found l s content Hc Hfound Hne Hl Hs Hfolders Hmiss Hfile Hren.
    assert (0 < n); [|lia]. by eapply (Hfind c found l s content). }
  unfold bind at 1. rewrite Hscan.
  unfold toISOString_now. unfold_monad.
  destruct (canWrite (repairMarker root) w2) eqn:Hw2.
  - rewrite writeFileSync_ok by done.
    eexists n, w2, _. split; [done |]. split; [done |]. split.
    { rewrite relocations_commit. simpl. lia. }
    split; [lia |].
    split; [intros p Hp; simpl; by rewrite lookup_insert_ne |].
    split; [|exact Horphan].
    intros _. simpl. rewrite lookup_insert_eq.
    by destruct Ha as (_ & -> & _).
  - destruct (writeFileSync_refused _ (Raw (now w2)) _ Hw2) as [e ->].
    exists n, w2, w2. split; [done |]. split; [done |]. split; [lia |].
    split; [lia |]. split; [done |]. split; [|exact Horphan].
    rewrite <- (marker_assetsOnly _ _ Ha). congruence.
Qed.

(** [repairOrphanedPreviews] once the ids of the categories are
    there. *)
Lemma repairOrphanedPreviews_run (force : bool) (w w1 : World)
    (ids : list string) :
  getCategoryIds root w = (Ok ids, w1) ->
  repairOrphanedPreviews root force w
  = (if negb force
        && (isFile (repairMarker root) w || isDir (repairMarker root) w)
     then ret 0
     else
       let* repairedCount :=
         repairCategories root assetsDir ids ids 0 in
       try_catch
         (let* stamp := toISOString_now in
          writeFileSync (repairMarker root) (Raw stamp))
         (fun _ => ret tt) ;;
       ret repairedCount) w1.
Proof.
  intros Hids.
  destruct (getCategoryIds_frame _ _ _ Hids) as [Hs _].
  destruct (marker_sameExcept _ _ Hs) as (HmF & HmD & _).
  unfold repairOrphanedPreviews. unfold bind at 1. rewrite Hids.
  unfold existsSync at 1. unfold bind at 1. by rewrite HmF, HmD.
Qed.

(** The folders of the categories, in the state in which the ids were
    loaded. *)
Lemma folders_after_load (ids : list string) (w w1 : World) :
  sameExcept (getCategoriesFilePath root) w w1 ->
  (forall c, c ∈ ids ->
     isDir (join assetsDir c) w = true
     \/ fault w (OpMkdir (join assetsDir c)) = None) ->
  forall c, c ∈ ids ->
    isDir (join assetsDir c) w1 = true
    \/ fault w1 (OpMkdir (join assetsDir c)) = None.
Proof.
  intros Hs Hmk c Hc. rewrite (isDir_sameExcept _ _ _ _ Hs).
  destruct Hs as (-> & _). by apply Hmk.
Qed.

(** C6. With the marker there and [force] false, [repairOrphanedPreviews]
    returns 0 in the state in which it loaded the list of categories:
    nothing is scanned or moved.  In every other case (the folder of
    each category being there or possible to create, the shape files
    holding arrays) it runs the scan over the categories to its end
    and returns what the scan counted, which is the number of the
    relocations that went through, at most one for each record of the
    shape files; after the scan it changes no file
    but the marker, which it leaves holding the current time stamp
    (the marker being writable).  And the scan does relocate: when the
    preview of a record is missing where the record has it, while a
    file of its id lies in the folder of another category and the
    rename to the place of the preview is not refused, at least one
    relocation is counted (ids of categories as [addCategory] admits
    them, the record filed as [<category>/<id>.png] under an id
    without separator). *)
Theorem repairOrphanedPreviews_spec (force : bool) (w w1 : World)
    (ids : list string) :
  getCategoryIds root w = (Ok ids, w1) ->
  let marked := isFile (repairMarker root) w || isDir (repairMarker root) w in
  (negb force && marked = true ->
   repairOrphanedPreviews root force w = (Ok 0, w1)
   /\ relocations w1 = relocations w
   /\ forall q, q <> getCategoriesFilePath root ->
        files w1 !! q = files w !! q)
  /\ (negb force && marked = false ->
      (forall c, c ∈ ids ->
         isDir (join assetsDir c) w = true
         \/ fault w (OpMkdir (join assetsDir c)) = None) ->
      shapeFilesAreArrays root w ->
      exists n w2 w',
        repairCategories root assetsDir ids ids 0 w1 = (Ok n, w2)
        /\ repairOrphanedPreviews root force w = (Ok n, w')
        /\ n + relocations w = relocations w'
        /\ n <= sumOfCounts root ids w
        /\ (forall p, p <> repairMarker root ->
              files w' !! p = files w2 !! p)
        /\ (canWrite (repairMarker root) w = true ->
            files w' !! repairMarker root = Some (Raw (now w)))
        /\ (forall c found l s content,
              c ∈ ids -> found ∈ ids -> found <> c ->
              (forall c', c' ∈ ids -> validIdRegex_test c' = true) ->
              storedShapes root c w = ShapesArray l -> s ∈ l ->
              hasSeparator (ShapeInfo.id s) = false ->
              ShapeInfo.preview s = c ++ "/" ++ ShapeInfo.id s ++ ".png" ->
              isFile (join assetsDir (ShapeInfo.preview s)) w
              || isDir (join assetsDir (ShapeInfo.preview s)) w = false ->
              files w !! join assetsDir
                           (found ++ "/" ++ ShapeInfo.id s ++ ".png")
              = Some content ->
              (forall src,
                 fault w (OpRename src
                            (join assetsDir (ShapeInfo.preview s)))
                 = None) ->
              1 <= n)).
Proof.
  intros Hids marked. subst marked.
  destruct (getCategoryIds_frame _ _ _ Hids) as [Hs Hr].
  destruct (marker_sameExcept _ _ Hs) as (HmF & HmD & HmW).
  rewrite (repairOrphanedPreviews_run force w w1 ids Hids).
  split; intros Hskip; rewrite Hskip.
  - split; [done |]. split; [done |]. by destruct Hs as (_ & _ & _ & ?).
  - intros Hmk Harr.
    destruct (repair_scan ids w1)
      as (n & w2 & w' & Hscan & -> & Hn & Hmost & Hrest & Hmarker & Horphan).
    + by apply (folders_after_load ids w).
    + intros c. rewrite (storedShapes_frame root _ _ _ Hs). apply Harr.
    + exists n, w2, w'. split; [exact Hscan |]. split; [done |].
      split; [lia |]. split.
      { unfold sumOfCounts in *. erewrite map_ext; [exact Hmost |].
        intros c. cbv beta. by rewrite (storedShapes_frame root _ _ _ Hs). }
      split; [exact Hrest |]. split.
      { rewrite HmW in Hmarker. destruct Hs as (_ & <- & _).
        exact Hmarker. }
      intros c found l s content Hc Hfound Hne Hslugs Hl Hs' Hsep Hprev
        Hmiss Hfile Hren.
      assert (forall rel, join assetsDir rel <> getCategoriesFilePath root)
        as Hasset by apply asset_not_categories.
      apply (Horphan c found l s content); try done.
      * by rewrite (storedShapes_frame root _ _ _ Hs).
      * intros c' Hc' Heq. apply Hslugs, validIdRegex_allSlug in Hc'.
        by rewrite <- Heq, Hprev, slug_no_slash in Hc'.
      * rewrite (isFile_sameExcept _ _ _ _ Hs) by apply Hasset.
        by rewrite (isDir_sameExcept _ _ _ _ Hs).
      * destruct Hs as (_ & _ & _ & Hfiles).
        rewrite Hfiles by apply Hasset. exact Hfile.
      * intros src. destruct Hs as (-> & _). apply Hren.
Qed.

(** [getCategoryIds] on a first run that cannot write. *)
Lemma getCategoryIds_refused (w : World) :
  isFile (getCategoriesFilePath root) w
  || isDir (getCategoriesFilePath root) w = false ->
  canWrite (getCategoriesFilePath root) w = false ->
  exists e,
    getCategoryIds root w
    = (Throw ("Failed to save categories: " ++ e), w).
Proof.
  intros Hex Hw. unfold getCategoryIds. unfold bind at 1.
  rewrite loadCategories_first_run by done.
  unfold saveCategories. unfold_monad.
  destruct (writeFileSync_refused _
              (JSON_stringify
                 (CategoriesObject (Some (elementsOf Defaults w)))) _ Hw)
    as [e ->].
  by exists e.
Qed.

(** C5, as the code has it.  Whatever the environment refuses among
    reads, renames, copies and the write of the marker, the two
    operations return: [movePreviewToCategory] once the folder of the
    new category is there or can be created, [repairOrphanedPreviews]
    once the ids of the categories are loaded, the folder of each
    category is there or can be created and the shape files hold
    arrays of shape records, each with its preview path.  When
    [categories.json] is missing and cannot be written,
    [repairOrphanedPreviews] raises the error of the category store,
    and changes nothing. *)
Theorem preview_operations_return :
  (forall (shape : ShapeInfo.t) (oldCategory newCategory : string)
          (w : World),
     isFile (join assetsDir newCategory) w
     || isDir (join assetsDir newCategory) w = true
     \/ fault w (OpMkdir (join assetsDir newCategory)) = None ->
     exists path w',
       movePreviewToCategory root shape oldCategory newCategory w
       = (Ok path, w'))
  /\ (forall (force : bool) (w w1 : World) (ids : list string),
        getCategoryIds root w = (Ok ids, w1) ->
        (forall c, c ∈ ids ->
           isDir (join assetsDir c) w = true
           \/ fault w (OpMkdir (join assetsDir c)) = None) ->
        shapeFilesAreArrays root w ->
        exists n w', repairOrphanedPreviews root force w = (Ok n, w'))
  /\ (forall (force : bool) (w : World),
        isFile (getCategoriesFilePath root) w
        || isDir (getCategoriesFilePath root) w = false ->
        canWrite (getCategoriesFilePath root) w = false ->
        exists e,
          repairOrphanedPreviews root force w
          = (Throw ("Failed to save categories: " ++ e), w)).
Proof.
  split; [|split].
  - intros shape oldCategory newCategory w Hdir.
    unfold movePreviewToCategory.
    destruct (ensure_directory newCategory w Hdir) as (w1 & -> & _).
    destruct (movePreview_step
                (join assetsDir
                   (oldCategory ++ "/" ++ ShapeInfo.id shape ++ ".png"))
                (join assetsDir
                   (newCategory ++ "/" ++ ShapeInfo.id shape ++ ".png"))
                (newCategory ++ "/" ++ ShapeInfo.id shape ++ ".png") w1)
      as (w' & Hrun & _).
    eauto.
  - intros force w w1 ids Hids Hmk Harr.
    destruct (getCategoryIds_frame _ _ _ Hids) as [Hs _].
    rewrite (repairOrphanedPreviews_run force w w1 ids Hids).
    destruct (negb force && _); [by eexists _, _ |].
    destruct (repair_scan ids w1) as (n & w2 & w' & _ & -> & _).
    + by apply (folders_after_load ids w).
    + intros c. rewrite (storedShapes_frame root _ _ _ Hs). apply Harr.
    + eauto.
  - intros force w Hex Hw.
    destruct (getCategoryIds_refused w Hex Hw) as [e He].
    exists e. unfold repairOrphanedPreviews. unfold bind at 1.
    by rewrite He.
Qed.

End PreviewAssets.

(** * Further properties of the library *)

(** ** The category store: what the next load sees *)

Lemma find_alter_first {A} (p : A -> bool) (g : A -> A) (l : list A)
    (i : nat) :
  (forall x, p (g x) = p x) ->
  findIndex p l = Some i ->
  findIndex p (alter g i l) = Some i
  /\ List.find p (alter g i l) = g <$> l !! i.
Proof.
  intros Hg. revert i. induction l as [|y l IH]; intros i; simpl; [done |].
  destruct (p y) eqn:Hy.
  - intros [= <-]. simpl. by rewrite Hg, Hy.
  - destruct (findIndex p l) as [j|] eqn:Hj; simpl; [|done].
    intros [= <-]. simpl. rewrite Hy.
    destruct (IH j eq_refl) as [H1 H2].
    change (list_alter g j l) with (alter g j l). by rewrite H1, H2.
Qed.

Lemma existsb_splice_first {A B} `{EqDecision B} (f : A -> B) (b : B)
    (l : list A) (i : nat) :
  NoDup (map f l) ->
  findIndex (fun x => bool_decide (f x = b)) l = Some i ->
  existsb (fun x => bool_decide (f x = b)) (splice i l) = false
  /\ List.find (fun x => bool_decide (f x = b)) (splice i l) = None.
Proof.
  revert i. induction l as [|y l IH]; intros i; simpl; [done |].
  rewrite NoDup_cons. intros [Hy Hl].
  destruct (bool_decide (f y = b)) eqn:Hb.
  - intros [= <-]. unfold splice. simpl. rewrite drop_0.
    apply bool_decide_eq_true in Hb. subst b.
    assert (forall x, x ∈ l -> bool_decide (f x = f y) = false) as Hall.
    { intros x Hx. apply bool_decide_eq_false. intros Heq. apply Hy.
      rewrite <- Heq. by apply list_elem_of_fmap_2. }
    clear -Hall. induction l as [|z l IH]; simpl; [done |].
    rewrite Hall by apply list_elem_of_here. simpl.
    apply IH. intros x Hx. apply Hall. by apply list_elem_of_further.
  - destruct (findIndex _ l) as [j|] eqn:Hj; simpl; [|done].
    intros [= <-]. unfold splice in *. simpl. rewrite Hb. simpl.
    by apply IH.
Qed.

Section Reload.
Variable root : string.

Local Notation "'categoriesPath'" := (getCategoriesFilePath root).

(** A list that was loaded, changed in place and saved is the list the
    next [loadCategories] returns, from the file or, when the file
    cannot be read, from the default array that was changed. *)
Lemma reload_after_save
    (f : list CategoryConfig.t -> list CategoryConfig.t)
    (r r' : categoriesRef) (w w1 w2 w3 : World) :
  loadCategories root w = (Ok r, w1) ->
  mutate f r w1 = (Ok r', w2) ->
  saveCategories root r' w2 = (Ok tt, w3) ->
  storedCategories root w3 = (Ok (f (elementsOf r w1)), w3)
  /\ sameExcept categoriesPath w w3
  /\ isFile categoriesPath w3 = true.
Proof.
  intros Hl Hm Hsave.
  pose proof (loadCategories_frame root w) as [Hs1 _]. rewrite Hl in Hs1.
  simpl in Hs1.
  destruct (mutate_frame root f r w1) as (r0 & w0 & Hm' & Hs2 & _ & _ & Hel).
  rewrite Hm in Hm'. injection Hm' as <- <-.
  destruct (canWrite categoriesPath w2) eqn:Hw.
  2:{ destruct (saveCategories_refused root r' w2 Hw) as [e He].
      by rewrite He in Hsave. }
  rewrite saveCategories_ok in Hsave by done. injection Hsave as <-.
  assert (files (commit (OpWrite categoriesPath)
                   (<[categoriesPath
                      := Json (CategoriesObject (Some (elementsOf r' w2)))]>
                      (files w2)) (dirs w2) w2) !! categoriesPath
          = Some (Json (CategoriesObject (Some (elementsOf r' w2))))) as Hfile
    by (simpl; apply lookup_insert_eq).
  split; [|split].
  - unfold storedCategories. unfold_monad.
    rewrite loadCategories_present by (by rewrite (isFile_Some _ _ _ Hfile)).
    f_equal. f_equal. unfold parsedCategories. rewrite Hfile.
    cbn [fault commit].
    destruct Hs2 as (-> & _). destruct Hs1 as (-> & _).
    destruct r as [l|]; simpl in Hm; injection Hm as <- <-; simpl.
    + by rewrite (loadCategories_Parsed _ _ _ _ Hl).
    + by destruct (fault w _).
  - eapply sameExcept_trans; [exact Hs1 |].
    eapply sameExcept_trans; [exact Hs2 | apply sameExcept_write].
  - by rewrite (isFile_Some _ _ _ Hfile).
Qed.

(** X1. [renameCategory] throws the not-found error for an id that is
    not in the store; otherwise it succeeds (the file being writable),
    and the next load returns the list with the name of the first entry
    of that id replaced: same ids in the same order, every other entry
    as it was. *)
Theorem renameCategory_spec (categoryId newName : string) (w w1 : World)
    (cs : list CategoryConfig.t) :
  storedCategories root w = (Ok cs, w1) ->
  canWrite categoriesPath w = true ->
  match findIndex (hasId categoryId) cs with
  | None =>
      renameCategory root categoryId newName w
      = (Throw (categoryNotFound categoryId), w1)
  | Some index =>
      exists w' cs',
        renameCategory root categoryId newName w = (Ok tt, w')
        /\ storedCategories root w' = (Ok cs', w')
        /\ map CategoryConfig.id cs' = map CategoryConfig.id cs
        /\ CategoryConfig.name <$> cs' !! index = Some newName
        /\ forall j, j <> index -> cs' !! j = cs !! j
  end.
Proof.
  intros (r & Hl & ->)%storedCategories_inv Hw.
  unfold renameCategory. unfold_monad. rewrite Hl.
  destruct (findIndex _ _) as [index|] eqn:Hi; [|done].
  destruct (mutate_frame root (alter (setName newName) index) r w1)
    as (r' & w2 & Hm & Hs2 & _).
  rewrite Hm.
  pose proof (loadCategories_frame root w) as [Hs1 _]. rewrite Hl in Hs1.
  simpl in Hs1.
  assert (canWrite categoriesPath w2 = true) as Hw2
    by (by rewrite (canWrite_sameExcept _ _ _ _ Hs2),
                   (canWrite_sameExcept _ _ _ _ Hs1)).
  pose proof (saveCategories_ok root r' w2 Hw2) as Hsave.
  destruct (reload_after_save _ _ _ _ _ _ _ Hl Hm Hsave) as (Hre & _).
  rewrite Hsave. eexists _, _. split; [done |]. split; [exact Hre |].
  apply findIndex_Some in Hi as (c & Hc & _).
  split; [|split].
  - change (CategoryConfig.id <$> alter (setName newName) index
                                    (elementsOf r w1)
            = CategoryConfig.id <$> elementsOf r w1).
    rewrite (list_fmap_alter CategoryConfig.id (setName newName)
               (fun x => x)) by (by apply Forall_forall).
    by apply list_alter_id.
  - by rewrite list_lookup_alter_eq, Hc.
  - intros j Hj. by apply list_lookup_alter_ne.
Qed.

End Reload.

Section CategoryStoreMore.
Variable root : string.

Local Notation "'categoriesPath'" := (getCategoriesFilePath root).

(** X2. After a successful [renameCategory], [getCategoryDisplayName]
    of the id is the new name; renamed to the empty string, the
    category shows under its id. *)
Theorem renameCategory_then_display_name (categoryId newName : string)
    (w w' : World) :
  renameCategory root categoryId newName w = (Ok tt, w') ->
  getCategoryDisplayName root categoryId w'
  = (Ok match newName with
        | EmptyString => categoryId
        | String _ _ => newName
        end, w').
Proof.
  unfold renameCategory. unfold_monad.
  destruct (loadCategories root w) as [[r|e] w1] eqn:Hl; [|done].
  destruct (findIndex _ _) as [index|] eqn:Hi; [|done].
  destruct (mutate (alter (setName newName) index) r w1)
    as [[r'|e] w2] eqn:Hm; [|by destruct r].
  intros Hsave.
  destruct (reload_after_save root _ _ _ _ _ _ _ Hl Hm Hsave)
    as (Hre & _).
  apply storedCategories_inv in Hre as (r3 & Hl3 & Hel3).
  unfold getCategoryDisplayName. unfold_monad. rewrite Hl3, <- Hel3.
  destruct (find_alter_first (hasId categoryId) (setName newName)
              (elementsOf r w1) index) as [_ ->]; [done | done |].
  apply findIndex_Some in Hi as (c & -> & _). simpl.
  by destruct newName.
Qed.

(** X3. After a successful [deleteCategory] the next load returns the
    list without the first entry of that id; among distinct ids,
    [categoryExists] then answers false and [getCategoryById] finds
    nothing. *)
Theorem deleteCategory_then_gone (categoryId : string) (w w1 w' : World)
    (cs : list CategoryConfig.t) :
  storedCategories root w = (Ok cs, w1) ->
  deleteCategory root categoryId w = (Ok true, w') ->
  exists index,
    findIndex (hasId categoryId) cs = Some index
    /\ storedCategories root w' = (Ok (splice index cs), w')
    /\ (NoDup (map CategoryConfig.id cs) ->
        categoryExists root categoryId w' = (Ok false, w')
        /\ getCategoryById root categoryId w' = (Ok None, w')).
Proof.
  intros (r & Hl & ->)%storedCategories_inv.
  rewrite (deleteCategory_run _ _ _ _ _ Hl).
  destruct (findIndex _ _) as [index|] eqn:Hi; [|done].
  unfold_monad. rewrite getShapeCountInCategory_eq.
  destruct (0 <? _)%nat; [done |].
  destruct (mutate (splice index) r w1) as [[r'|e] w2] eqn:Hm;
    [|by destruct r].
  destruct (saveCategories root r' w2) as [[[]|e] w3] eqn:Hsave; [|done].
  intros [= <-].
  destruct (reload_after_save root _ _ _ _ _ _ _ Hl Hm Hsave) as (Hre & _).
  exists index. split; [done |]. split; [exact Hre |].
  intros Hnd.
  destruct (existsb_splice_first CategoryConfig.id categoryId _ _ Hnd Hi)
    as [Hex Hfind].
  apply storedCategories_inv in Hre as (r3 & Hl3 & Hel3).
  unfold categoryExists, getCategoryById. unfold_monad.
  rewrite Hl3, <- Hel3. unfold hasId. by rewrite Hex, Hfind.
Qed.

(** X4. [addCategory] is not atomic: when the shape file of the new
    category cannot be created, it throws the error of [writeFileSync]
    after the category was saved; the category is in the store, and
    adding it again fails as a duplicate. *)
Theorem addCategory_half_done (id name e : string) (w w1 : World)
    (cs : list CategoryConfig.t) :
  storedCategories root w = (Ok cs, w1) ->
  validIdRegex_test id = true ->
  existsb (hasId id) cs = false ->
  canWrite categoriesPath w = true ->
  isFile (getCategoryFilePath root id) w
  || isDir (getCategoryFilePath root id) w = false ->
  fault w (OpWrite (getCategoryFilePath root id)) = Some e ->
  exists w',
    addCategory root id name w = (Throw e, w')
    /\ storedCategories root w'
       = (Ok (cs ++ [CategoryConfig.mk id name])%list, w')
    /\ addCategory root id name w'
       = (Throw ("Category with ID " ++ quoted id ++ " already exists"), w').
Proof.
  intros (r & Hl & ->)%storedCategories_inv Hv Hnew Hw Habsent He.
  rewrite (addCategory_run _ _ _ _ _ _ Hv Hl), Hnew.
  destruct (mutate_frame root
              (fun l => (l ++ [CategoryConfig.mk id name])%list) r w1)
    as (r' & w2 & Hm & Hs2 & _).
  pose proof (loadCategories_frame root w) as [Hs1 _]. rewrite Hl in Hs1.
  simpl in Hs1.
  assert (canWrite categoriesPath w2 = true) as Hw2
    by (by rewrite (canWrite_sameExcept _ _ _ _ Hs2),
                   (canWrite_sameExcept _ _ _ _ Hs1)).
  pose proof (saveCategories_ok root r' w2 Hw2) as Hsave.
  destruct (reload_after_save root _ _ _ _ _ _ _ Hl Hm Hsave)
    as (Hre & Hs3 & _).
  unfold_monad. rewrite Hm, Hsave.
  set (w3 := commit _ _ _ w2) in *.
  pose proof (categories_not_shape_file root id) as Hne.
  unfold existsSync.
  rewrite (isFile_sameExcept _ _ _ _ Hs3 Hne), (isDir_sameExcept _ _ _ _ Hs3),
    Habsent.
  simpl. unfold writeFileSync. destruct Hs3 as (-> & _). rewrite He.
  exists w3. split; [done |]. split; [exact Hre |].
  apply storedCategories_inv in Hre as (r3 & Hl3 & Hel3).
  rewrite (addCategory_run _ _ _ _ _ _ Hv Hl3), <- Hel3.
  rewrite existsb_app. simpl. unfold hasId at 2. simpl.
  rewrite bool_decide_eq_true_2 by done. by rewrite orb_true_r.
Qed.

(** X5. On a first run (no [categories.json], the folder writable)
    [loadCategories] writes the default list and returns it; the next
    call returns the same list and writes nothing. *)
Theorem loadCategories_first_run_once (w : World) :
  isFile categoriesPath w || isDir categoriesPath w = false ->
  canWrite categoriesPath w = true ->
  exists w',
    storedCategories root w = (Ok (DEFAULT_CATEGORIES w), w')
    /\ files w' !! categoriesPath
       = Some (Json (CategoriesObject (Some (DEFAULT_CATEGORIES w))))
    /\ journal w' = OpWrite categoriesPath :: journal w
    /\ storedCategories root w' = (Ok (DEFAULT_CATEGORIES w), w').
Proof.
  intros Habsent Hw. unfold storedCategories. unfold_monad.
  rewrite loadCategories_first_run by done. unfold_monad.
  rewrite saveCategories_ok by done.
  eexists. split; [done |].
  split; [simpl; apply lookup_insert_eq |]. split; [done |].
  rewrite loadCategories_present.
  2:{ erewrite isFile_Some; [done |]. simpl. apply lookup_insert_eq. }
  f_equal. f_equal. unfold parsedCategories. simpl.
  rewrite lookup_insert_eq. by destruct (fault w _).
Qed.

End CategoryStoreMore.

(** ** Generated ids *)

Lemma slugChar_split (c : ascii) : slugChar c = alnumChar c || dashChar c.
Proof. reflexivity. Qed.

Lemma alnum_not_dash (c : ascii) : alnumChar c = true -> dashChar c = false.
Proof.
  unfold alnumChar, dashChar. cbv zeta.
  destruct (Nat.eqb_spec (nat_of_ascii c) 45) as [-> |]; [|done].
  by vm_compute.
Qed.

Lemma dashChar_eq (c : ascii) : dashChar c = true -> c = "-"%char.
Proof.
  unfold dashChar. intros H%Nat.eqb_eq.
  rewrite <- (ascii_nat_embedding c), H. reflexivity.
Qed.

Lemma hasDoubleDash_cons (c : ascii) (s : string) :
  hasDoubleDash (String c s)
  = (dashChar c && startsWithDash s) || hasDoubleDash s.
Proof. destruct s; simpl; [by rewrite andb_false_r | done]. Qed.

Lemma endsWithDash_cons (c : ascii) (s : string) :
  endsWithDash (String c s)
  = match s with
    | EmptyString => dashChar c
    | String _ _ => endsWithDash s
    end.
Proof. by destruct s. Qed.

Lemma replaceRuns_slug (s : string) :
  forall inRun,
    allSlug (replaceRuns inRun s) = true
    /\ hasDoubleDash (replaceRuns inRun s) = false
    /\ (inRun = true -> startsWithDash (replaceRuns inRun s) = false).
Proof.
  induction s as [|c r IH]; intros inRun; [done |].
  cbn [replaceRuns].
  destruct (alnumChar c) eqn:Hc.
  - destruct (IH false) as (Hs & Hd & _).
    rewrite hasDoubleDash_cons. cbn [allSlug startsWithDash].
    rewrite slugChar_split, Hc, Hs, Hd, (alnum_not_dash _ Hc). done.
  - destruct (IH true) as (Hs & Hd & Hst). specialize (Hst eq_refl).
    destruct inRun; [done |].
    rewrite hasDoubleDash_cons. cbn [allSlug]. rewrite Hs, Hd, Hst.
    split; [done |]. split; [done |]. done.
Qed.

Lemma dropLeadingDashes_slug (s : string) :
  allSlug s = true -> hasDoubleDash s = false ->
  allSlug (dropLeadingDashes s) = true
  /\ hasDoubleDash (dropLeadingDashes s) = false
  /\ startsWithDash (dropLeadingDashes s) = false.
Proof.
  induction s as [|c r IH]; [done |].
  rewrite hasDoubleDash_cons. cbn [allSlug dropLeadingDashes].
  intros [Hc Hr]%andb_true_iff [Hcd Hd]%orb_false_iff.
  destruct (dashChar c) eqn:Hdash; [by apply IH |].
  cbn [allSlug startsWithDash]. rewrite hasDoubleDash_cons, Hc, Hr, Hdash, Hd.
  done.
Qed.

Lemma dropTrailingDashes_head (s : string) :
  startsWithDash (dropTrailingDashes s) = true -> startsWithDash s = true.
Proof.
  destruct s as [|c r]; [done |]. cbn [dropTrailingDashes].
  destruct (dropTrailingDashes r); [|done].
  by destruct (dashChar c) eqn:Hc.
Qed.

Lemma dropTrailingDashes_slug (s : string) :
  allSlug s = true -> hasDoubleDash s = false ->
  allSlug (dropTrailingDashes s) = true
  /\ hasDoubleDash (dropTrailingDashes s) = false
  /\ endsWithDash (dropTrailingDashes s) = false.
Proof.
  induction s as [|c r IH]; [done |].
  rewrite hasDoubleDash_cons. cbn [allSlug dropTrailingDashes].
  intros [Hc Hr]%andb_true_iff [Hcd Hd]%orb_false_iff.
  destruct (IH Hr Hd) as (Hs' & Hd' & He').
  pose proof (dropTrailingDashes_head r) as Hhead.
  destruct (dropTrailingDashes r) as [|c' r'] eqn:Hdrop.
  - destruct (dashChar c) eqn:Hdash; [done |]. simpl. by rewrite Hc, Hdash.
  - rewrite hasDoubleDash_cons, endsWithDash_cons. cbn [allSlug].
    rewrite Hc, Hd', He'. cbn [allSlug] in Hs'. rewrite Hs'.
    split; [done |]. split; [|done].
    destruct (dashChar c); [|done]. simpl in Hcd.
    destruct (startsWithDash (String c' r')) eqn:Hst; [|done].
    by rewrite Hhead in Hcd.
Qed.

Lemma generateCategoryId_slug_parts (toLowerCase : string -> string)
    (displayName : string) :
  allSlug (generateCategoryId toLowerCase displayName) = true
  /\ startsWithDash (generateCategoryId toLowerCase displayName) = false
  /\ endsWithDash (generateCategoryId toLowerCase displayName) = false
  /\ hasDoubleDash (generateCategoryId toLowerCase displayName) = false.
Proof.
  unfold generateCategoryId.
  destruct (replaceRuns_slug (toLowerCase displayName) false)
    as (H1 & H2 & _).
  destruct (dropLeadingDashes_slug _ H1 H2) as (H3 & H4 & H5).
  destruct (dropTrailingDashes_slug _ H3 H4) as (H6 & H7 & H8).
  split; [done |]. split; [|by split].
  destruct (startsWithDash (dropTrailingDashes _)) eqn:Hst; [|done].
  apply dropTrailingDashes_head in Hst. congruence.
Qed.

(** X6. Whatever the display name, [generateCategoryId] returns the
    empty string or an id that [addCategory]'s pattern accepts, with no
    dash at either end and no two dashes in a row. *)
Theorem generateCategoryId_is_slug (toLowerCase : string -> string)
    (displayName : string) :
  let id := generateCategoryId toLowerCase displayName in
  (id = EmptyString \/ validIdRegex_test id = true)
  /\ startsWithDash id = false
  /\ endsWithDash id = false
  /\ hasDoubleDash id = false.
Proof.
  destruct (generateCategoryId_slug_parts toLowerCase displayName)
    as (Hs & Hst & He & Hd).
  cbv zeta. split; [|by repeat split].
  unfold validIdRegex_test.
  destruct (generateCategoryId toLowerCase displayName); auto.
Qed.

Lemma replaceRuns_fixed (s : string) :
  forall inRun,
    allSlug s = true -> hasDoubleDash s = false ->
    (inRun = true -> startsWithDash s = false) ->
    replaceRuns inRun s = s.
Proof.
  induction s as [|c r IH]; intros inRun; [done |].
  rewrite hasDoubleDash_cons. cbn [allSlug replaceRuns startsWithDash].
  intros [Hc Hr]%andb_true_iff [Hcd Hd]%orb_false_iff Hrun.
  rewrite slugChar_split in Hc.
  destruct (alnumChar c) eqn:Ha.
  - f_equal. by apply IH.
  - simpl in Hc. rewrite Hc in Hcd. simpl in Hcd.
    destruct inRun; [by rewrite Hrun in Hc |].
    rewrite (dashChar_eq _ Hc). f_equal. by apply IH.
Qed.

Lemma dropLeadingDashes_fixed (s : string) :
  startsWithDash s = false -> dropLeadingDashes s = s.
Proof. destruct s as [|c r]; [done |]. simpl. by intros ->. Qed.

Lemma dropTrailingDashes_fixed (s : string) :
  endsWithDash s = false -> dropTrailingDashes s = s.
Proof.
  induction s as [|c r IH]; [done |].
  rewrite endsWithDash_cons. cbn [dropTrailingDashes].
  destruct r as [|c' r']; [by intros -> |].
  intros H. by rewrite (IH H).
Qed.

(** X7. An id in that shape is its own generated id, and generating
    twice gives what generating once gives ([toLowerCase] leaving
    lower-case ids as they are). *)
Theorem generateCategoryId_idempotent (toLowerCase : string -> string) :
  (forall s, allSlug s = true -> toLowerCase s = s) ->
  (forall id,
     allSlug id = true -> startsWithDash id = false ->
     endsWithDash id = false -> hasDoubleDash id = false ->
     generateCategoryId toLowerCase id = id)
  /\ (forall displayName,
        generateCategoryId toLowerCase
          (generateCategoryId toLowerCase displayName)
        = generateCategoryId toLowerCase displayName).
Proof.
  intros Hlower.
  assert (forall id,
            allSlug id = true -> startsWithDash id = false ->
            endsWithDash id = false -> hasDoubleDash id = false ->
            generateCategoryId toLowerCase id = id) as Hfixed.
  { intros id Hs Hst He Hd. unfold generateCategoryId.
    rewrite (Hlower _ Hs), replaceRuns_fixed, dropLeadingDashes_fixed,
      dropTrailingDashes_fixed; done. }
  split; [exact Hfixed |]. intros displayName.
  destruct (generateCategoryId_slug_parts toLowerCase displayName)
    as (Hs & Hst & He & Hd).
  by apply Hfixed.
Qed.

(** ** Counting the shapes *)

Lemma plus_swap (acc x y : option nat) :
  plus (plus acc x) y = plus (plus acc y) x.
Proof. destruct acc, x, y; simpl; f_equal; lia. Qed.

Lemma total_perm (vs vs' : list (option nat)) :
  vs ≡ₚ vs' -> forall acc, foldl plus acc vs = foldl plus acc vs'.
Proof.
  induction 1 as [|x l l' _ IH|x y l|l1 l2 l3 _ IH1 _ IH2]; intros acc;
    simpl.
  - done.
  - apply IH.
  - by rewrite plus_swap.
  - by rewrite IH1, IH2.
Qed.

Lemma total_Some (ns : list nat) (a : nat) :
  foldl plus (Some a) (Some <$> ns) = Some (a + sum_list ns).
Proof.
  revert a. induction ns as [|n ns IH]; intros a; simpl.
  - f_equal. lia.
  - rewrite IH. f_equal. lia.
Qed.

Lemma total_None (vs : list (option nat)) : foldl plus None vs = None.
Proof. induction vs as [|v vs IH]; [done | exact IH]. Qed.

Lemma total_undefined (vs : list (option nat)) (acc : option nat) :
  None ∈ vs -> foldl plus acc vs = None.
Proof.
  revert acc. induction vs as [|v vs IH]; intros acc Hin;
    [by apply elem_of_nil in Hin |].
  apply elem_of_cons in Hin as [<- | Hin]; simpl.
  - destruct acc; apply total_None.
  - by apply IH.
Qed.

Section ShapeCounts.
Variable root : string.

(** The object [getShapeCounts] builds over the ids. *)
Lemma countCategories_eq (ids : list string) :
  forall (counts : gmap string (option nat)) (w : World),
  countCategories root ids counts w
  = (Ok (foldl (fun m c => <[c := lengthOf (storedShapes root c w)]> m)
           counts ids), w).
Proof.
  induction ids as [|c ids IH]; intros counts w; [done |].
  cbn [countCategories]. unfold bind at 1.
  rewrite loadCategoryShapes_eq. by rewrite IH.
Qed.

Lemma counted_lookup (v : string -> option nat) (ids : list string) :
  forall (counts : gmap string (option nat)) (k : string),
  foldl (fun m c => <[c := v c]> m) counts ids !! k
  = if bool_decide (k ∈ ids) then Some (v k) else counts !! k.
Proof.
  induction ids as [|c ids IH]; intros counts k; simpl; [done |].
  rewrite IH. destruct (decide (k ∈ ids)) as [Hin | Hnin].
  - rewrite !bool_decide_eq_true_2; [done | by right | done].
  - rewrite (bool_decide_eq_false_2 (k ∈ ids)) by done.
    destruct (decide (k = c)) as [-> | Hne].
    + rewrite lookup_insert_eq. rewrite bool_decide_eq_true_2; [done | by left].
    + rewrite lookup_insert_ne by done.
      rewrite bool_decide_eq_false_2; [done |].
      by intros [? | ?]%elem_of_cons.
Qed.

Lemma counted_as_list (v : string -> option nat) (ids : list string) :
  foldl (fun m c => <[c := v c]> m) (∅ : gmap string (option nat)) ids
  = list_to_map ((fun c => (c, v c)) <$> remove_dups ids).
Proof.
  apply map_eq. intros k. rewrite counted_lookup, lookup_empty.
  destruct (decide (k ∈ ids)) as [Hin | Hnin].
  - rewrite bool_decide_eq_true_2 by done. symmetry.
    apply elem_of_list_to_map_1.
    + rewrite <- list_fmap_compose. simpl.
      rewrite list_fmap_id. apply NoDup_remove_dups.
    + apply list_elem_of_fmap. exists k. split; [done |].
      by apply elem_of_remove_dups.
  - rewrite bool_decide_eq_false_2 by done. symmetry.
    apply not_elem_of_list_to_map_1.
    rewrite <- list_fmap_compose. simpl. rewrite list_fmap_id.
    by rewrite elem_of_remove_dups.
Qed.

Lemma counted_values (v : string -> option nat) (ids : list string) :
  (map_to_list
     (foldl (fun m c => <[c := v c]> m) (∅ : gmap string (option nat)) ids)).*2
  ≡ₚ v <$> remove_dups ids.
Proof.
  rewrite counted_as_list, map_to_list_to_map.
  - by rewrite <- list_fmap_compose.
  - rewrite <- list_fmap_compose. simpl. rewrite list_fmap_id.
    apply NoDup_remove_dups.
Qed.

(** X8. [getShapeCounts] has one key for every category id of the
    store and no other.  For a category whose file holds an array (or
    is missing, or cannot be read) the value is the number
    [getShapeCountInCategory] gives; for a file that holds a JSON
    object it is [undefined], where [getShapeCountInCategory] gives
    0. *)
Theorem getShapeCounts_spec (w w1 : World) (ids : list string) :
  getCategoryIds root w = (Ok ids, w1) ->
  exists counts,
    getShapeCounts root w = (Ok counts, w1)
    /\ (forall c, c ∈ ids <-> is_Some (counts !! c))
    /\ (forall c n,
          c ∈ ids ->
          getShapeCountInCategory root c w1 = (Ok n, w1) ->
          counts !! c
          = Some (match storedShapes root c w1 with
                  | ShapesArray _ => Some n
                  | CategoriesObject _ => None
                  end)).
Proof.
  intros Hids. unfold getShapeCounts. unfold bind at 1. rewrite Hids.
  rewrite countCategories_eq. eexists. split; [done |]. split.
  - intros c. rewrite counted_lookup, lookup_empty.
    destruct (decide (c ∈ ids)) as [Hin | Hnin].
    + rewrite bool_decide_eq_true_2 by done. split; [eauto | done].
    + rewrite bool_decide_eq_false_2 by done.
      split; [done | by intros [? ?]].
  - intros c n Hin. rewrite getShapeCountInCategory_eq. intros [= <-].
    rewrite counted_lookup, bool_decide_eq_true_2 by done.
    by destruct (storedShapes root c w1).
Qed.

(** X9. With arrays in all the shape files, [getTotalShapeCount] is
    the sum of the counts of the categories, a repeated id counting
    once; one shape file that holds a JSON object makes it [NaN]. *)
Theorem getTotalShapeCount_spec (w w1 : World) (ids : list string) :
  getCategoryIds root w = (Ok ids, w1) ->
  (shapeFilesAreArrays root w1 ->
   getTotalShapeCount root w
   = (Ok (Some (sumOfCounts root (remove_dups ids) w1)), w1))
  /\ (forall c o,
        c ∈ ids -> storedShapes root c w1 = CategoriesObject o ->
        getTotalShapeCount root w = (Ok None, w1)).
Proof.
  intros Hids.
  assert (getTotalShapeCount root w
          = (Ok (foldl plus (Some 0)
                   (map_to_list
                      (foldl (fun m c =>
                                <[c := lengthOf (storedShapes root c w1)]> m)
                         (∅ : gmap string (option nat)) ids)).*2), w1))
    as ->.
  { unfold getTotalShapeCount, getShapeCounts. unfold bind at 1 2.
    rewrite Hids. by rewrite countCategories_eq. }
  split.
  - intros Harr. f_equal. f_equal.
    rewrite (total_perm _ _
               (counted_values (fun c => lengthOf (storedShapes root c w1))
                  ids)).
    unfold sumOfCounts.
    assert ((fun c => lengthOf (storedShapes root c w1))
              <$> remove_dups ids
            = Some <$> map (fun c => match storedShapes root c w1 with
                                     | ShapesArray l => length l
                                     | CategoriesObject _ => 0
                                     end) (remove_dups ids)) as ->.
    { induction (remove_dups ids) as [|c l IH]; [done |].
      change (lengthOf (storedShapes root c w1)
              :: ((fun c => lengthOf (storedShapes root c w1)) <$> l)
              = Some match storedShapes root c w1 with
                     | ShapesArray l => length l
                     | CategoriesObject _ => 0
                     end
                :: (Some <$> map (fun c => match storedShapes root c w1 with
                                           | ShapesArray l => length l
                                           | CategoriesObject _ => 0
                                           end) l)).
      rewrite IH. f_equal. by destruct (Harr c) as [l' ->]. }
    by rewrite total_Some.
  - intros c o Hin Hobj. f_equal. f_equal.
    rewrite (total_perm _ _
               (counted_values (fun c => lengthOf (storedShapes root c w1))
                  ids)).
    apply total_undefined. apply list_elem_of_fmap. exists c.
    split; [by rewrite Hobj |]. by apply elem_of_remove_dups.
Qed.

End ShapeCounts.

(** ** The shape repository: what a write leaves *)

Section ShapeRepositoryMore.
Variable root : string.
Variable localeCompare : string -> string -> Z.

Local Notation "'shapesPath' c" := (getCategoryFilePath root c)
  (at level 10, c at level 9).

Lemma saveCategoryShapes_inv (category : string) (shapes : list ShapeInfo.t)
    (w w' : World) :
  saveCategoryShapes root localeCompare category shapes w = (Ok tt, w') ->
  canWrite (shapesPath category) w = true
  /\ w' = commit (OpWrite (shapesPath category))
            (<[shapesPath category
               := Json (ShapesArray (sort (byName localeCompare) shapes))]>
               (files w))
            (dirs w) w.
Proof.
  destruct (canWrite (shapesPath category) w) eqn:Hw.
  - rewrite saveCategoryShapes_ok by done. by intros [= <-].
  - by destruct (saveCategoryShapes_refused root localeCompare category
                   shapes w Hw) as [e ->].
Qed.

Lemma saveCategoryShapes_frame (category : string)
    (shapes : list ShapeInfo.t) (w : World) :
  sameExcept (shapesPath category) w
    (saveCategoryShapes root localeCompare category shapes w).2.
Proof.
  destruct (canWrite (shapesPath category) w) eqn:Hw.
  - rewrite saveCategoryShapes_ok by done. apply sameExcept_write.
  - destruct (saveCategoryShapes_refused root localeCompare category
                shapes w Hw) as [e ->].
    apply sameExcept_refl.
Qed.

(** The three writers, each as the array it saves. *)
Lemma addShapeToLibrary_run (shape : ShapeInfo.t) (w : World)
    (l : list ShapeInfo.t) :
  loadCategoryShapes root (ShapeInfo.category shape) w
  = (Ok (ShapesArray l), w) ->
  addShapeToLibrary root localeCompare shape w
  = (saveCategoryShapes root localeCompare (ShapeInfo.category shape)
       match findIndex (sameId (ShapeInfo.id shape)) l with
       | Some existingIndex => <[existingIndex := shape]> l
       | None => (l ++ [shape])%list
       end ;;
     ret (shapesPath (ShapeInfo.category shape))) w.
Proof. intros Hl. unfold addShapeToLibrary. unfold_monad. by rewrite Hl. Qed.

Lemma removeShapeFromLibrary_run (id category : string) (w : World)
    (l : list ShapeInfo.t) :
  loadCategoryShapes root category w = (Ok (ShapesArray l), w) ->
  removeShapeFromLibrary root localeCompare id category w
  = if existsb (sameId id) l then
      saveCategoryShapes root localeCompare category
        (List.filter (fun s => negb (sameId id s)) l) w
    else (Throw (shapeNotFound id category), w).
Proof.
  intros Hl. unfold removeShapeFromLibrary. unfold_monad. rewrite Hl.
  rewrite filter_out_length. by destruct (existsb _ _).
Qed.

Lemma loaded_after_save (category : string) (shapes : list ShapeInfo.t)
    (w : World) :
  fault w (OpRead (shapesPath category)) = None ->
  loadCategoryShapes root category
    (commit (OpWrite (shapesPath category))
       (<[shapesPath category := Json (ShapesArray shapes)]> (files w))
       (dirs w) w)
  = (Ok (ShapesArray shapes),
     commit (OpWrite (shapesPath category))
       (<[shapesPath category := Json (ShapesArray shapes)]> (files w))
       (dirs w) w).
Proof.
  intros Hr. rewrite loadCategoryShapes_eq, storedShapes_after_save.
  by rewrite Hr.
Qed.

Lemma loaded_array_readable (category : string) (w : World)
    (l : list ShapeInfo.t) (s : ShapeInfo.t) :
  loadCategoryShapes root category w = (Ok (ShapesArray l), w) ->
  s ∈ l ->
  fault w (OpRead (shapesPath category)) = None.
Proof.
  rewrite loadCategoryShapes_eq. unfold storedShapes.
  destruct (fault w _); [|done].
  intros [= <-] Hin. by apply elem_of_nil in Hin.
Qed.

(** X10. Every write of the repository leaves the file of the category
    sorted by name (the comparison of names being total): after a
    successful [addShapeToLibrary], [updateShapeInLibrary] or
    [removeShapeFromLibrary] the file holds an array in which each
    record may stand before the next. *)
Theorem writes_leave_the_file_sorted (w w' : World) :
  totalOrder localeCompare ->
  (forall shape path,
     addShapeToLibrary root localeCompare shape w = (Ok path, w') ->
     exists l,
       files w' !! shapesPath (ShapeInfo.category shape)
       = Some (Json (ShapesArray l))
       /\ Sorted (inOrder (byName localeCompare)) l)
  /\ (forall id category updates,
        updateShapeInLibrary root localeCompare id category updates w
        = (Ok tt, w') ->
        exists l,
          files w' !! shapesPath category = Some (Json (ShapesArray l))
          /\ Sorted (inOrder (byName localeCompare)) l)
  /\ (forall id category,
        removeShapeFromLibrary root localeCompare id category w
        = (Ok tt, w') ->
        exists l,
          files w' !! shapesPath category = Some (Json (ShapesArray l))
          /\ Sorted (inOrder (byName localeCompare)) l).
Proof.
  intros Htot.
  assert (forall category shapes,
            saveCategoryShapes root localeCompare category shapes w
            = (Ok tt, w') ->
            exists l,
              files w' !! shapesPath category = Some (Json (ShapesArray l))
              /\ Sorted (inOrder (byName localeCompare)) l) as Hsave.
  { intros category shapes [_ ->]%saveCategoryShapes_inv.
    eexists. split; [simpl; apply lookup_insert_eq |].
    apply sort_sorted. intros a b. apply Htot. }
  split; [|split].
  - intros shape path. unfold addShapeToLibrary. unfold_monad.
    rewrite loadCategoryShapes_eq.
    destruct (storedShapes root _ w) as [l|o]; [|done].
    destruct (saveCategoryShapes _ _ _ _ w) as [[[]|e] w2] eqn:Hs; [|done].
    intros [= _ <-]. by eapply Hsave.
  - intros id category updates. unfold updateShapeInLibrary. unfold_monad.
    rewrite loadCategoryShapes_eq.
    destruct (storedShapes root _ w) as [l|o]; [|done].
    destruct (findIndex _ l); [|done]. apply Hsave.
  - intros id category. unfold removeShapeFromLibrary. unfold_monad.
    rewrite loadCategoryShapes_eq.
    destruct (storedShapes root _ w) as [l|o]; [|done].
    destruct (Nat.eqb _ _); [done |]. apply Hsave.
Qed.

(** X11. [addShapeToLibrary] on a readable, writable category file:
    the shape is in the file afterwards and [shapeExists] answers
    true; the file has one record more when the id was new, as many as
    before when it replaced one; records of other ids are those that
    were there. *)
Theorem addShapeToLibrary_then_exists (shape : ShapeInfo.t) (w : World)
    (l : list ShapeInfo.t) :
  loadCategoryShapes root (ShapeInfo.category shape) w
  = (Ok (ShapesArray l), w) ->
  fault w (OpRead (shapesPath (ShapeInfo.category shape))) = None ->
  canWrite (shapesPath (ShapeInfo.category shape)) w = true ->
  exists w' l',
    addShapeToLibrary root localeCompare shape w
    = (Ok (shapesPath (ShapeInfo.category shape)), w')
    /\ loadCategoryShapes root (ShapeInfo.category shape) w'
       = (Ok (ShapesArray l'), w')
    /\ shape ∈ l'
    /\ shapeExists root (ShapeInfo.id shape) (ShapeInfo.category shape) w'
       = (Ok true, w')
    /\ length l'
       = (if existsb (sameId (ShapeInfo.id shape)) l then length l
          else S (length l))
    /\ forall s, ShapeInfo.id s <> ShapeInfo.id shape -> s ∈ l' <-> s ∈ l.
Proof.
  intros Hl Hr Hw. rewrite (addShapeToLibrary_run _ _ _ Hl).
  unfold_monad. rewrite saveCategoryShapes_ok by done.
  set (upserted := match findIndex _ l with
                   | Some i => <[i := shape]> l
                   | None => (l ++ [shape])%list
                   end).
  pose proof (sort_perm (byName localeCompare) upserted) as Hperm.
  pose proof (loaded_after_save (ShapeInfo.category shape)
                (sort (byName localeCompare) upserted) w Hr) as Hload.
  assert (shape ∈ upserted
          /\ length upserted
             = (if existsb (sameId (ShapeInfo.id shape)) l then length l
                else S (length l))
          /\ forall s, ShapeInfo.id s <> ShapeInfo.id shape ->
                       s ∈ upserted <-> s ∈ l) as (Hin & Hlen & Hothers).
  { subst upserted. rewrite findIndex_existsb.
    destruct (findIndex _ l) as [i|] eqn:Hi.
    - apply findIndex_Some in Hi as (x & Hx & Hid & _).
      apply bool_decide_eq_true in Hid.
      pose proof (lookup_lt_Some _ _ _ Hx) as Hlt.
      split; [by apply list_elem_of_insert |].
      split; [by rewrite length_insert, bool_decide_eq_true_2 by eauto |].
      intros s Hs. rewrite !list_elem_of_lookup. split.
      + intros [j Hj]. destruct (decide (i = j)) as [-> | Hne].
        * rewrite list_lookup_insert_eq in Hj by done. by injection Hj as <-.
        * rewrite list_lookup_insert_ne in Hj by done. eauto.
      + intros [j Hj]. exists j. destruct (decide (i = j)) as [-> | Hne].
        * rewrite Hx in Hj. injection Hj as <-. congruence.
        * by rewrite list_lookup_insert_ne.
    - split; [apply elem_of_app; right; by apply list_elem_of_singleton |].
      split.
      + rewrite bool_decide_eq_false_2 by (by intros [? ?]).
        rewrite length_app. simpl. lia.
      + intros s Hs. rewrite elem_of_app, list_elem_of_singleton.
        split; [intros [? | ->]; done | auto]. }
  eexists _, _. split; [done |]. split; [exact Hload |].
  split; [by rewrite Hperm |]. split.
  - unfold shapeExists. unfold_monad. rewrite Hload. f_equal. f_equal.
    apply existsb_exists. exists shape.
    split; [apply list_elem_of_In; by rewrite Hperm |].
    by apply bool_decide_eq_true.
  - split; [by rewrite Hperm |].
    intros s Hs. rewrite Hperm. by apply Hothers.
Qed.

(** X12. [removeShapeFromLibrary] of an id that is in the file (the
    file writable): every record of that id is gone, also when there
    were several, [shapeExists] answers false, and the records of
    other ids are all kept. *)
Theorem removeShapeFromLibrary_then_gone (id category : string) (w : World)
    (l : list ShapeInfo.t) :
  loadCategoryShapes root category w = (Ok (ShapesArray l), w) ->
  existsb (sameId id) l = true ->
  canWrite (shapesPath category) w = true ->
  exists w' l',
    removeShapeFromLibrary root localeCompare id category w = (Ok tt, w')
    /\ loadCategoryShapes root category w' = (Ok (ShapesArray l'), w')
    /\ shapeExists root id category w' = (Ok false, w')
    /\ (forall s, s ∈ l' <-> s ∈ l /\ ShapeInfo.id s <> id)
    /\ length l' < length l.
Proof.
  intros Hl Hex Hw. rewrite (removeShapeFromLibrary_run _ _ _ _ Hl), Hex.
  rewrite saveCategoryShapes_ok by done.
  apply existsb_exists in Hex as (x & Hx%list_elem_of_In & Hid).
  pose proof (loaded_array_readable _ _ _ _ Hl Hx) as Hr.
  set (kept := List.filter (fun s => negb (sameId id s)) l).
  pose proof (sort_perm (byName localeCompare) kept) as Hperm.
  pose proof (loaded_after_save category
                (sort (byName localeCompare) kept) w Hr) as Hload.
  assert (forall s, s ∈ kept <-> s ∈ l /\ ShapeInfo.id s <> id) as Hkept.
  { intros s. subst kept. rewrite !list_elem_of_In, filter_In.
    unfold sameId. rewrite negb_true_iff, bool_decide_eq_false. done. }
  eexists _, _. split; [done |]. split; [exact Hload |]. split; [|split].
  - unfold shapeExists. unfold_monad. rewrite Hload. f_equal. f_equal.
    apply not_true_is_false. intros (s & Hs & Hsid)%existsb_exists.
    apply list_elem_of_In in Hs. rewrite Hperm in Hs.
    apply Hkept in Hs as [_ Hne]. by apply bool_decide_eq_true in Hsid.
  - intros s. by rewrite Hperm.
  - rewrite Hperm. subst kept.
    pose proof (filter_out_length (sameId id) l) as Hlen.
    assert (existsb (sameId id) l = true) as Hex
      by (apply existsb_exists; exists x;
          by rewrite <- list_elem_of_In).
    rewrite Hex in Hlen. simpl in Hlen. apply Nat.eqb_neq in Hlen.
    pose proof (List.filter_length_le (fun s => negb (sameId id s)) l). lia.
Qed.

(** X13. The three writers change no file but the one of the category
    they are called for, and no directory, whatever their outcome: the
    files of other categories, [categories.json] and the previews stay
    as they are; in particular [removeShapeFromLibrary] leaves the
    preview of the shape it removes. *)
Theorem writers_touch_one_file (w : World) :
  (forall shape,
     sameExcept (shapesPath (ShapeInfo.category shape)) w
       (addShapeToLibrary root localeCompare shape w).2)
  /\ (forall id category updates,
        sameExcept (shapesPath category) w
          (updateShapeInLibrary root localeCompare id category updates w).2)
  /\ (forall id category,
        sameExcept (shapesPath category) w
          (removeShapeFromLibrary root localeCompare id category w).2
        /\ forall rel,
             files (removeShapeFromLibrary root localeCompare id category
                      w).2 !! join (getAssetsDir root) rel
             = files w !! join (getAssetsDir root) rel).
Proof.
  assert (forall id category,
            sameExcept (shapesPath category) w
              (removeShapeFromLibrary root localeCompare id category w).2)
    as Hremove.
  { intros id category. unfold removeShapeFromLibrary. unfold_monad.
    rewrite loadCategoryShapes_eq.
    destruct (storedShapes root _ w) as [l|o]; [|apply sameExcept_refl].
    destruct (Nat.eqb _ _); [apply sameExcept_refl |].
    apply saveCategoryShapes_frame. }
  split; [|split].
  - intros shape. unfold addShapeToLibrary. unfold_monad.
    rewrite loadCategoryShapes_eq.
    destruct (storedShapes root _ w) as [l|o]; [|apply sameExcept_refl].
    pose proof (saveCategoryShapes_frame (ShapeInfo.category shape)
                  match findIndex (sameId (ShapeInfo.id shape)) l with
                  | Some i => <[i := shape]> l
                  | None => (l ++ [shape])%list
                  end w) as Hs.
    by destruct (saveCategoryShapes _ _ _ _ w) as [[[]|e] w2].
  - intros id category updates. unfold updateShapeInLibrary. unfold_monad.
    rewrite loadCategoryShapes_eq.
    destruct (storedShapes root _ w) as [l|o]; [|apply sameExcept_refl].
    destruct (findIndex _ l); [|apply sameExcept_refl].
    apply saveCategoryShapes_frame.
  - intros id category. split; [apply Hremove |].
    intros rel. destruct (Hremove id category) as (_ & _ & _ & Hf).
    apply Hf, asset_not_shape_file.
Qed.

End ShapeRepositoryMore.

(** ** The preview assets: what a move and a repair leave *)

Section PreviewAssetsMore.
Variable root : string.

Local Notation "'assetsDir'" := (getAssetsDir root).

Lemma keepsContents_refl (w : World) : keepsContents root w w.
Proof. intros c p H. by left. Qed.

Lemma keepsContents_trans (w1 w2 w3 : World) :
  keepsContents root w1 w2 -> keepsContents root w2 w3 ->
  keepsContents root w1 w3.
Proof.
  intros H12 H23 c p Hp.
  destruct (H12 c p Hp) as [H | (rel & Hrel & H)].
  - by apply H23.
  - right. destruct (H23 c _ H) as [H' | H']; eauto.
Qed.

Lemma keepsContents_same_files (w w' : World) :
  files w' = files w -> keepsContents root w w'.
Proof. intros Hf c p H. left. by rewrite Hf. Qed.

(** One relocation towards a place where no file is: whatever comes
    of it, no content is lost, and nothing changes unless it went
    through. *)
Lemma relocate_keeps (srcRel destRel : string) (w : World) :
  plainPath destRel = true ->
  files w !! join assetsDir destRel = None ->
  exists moved w',
    try_catch
      (renameSync (join assetsDir srcRel) (join assetsDir destRel) ;; ret true)
      (fun _ =>
         try_catch
           (copyFileSync (join assetsDir srcRel) (join assetsDir destRel) ;;
            ret true)
           (fun _ => ret false)) w
    = (Ok moved, w')
    /\ keepsContents root w w'
    /\ (moved = false -> w' = w)
    /\ (moved = true -> is_Some (files w' !! join assetsDir destRel)).
Proof.
  intros Hplain Hdest.
  unfold renameSync, copyFileSync. unfold_monad. cbv beta.
  destruct (fault w (OpRename (join assetsDir srcRel)
                        (join assetsDir destRel))) eqn:Hr;
    destruct (fault w (OpCopy (join assetsDir srcRel)
                         (join assetsDir destRel))) eqn:Hc;
    destruct (files w !! join assetsDir srcRel) as [c|] eqn:Hsrc;
    destruct (isDir (join assetsDir destRel) w) eqn:Hd;
    cbn -[join getAssetsDir]; rewrite ?Hc, ?Hsrc, ?Hd; cbn -[join getAssetsDir];
    (eexists _, _; split; [reflexivity |]);
    (split; [|split; [try done | try done]]);
    try apply keepsContents_refl;
    try (intros _; cbn -[join getAssetsDir]; rewrite lookup_insert_eq; eauto).
  - (* the copy went through *)
    intros c0 p Hp. left. cbn -[join getAssetsDir].
    rewrite lookup_insert_ne; [done |]. intros <-. congruence.
  - (* the rename went through *)
    intros c0 p Hp. cbn -[join getAssetsDir].
    destruct (decide (p = join assetsDir srcRel)) as [-> | Hne].
    + right. exists destRel. split; [done |].
      rewrite lookup_insert_eq. congruence.
    + left. rewrite lookup_insert_ne by (intros <-; congruence).
      by rewrite lookup_delete_ne.
  - intros c0 p Hp. cbn -[join getAssetsDir].
    destruct (decide (p = join assetsDir srcRel)) as [-> | Hne].
    + right. exists destRel. split; [done |].
      rewrite lookup_insert_eq. congruence.
    + left. rewrite lookup_insert_ne by (intros <-; congruence).
      by rewrite lookup_delete_ne.
Qed.

Lemma searchPreview_keeps (category : string) (shape : ShapeInfo.t)
    (destRel : string) (searchCategories : list string) :
  plainPath destRel = true ->
  forall (repairedCount : nat) (w : World),
  files w !! join assetsDir destRel = None ->
  exists n w',
    searchPreview assetsDir category shape (join assetsDir destRel)
      searchCategories repairedCount w = (Ok n, w')
    /\ keepsContents root w w'
    /\ (n = repairedCount -> w' = w)
    /\ (n <> repairedCount -> is_Some (files w' !! join assetsDir destRel)).
Proof.
  intros Hplain.
  induction searchCategories as [|searchCategory rest IH];
    intros repairedCount w Hdest.
  { exists repairedCount, w.
    split; [done |]. split; [apply keepsContents_refl | done]. }
  cbn [searchPreview]. unfold existsSync at 1. unfold bind at 1.
  destruct (_ && negb (bool_decide (searchCategory = category))).
  - unfold bind at 1.
    destruct (relocate_keeps
                (searchCategory ++ "/" ++ ShapeInfo.id shape ++ ".png")
                destRel w Hplain Hdest)
      as (moved & w1 & -> & Hk & Hsame & Hthere).
    destruct moved.
    + exists (S repairedCount), w1. split; [done |]. split; [exact Hk |].
      split; [lia | auto].
    + rewrite (Hsame eq_refl). by apply IH.
  - by apply IH.
Qed.

Lemma repairShapes_keeps (category : string) (categories : list string)
    (shapes : list ShapeInfo.t) :
  (forall s, s ∈ shapes -> plainPath (ShapeInfo.preview s) = true) ->
  forall (repairedCount : nat) (w : World),
  exists n w',
    repairShapes assetsDir category categories shapes repairedCount w
    = (Ok n, w')
    /\ keepsContents root w w'.
Proof.
  induction shapes as [|shape rest IH]; intros Hplain repairedCount w.
  { exists repairedCount, w. split; [done | apply keepsContents_refl]. }
  assert (forall s, s ∈ rest -> plainPath (ShapeInfo.preview s) = true)
    as Hrest by (intros s Hs; by apply Hplain, list_elem_of_further).
  specialize (IH Hrest).
  cbn [repairShapes]. unfold existsSync at 1. unfold bind at 1 2.
  destruct (isFile _ w || isDir _ w) eqn:Hex; cbn [negb].
  - unfold ret at 1. apply IH.
  - apply orb_false_iff in Hex as [Hfile _].
    assert (files w !! join assetsDir (ShapeInfo.preview shape) = None)
      as Hnone.
    { destruct (files w !! _) as [c|] eqn:Hc; [|done].
      by rewrite (isFile_Some _ _ _ Hc) in Hfile. }
    destruct (searchPreview_keeps category shape (ShapeInfo.preview shape)
                categories (Hplain shape (list_elem_of_here _ _))
                repairedCount w Hnone)
      as (n1 & w1 & -> & Hk & _).
    destruct (IH n1 w1) as (n & w' & -> & Hk').
    exists n, w'. split; [done |]. by eapply keepsContents_trans.
Qed.

(** The loop over the categories, whatever its outcome: it changes
    the assets only, and loses no content when the records have their
    previews at relative paths of plain names. *)
Lemma repairCategories_frame (categories todo : list string) :
  forall (repairedCount : nat) (w w' : World) (res : result nat),
  repairCategories root assetsDir categories todo repairedCount w
  = (res, w') ->
  assetsOnly root w w'
  /\ ((forall c l s,
         storedShapes root c w = ShapesArray l -> s ∈ l ->
         plainPath (ShapeInfo.preview s) = true) ->
      keepsContents root w w').
Proof.
  induction todo as [|category rest IH]; intros repairedCount w w' res.
  { intros [= _ <-].
    split; [apply assetsOnly_refl | intros _; apply keepsContents_refl]. }
  cbn [repairCategories]. unfold bind at 1.
  rewrite loadCategoryShapes_eq. cbv beta iota.
  assert (forall w1,
            assetsOnly root w w1 -> keepsContents root w w1 ->
            match storedShapes root category w with
            | ShapesArray l =>
                let* repairedCount :=
                  repairShapes assetsDir category categories l
                    repairedCount in
                repairCategories root assetsDir categories rest
                  repairedCount
            | CategoriesObject _ =>
                throw "shapes is not iterable"
            end w1 = (res, w') ->
            assetsOnly root w w'
            /\ ((forall c l s,
                   storedShapes root c w = ShapesArray l -> s ∈ l ->
                   plainPath (ShapeInfo.preview s) = true) ->
                keepsContents root w w')) as Hrest.
  { intros w1 Ha Hk.
    destruct (storedShapes root category w) as [l|o] eqn:Hl;
      [|by intros [= _ <-]].
    unfold bind at 1.
    destruct (repairShapes_spec root category categories l repairedCount w1)
      as (n2 & w2 & Hrun & Ha2 & _).
    rewrite Hrun. intros [Ha3 Hk3]%IH.
    assert (assetsOnly root w w2) as Ha12 by (by eapply assetsOnly_trans).
    split; [by eapply assetsOnly_trans |].
    intros Hplain.
    destruct (repairShapes_keeps category categories l
                (fun s Hs => Hplain category l s Hl Hs) repairedCount w1)
      as (n2' & w2' & Hrun' & Hk2).
    rewrite Hrun in Hrun'. injection Hrun' as <- <-.
    eapply keepsContents_trans; [exact Hk |].
    eapply keepsContents_trans; [exact Hk2 |].
    apply Hk3. intros c l' s.
    rewrite (storedShapes_assetsOnly root _ _ _ Ha12). apply Hplain. }
  unfold existsSync at 1. unfold bind at 1.
  destruct (isFile (join assetsDir category) w
            || isDir (join assetsDir category) w) eqn:Hex; cbn [negb].
  - unfold ret at 1. unfold bind at 1.
    apply Hrest; [apply assetsOnly_refl | apply keepsContents_refl].
  - destruct (fault w (OpMkdir (join assetsDir category))) as [e|] eqn:Hf.
    + unfold bind at 1. unfold mkdirSync. rewrite Hf. intros [= _ <-].
      split; [apply assetsOnly_refl | intros _; apply keepsContents_refl].
    + destruct (ensure_directory root category w (or_intror Hf))
        as (w1 & Hdir & Ha1 & Hfiles & _).
      pose proof (Hdir _ (fun _ =>
                   match storedShapes root category w with
                   | ShapesArray l =>
                       let* repairedCount :=
                         repairShapes assetsDir category categories l
                           repairedCount in
                       repairCategories root assetsDir categories rest
                         repairedCount
                   | CategoriesObject _ =>
                       throw "shapes is not iterable"
                   end)) as Hrun.
      unfold existsSync in Hrun. unfold bind at 1 in Hrun.
      rewrite Hex in Hrun. cbn [negb] in Hrun. rewrite Hrun.
      apply Hrest; [exact Ha1 | by apply keepsContents_same_files].
Qed.

Lemma marker_not_shape_file (category : string) :
  getCategoryFilePath root category <> repairMarker root.
Proof.
  unfold getCategoryFilePath, repairMarker, getShapesDir, getLibraryRoot,
    join.
  rewrite !append_assoc. intros H. apply append_inv_head in H. discriminate.
Qed.

(** The list of categories is loaded in a state that differs from the
    first at most in a [categories.json] that was not there. *)
Lemma getCategoryIds_any (w w1 : World) (res : result (list string)) :
  getCategoryIds root w = (res, w1) ->
  sameExcept (getCategoriesFilePath root) w w1
  /\ keepsContents root w w1.
Proof.
  unfold getCategoryIds. unfold_monad.
  destruct (isFile (getCategoriesFilePath root) w
            || isDir (getCategoriesFilePath root) w) eqn:Hex.
  - rewrite loadCategories_present by done. intros [= _ <-].
    split; [apply sameExcept_refl | apply keepsContents_refl].
  - rewrite loadCategories_first_run by done. unfold_monad.
    apply orb_false_iff in Hex as [Hfile _].
    destruct (canWrite (getCategoriesFilePath root) w) eqn:Hw.
    + rewrite saveCategories_ok by done. simpl. intros [= _ <-].
      split; [apply sameExcept_write |].
      intros c p Hp. left. simpl.
      rewrite lookup_insert_ne; [done |].
      intros <-. by rewrite (isFile_Some _ _ _ Hp) in Hfile.
    + destruct (saveCategories_refused root Defaults w Hw) as [e ->].
      intros [= _ <-].
      split; [apply sameExcept_refl | apply keepsContents_refl].
Qed.

(** The list of categories, once loaded, is loaded from a file. *)
Lemma getCategoryIds_present (w w1 : World) (ids : list string) :
  getCategoryIds root w = (Ok ids, w1) ->
  isFile (getCategoriesFilePath root) w1
  || isDir (getCategoriesFilePath root) w1 = true.
Proof.
  unfold getCategoryIds. unfold_monad.
  destruct (isFile (getCategoriesFilePath root) w
            || isDir (getCategoriesFilePath root) w) eqn:Hex.
  - rewrite loadCategories_present by done. by intros [= _ <-].
  - rewrite loadCategories_first_run by done. unfold_monad.
    destruct (canWrite (getCategoriesFilePath root) w) eqn:Hw.
    + rewrite saveCategories_ok by done. simpl. intros [= _ <-].
      apply orb_true_iff. left. eapply isFile_Some. simpl.
      apply lookup_insert_eq.
    + by destruct (saveCategories_refused root Defaults w Hw) as [e ->].
Qed.

(** The write of the marker, whatever becomes of it. *)
Lemma writeMarker_run (w : World) :
  exists w',
    try_catch
      (let* stamp := toISOString_now in
       writeFileSync (repairMarker root) (Raw stamp))
      (fun _ => ret tt) w
    = (Ok tt, w')
    /\ sameExcept (repairMarker root) w w'
    /\ (canWrite (repairMarker root) w = true ->
        isFile (repairMarker root) w' = true).
Proof.
  unfold toISOString_now. unfold_monad.
  destruct (canWrite (repairMarker root) w) eqn:Hw.
  - rewrite writeFileSync_ok by done. eexists. split; [done |].
    split; [apply sameExcept_write |].
    intros _. eapply isFile_Some. simpl. apply lookup_insert_eq.
  - destruct (writeFileSync_refused _ (Raw (now w)) _ Hw) as [e ->].
    exists w. split; [done |]. split; [apply sameExcept_refl | done].
Qed.

(** X14. With the previews of the records at relative paths of plain
    names (no empty, [.] or [..] part and no separator within a name,
    so that [path.join] keeps them under the assets directory),
    whatever [repairOrphanedPreviews] returns or raises, it leaves the
    shape files as they were, and no content is lost: what a file
    other than the marker held is still in that file, or in a file
    under the assets directory, at such a path. *)
Theorem repairOrphanedPreviews_loses_nothing (force : bool) (w w' : World)
    (res : result nat) :
  (forall category l s,
     storedShapes root category w = ShapesArray l -> s ∈ l ->
     plainPath (ShapeInfo.preview s) = true) ->
  repairOrphanedPreviews root force w = (res, w') ->
  (forall category,
     files w' !! getCategoryFilePath root category
     = files w !! getCategoryFilePath root category)
  /\ (forall c p,
        p <> repairMarker root ->
        files w !! p = Some c ->
        files w' !! p = Some c
        \/ exists rel,
             plainPath rel = true
             /\ files w' !! join assetsDir rel = Some c).
Proof.
  intros Hplain.
  assert (forall w1 w2,
            sameExcept (getCategoriesFilePath root) w w1 ->
            keepsContents root w w1 ->
            assetsOnly root w1 w2 -> keepsContents root w1 w2 ->
            sameExcept (repairMarker root) w2 w' ->
            (forall category,
               files w' !! getCategoryFilePath root category
               = files w !! getCategoryFilePath root category)
            /\ (forall c p,
                  p <> repairMarker root ->
                  files w !! p = Some c ->
                  files w' !! p = Some c
                  \/ exists rel,
                       plainPath rel = true
                       /\ files w' !! join assetsDir rel = Some c))
    as Hsteps.
  { intros w1 w2 (_ & _ & _ & H1) Hk1 (_ & _ & _ & H2) Hk2 (_ & _ & _ & H3).
    split.
    - intros category.
      rewrite H3 by apply marker_not_shape_file.
      destruct (H2 (getCategoryFilePath root category)) as [-> _].
      { intros rel Heq. symmetry in Heq.
        by apply asset_not_shape_file in Heq. }
      apply H1, categories_not_shape_file.
    - intros c p Hp Hc.
      destruct (keepsContents_trans w w1 w2 Hk1 Hk2 c p Hc)
        as [Hsame | (rel & Hrel & Hthere)].
      + left. by rewrite H3.
      + right. exists rel. split; [done |].
        rewrite H3; [done | apply asset_not_marker]. }
  unfold repairOrphanedPreviews. unfold bind at 1.
  destruct (getCategoryIds root w) as [[ids|e] w1] eqn:Hids;
    apply getCategoryIds_any in Hids as [Hs Hk].
  2: { intros [= _ <-].
       apply (Hsteps w1 w1);
         first [ done | apply assetsOnly_refl | apply keepsContents_refl
               | apply sameExcept_refl ]. }
  assert (forall category l s,
            storedShapes root category w1 = ShapesArray l -> s ∈ l ->
            plainPath (ShapeInfo.preview s) = true) as Hplain1.
  { intros category l s. rewrite (storedShapes_frame root _ _ _ Hs).
    apply Hplain. }
  unfold existsSync at 1. unfold bind at 1.
  destruct (negb force && _).
  { intros [= _ <-].
    apply (Hsteps w1 w1);
         first [ done | apply assetsOnly_refl | apply keepsContents_refl
               | apply sameExcept_refl ]. }
  unfold bind at 1.
  destruct (repairCategories root assetsDir ids ids 0 w1)
    as [[n|e] w2] eqn:Hscan;
    apply repairCategories_frame in Hscan as [Ha Hk2];
    specialize (Hk2 Hplain1).
  - unfold bind at 1.
    destruct (writeMarker_run w2) as (w3 & -> & Hm & _).
    intros [= _ <-]. by apply (Hsteps w1 w2).
  - intros [= _ <-].
    apply (Hsteps w1 w2); first [done | apply sameExcept_refl].
Qed.

(** X15. Once [repairOrphanedPreviews] has returned with the marker
    writable, the next call without [force] returns 0 and changes
    nothing. *)
Theorem repairOrphanedPreviews_runs_once (force : bool) (w w' : World)
    (n : nat) :
  repairOrphanedPreviews root force w = (Ok n, w') ->
  canWrite (repairMarker root) w = true ->
  repairOrphanedPreviews root false w' = (Ok 0, w').
Proof.
  intros Hrun Hw.
  assert (isFile (getCategoriesFilePath root) w'
          || isDir (getCategoriesFilePath root) w' = true
          /\ isFile (repairMarker root) w' || isDir (repairMarker root) w'
             = true) as [Hcat Hmark].
  { revert Hrun. unfold repairOrphanedPreviews. unfold bind at 1.
    destruct (getCategoryIds root w) as [[ids|e] w1] eqn:Hids; [|done].
    pose proof (getCategoryIds_present _ _ _ Hids) as Hp.
    apply getCategoryIds_frame in Hids as [Hs _].
    destruct (marker_sameExcept _ _ _ Hs) as (_ & _ & HmW).
    unfold existsSync at 1. unfold bind at 1.
    destruct (negb force && _) eqn:Hskip.
    { intros [= _ <-]. split; [done |].
      by apply andb_true_iff in Hskip as [_ ?]. }
    unfold bind at 1.
    destruct (repairCategories root assetsDir ids ids 0 w1)
      as [[m|e] w2] eqn:Hscan; [|done].
    apply repairCategories_frame in Hscan as [Ha _].
    unfold bind at 1.
    destruct (writeMarker_run w2) as (w3 & -> & Hm & Hfile).
    intros [= _ <-]. split.
    - rewrite (isFile_sameExcept _ _ _ _ Hm),
        (isDir_sameExcept _ _ _ _ Hm);
        [| intros Heq; symmetry in Heq; by apply marker_not_categories in Heq].
      destruct Ha as (_ & _ & _ & Hfiles).
      destruct (Hfiles (getCategoriesFilePath root)) as [Hf Hd].
      { intros rel Heq. symmetry in Heq.
        by apply asset_not_categories in Heq. }
      unfold isFile. by rewrite Hf, Hd.
    - rewrite Hfile; [done |].
      rewrite (marker_assetsOnly _ _ _ Ha). congruence. }
  unfold repairOrphanedPreviews, getCategoryIds. unfold bind at 1 2.
  rewrite loadCategories_present by done.
  unfold deref, bind, ret, existsSync. cbv beta iota. by rewrite Hmark.
Qed.

Lemma preview_paths_differ (id oldCategory newCategory : string) :
  oldCategory <> newCategory ->
  join assetsDir (oldCategory ++ "/" ++ id ++ ".png")
  <> join assetsDir (newCategory ++ "/" ++ id ++ ".png").
Proof.
  intros Hne Heq. apply Hne. unfold join in Heq.
  do 2 apply append_inv_head in Heq.
  revert Heq. generalize ("/" ++ id ++ ".png"). intros tail.
  revert newCategory Hne.
  induction oldCategory as [|x a IH]; intros [|y b] Hne Heq; try done.
  - exfalso. apply (f_equal String.length) in Heq.
    rewrite !length_append in Heq. simpl in Heq. lia.
  - exfalso. apply (f_equal String.length) in Heq.
    rewrite !length_append in Heq. simpl in Heq. lia.
  - rewrite !append_cons in Heq. injection Heq as -> Heq.
    f_equal. apply IH; [congruence | done].
Qed.

(** [movePreviewToCategory] without the folder of the new category and
    without the means to create it. *)
Lemma movePreview_refused (shape : ShapeInfo.t)
    (oldCategory newCategory e : string) (w : World) :
  isFile (join assetsDir newCategory) w
  || isDir (join assetsDir newCategory) w = false ->
  fault w (OpMkdir (join assetsDir newCategory)) = Some e ->
  movePreviewToCategory root shape oldCategory newCategory w = (Throw e, w).
Proof.
  intros Hex Hf. unfold movePreviewToCategory, existsSync.
  unfold bind at 1. rewrite Hex. cbn [negb].
  unfold bind at 1. unfold mkdirSync. by rewrite Hf.
Qed.

(** [movePreviewToCategory] with the folder there or possible to
    create: it returns, and changes the assets only. *)
Lemma movePreview_frame (shape : ShapeInfo.t)
    (oldCategory newCategory : string) (w : World) :
  isFile (join assetsDir newCategory) w
  || isDir (join assetsDir newCategory) w = true
  \/ fault w (OpMkdir (join assetsDir newCategory)) = None ->
  exists w',
    movePreviewToCategory root shape oldCategory newCategory w
    = (Ok (newCategory ++ "/" ++ ShapeInfo.id shape ++ ".png"), w')
    /\ assetsOnly root w w'.
Proof.
  intros Hdir. unfold movePreviewToCategory.
  destruct (ensure_directory root newCategory w Hdir)
    as (w1 & -> & Ha & _).
  destruct (relocate_spec root
              (oldCategory ++ "/" ++ ShapeInfo.id shape ++ ".png")
              (newCategory ++ "/" ++ ShapeInfo.id shape ++ ".png") w1)
    as (moved & w2 & Hrun & Ha2 & _).
  revert Hrun.
  set (src := join assetsDir
                (oldCategory ++ "/" ++ ShapeInfo.id shape ++ ".png")).
  set (dest := join assetsDir
                 (newCategory ++ "/" ++ ShapeInfo.id shape ++ ".png")).
  intros Hrun. unfold existsSync. unfold bind at 1.
  destruct (isFile src w1 || isDir src w1).
  - exists w2. split; [|by eapply assetsOnly_trans].
    revert Hrun. unfold renameSync, copyFileSync. unfold_monad. cbv beta.
    destruct (fault w1 (OpRename src dest)) eqn:Hr;
      destruct (fault w1 (OpCopy src dest)) eqn:Hc;
      destruct (files w1 !! src) eqn:Hsrc;
      destruct (isDir dest w1) eqn:Hd;
      cbn -[join getAssetsDir]; rewrite ?Hc, ?Hsrc, ?Hd;
      cbn -[join getAssetsDir]; by intros [= _ <-].
  - exists w1. by split.
Qed.

(** X16. With the preview there and the rename not refused,
    [movePreviewToCategory] moves the file: the new location holds its
    content, replacing what it held, and the old location, when the
    categories differ, is left empty; no other file changes.  (The ids
    of the categories are as [addCategory] admits them and the id of
    the shape has no separator: the two paths are then as [path.join]
    leaves them, and name one file only when the categories are the
    same.) *)
Theorem movePreviewToCategory_moves (shape : ShapeInfo.t)
    (oldCategory newCategory : string) (w : World) (c : content) :
  let oldPreviewPath :=
    join assetsDir (oldCategory ++ "/" ++ ShapeInfo.id shape ++ ".png") in
  let newCategoryDir := join assetsDir newCategory in
  let newPreviewPath :=
    join assetsDir (newCategory ++ "/" ++ ShapeInfo.id shape ++ ".png") in
  validIdRegex_test oldCategory = true ->
  validIdRegex_test newCategory = true ->
  hasSeparator (ShapeInfo.id shape) = false ->
  isFile newCategoryDir w || isDir newCategoryDir w = true
  \/ fault w (OpMkdir newCategoryDir) = None ->
  files w !! oldPreviewPath = Some c ->
  fault w (OpRename oldPreviewPath newPreviewPath) = None ->
  isDir newPreviewPath w = false ->
  exists w',
    movePreviewToCategory root shape oldCategory newCategory w
    = (Ok (newCategory ++ "/" ++ ShapeInfo.id shape ++ ".png"), w')
    /\ files w' = <[newPreviewPath := c]> (delete oldPreviewPath (files w))
    /\ files w' !! newPreviewPath = Some c
    /\ (oldCategory <> newCategory -> files w' !! oldPreviewPath = None).
Proof.
  intros oldPreviewPath newCategoryDir newPreviewPath _ _ _ Hdir Hc Hr Hd.
  unfold movePreviewToCategory.
  destruct (ensure_directory root newCategory w Hdir)
    as (w1 & -> & (Hfault & _) & Hfiles & _ & Hdirs).
  fold oldPreviewPath newPreviewPath.
  assert (isFile oldPreviewPath w1 = true) as Hfile.
  { eapply isFile_Some. rewrite Hfiles. exact Hc. }
  unfold existsSync. unfold bind at 1. rewrite Hfile. cbn [orb].
  unfold bind at 1. unfold try_catch at 1. unfold renameSync.
  rewrite Hfault, Hr, Hfiles, Hc.
  rewrite (Hdirs newPreviewPath) by apply preview_not_its_folder.
  rewrite Hd. eexists. split; [reflexivity |]. cbn [files commit].
  split; [done |]. split; [apply lookup_insert_eq |].
  intros Hne. rewrite lookup_insert_ne, lookup_delete_eq; [done |].
  intros Heq. symmetry in Heq. revert Heq. by apply preview_paths_differ.
Qed.

End PreviewAssetsMore.

(** ** The form that edits a shape *)

Lemma bind_Ok {A B} (m : M A) (k : A -> M B) (w w1 : World) (a : A) :
  m w = (Ok a, w1) -> bind m k w = k a w1.
Proof. intros H. unfold bind. by rewrite H. Qed.

Lemma bind_Throw {A B} (m : M A) (k : A -> M B) (w w1 : World)
    (e : string) :
  m w = (Throw e, w1) -> bind m k w = (Throw e, w1).
Proof. intros H. unfold bind. by rewrite H. Qed.

Lemma try_catch_Ok {A} (m : M A) (handler : string -> M A) (w w1 : World)
    (a : A) :
  m w = (Ok a, w1) -> try_catch m handler w = (Ok a, w1).
Proof. intros H. unfold try_catch. by rewrite H. Qed.

Lemma try_catch_Throw {A} (m : M A) (handler : string -> M A)
    (w w1 : World) (e : string) :
  m w = (Throw e, w1) -> try_catch m handler w = handler e w1.
Proof. intros H. unfold try_catch. by rewrite H. Qed.

Lemma append_inv_tail (c a b : string) : a ++ c = b ++ c -> a = b.
Proof.
  revert b. induction a as [|x a IH]; intros [|y b] Heq; try done.
  - exfalso. apply (f_equal String.length) in Heq.
    rewrite !length_append in Heq. simpl in Heq. lia.
  - exfalso. apply (f_equal String.length) in Heq.
    rewrite !length_append in Heq. simpl in Heq. lia.
  - rewrite !append_cons in Heq. injection Heq as -> Heq.
    f_equal. by apply IH.
Qed.

Lemma shape_files_differ (root a b : string) :
  a <> b -> getCategoryFilePath root a <> getCategoryFilePath root b.
Proof.
  intros Hne Heq. apply Hne. unfold getCategoryFilePath, join in Heq.
  do 2 apply append_inv_head in Heq. by apply append_inv_tail in Heq.
Qed.

Lemma upsert_elem (shape : ShapeInfo.t) (l : list ShapeInfo.t) :
  shape ∈ match findIndex (sameId (ShapeInfo.id shape)) l with
          | Some existingIndex => <[existingIndex := shape]> l
          | None => (l ++ [shape])%list
          end.
Proof.
  destruct (findIndex _ l) as [i|] eqn:Hi.
  - apply findIndex_Some in Hi as (x & Hx & _).
    pose proof (lookup_lt_Some _ _ _ Hx). by apply list_elem_of_insert.
  - apply elem_of_app. right. by apply list_elem_of_singleton.
Qed.

Section EditShape.
Variable root : string.
Variable localeCompare : string -> string -> Z.
Variable trim : string -> string.

Local Notation "'shapesPath' c" := (getCategoryFilePath root c)
  (at level 10, c at level 9).
Local Notation "'assetsDir'" := (getAssetsDir root).

(** The first step of a change of category: the record leaves the file
    of the old one. *)
Lemma handleSubmit_removal (id category : string) (l : list ShapeInfo.t)
    (w : World) :
  storedShapes root category w = ShapesArray l ->
  existsb (sameId id) l = true ->
  canWrite (shapesPath category) w = true ->
  removeShapeFromLibrary root localeCompare id category w
  = (Ok tt,
     commit (OpWrite (shapesPath category))
       (<[shapesPath category
          := Json (ShapesArray
                     (sort (byName localeCompare)
                        (List.filter (fun s => negb (sameId id s)) l)))]>
          (files w))
       (dirs w) w).
Proof.
  intros Hl Hex Hw.
  rewrite (removeShapeFromLibrary_run root localeCompare _ _ _ l), Hex.
  - by apply saveCategoryShapes_ok.
  - by rewrite loadCategoryShapes_eq, Hl.
Qed.

(** X17. A change of category that cannot create the folder of the new
    category is left half done: the handler reports the failure, the
    record is gone from the file of the old category, and no other
    file has changed, so that the record is in no file of the
    library. *)
Theorem handleSubmit_half_done (shape : ShapeInfo.t)
    (values : EditShapeFormValues.t) (w : World) (l : list ShapeInfo.t)
    (e : string) :
  let oldCategory := ShapeInfo.category shape in
  let newCategory := EditShapeFormValues.category values in
  oldCategory <> newCategory ->
  storedShapes root oldCategory w = ShapesArray l ->
  existsb (sameId (ShapeInfo.id shape)) l = true ->
  canWrite (shapesPath oldCategory) w = true ->
  isFile (join assetsDir newCategory) w
  || isDir (join assetsDir newCategory) w = false ->
  fault w (OpMkdir (join assetsDir newCategory)) = Some e ->
  exists w',
    EditShapeForm_handleSubmit root localeCompare trim shape values w
    = (Ok (Failure "Failed to update shape" e), w')
    /\ files w' !! shapesPath oldCategory
       = Some (Json (ShapesArray
                       (sort (byName localeCompare)
                          (List.filter
                             (fun s => negb (sameId (ShapeInfo.id shape) s))
                             l))))
    /\ forall q, q <> shapesPath oldCategory ->
         files w' !! q = files w !! q.
Proof.
  cbv zeta. intros Hne Hl Hex Hw Hdir Hf.
  pose proof (handleSubmit_removal _ _ _ _ Hl Hex Hw) as Hrem.
  eexists. split; [|split].
  - unfold EditShapeForm_handleSubmit. cbv zeta.
    rewrite bool_decide_eq_false_2 by done. cbn [negb].
    erewrite try_catch_Throw; [reflexivity |].
    apply bind_Throw. erewrite bind_Ok by exact Hrem. apply bind_Throw.
    apply movePreview_refused; [|done].
    rewrite <- Hdir. unfold isFile, isDir. cbn [files dirs commit].
    rewrite lookup_insert_ne; [done |].
    intros Heq. symmetry in Heq. by apply asset_not_shape_file in Heq.
  - cbn [files commit]. apply lookup_insert_eq.
  - intros q Hq. cbn [files commit]. by rewrite lookup_insert_ne.
Qed.

(** X18. A change of category that goes through (both shape files
    holding arrays and writable, the folder of the new category there
    or possible to create): the handler reports success, the file of
    the old category holds no record of the id any more, and the file
    of the new category holds the record with the name and tags of the
    form, the new category and the preview path
    [<newCategory>/<id>.png]. *)
Theorem handleSubmit_moves_record (shape : ShapeInfo.t)
    (values : EditShapeFormValues.t) (w : World)
    (l l2 : list ShapeInfo.t) :
  let oldCategory := ShapeInfo.category shape in
  let newCategory := EditShapeFormValues.category values in
  oldCategory <> newCategory ->
  storedShapes root oldCategory w = ShapesArray l ->
  existsb (sameId (ShapeInfo.id shape)) l = true ->
  canWrite (shapesPath oldCategory) w = true ->
  isFile (join assetsDir newCategory) w
  || isDir (join assetsDir newCategory) w = true
  \/ fault w (OpMkdir (join assetsDir newCategory)) = None ->
  storedShapes root newCategory w = ShapesArray l2 ->
  canWrite (shapesPath newCategory) w = true ->
  exists w' lo ln,
    EditShapeForm_handleSubmit root localeCompare trim shape values w
    = (Ok (Success "Shape updated!"
             ("Updated " ++ EditShapeFormValues.name values)), w')
    /\ files w' !! shapesPath oldCategory = Some (Json (ShapesArray lo))
    /\ existsb (sameId (ShapeInfo.id shape)) lo = false
    /\ files w' !! shapesPath newCategory = Some (Json (ShapesArray ln))
    /\ ShapeInfo.mk (ShapeInfo.id shape) (EditShapeFormValues.name values)
         newCategory (newCategory ++ "/" ++ ShapeInfo.id shape ++ ".png")
         (setMember "tags" (tagsOf trim (EditShapeFormValues.tags values))
            (ShapeInfo.more shape))
       ∈ ln.
Proof.
  cbv zeta. intros Hne Hl Hex Hw Hdir Hl2 Hw2.
  pose proof (handleSubmit_removal _ _ _ _ Hl Hex Hw) as Hrem.
  set (kept := sort (byName localeCompare)
                 (List.filter
                    (fun s => negb (sameId (ShapeInfo.id shape) s)) l))
    in *.
  set (w1 := commit _ _ _ w) in Hrem.
  assert (forall rel category,
            shapesPath category <> join assetsDir rel) as Hasset.
  { intros rel category Heq. symmetry in Heq.
    by apply asset_not_shape_file in Heq. }
  destruct (movePreview_frame root shape (ShapeInfo.category shape)
              (EditShapeFormValues.category values) w1)
    as (w2 & Hmove & Ha).
  { unfold isFile, isDir. subst w1. cbn [files dirs commit fault].
    rewrite lookup_insert_ne by apply Hasset. exact Hdir. }
  set (updatedShape :=
         ShapeInfo.mk (ShapeInfo.id shape) (EditShapeFormValues.name values)
           (EditShapeFormValues.category values)
           (EditShapeFormValues.category values ++ "/"
            ++ ShapeInfo.id shape ++ ".png")
           (setMember "tags" (tagsOf trim (EditShapeFormValues.tags values))
              (ShapeInfo.more shape))).
  set (upserted :=
         match findIndex (sameId (ShapeInfo.id shape)) l2 with
         | Some existingIndex => <[existingIndex := updatedShape]> l2
         | None => (l2 ++ [updatedShape])%list
         end).
  assert (storedShapes root (EditShapeFormValues.category values) w2
          = ShapesArray l2) as Hl2'.
  { rewrite (storedShapes_assetsOnly root _ _ _ Ha), <- Hl2.
    unfold storedShapes. subst w1. cbn [files commit fault].
    rewrite lookup_insert_ne; [done |]. by apply shape_files_differ. }
  assert (canWrite (shapesPath (EditShapeFormValues.category values)) w2
          = true) as Hw2'.
  { rewrite <- Hw2. unfold canWrite.
    destruct Ha as (-> & _ & _ & Hp).
    destruct (Hp (shapesPath (EditShapeFormValues.category values)))
      as [_ ->]; [|done].
    intros rel Heq. by apply Hasset in Heq. }
  assert (addShapeToLibrary root localeCompare updatedShape w2
          = (Ok (shapesPath (EditShapeFormValues.category values)),
             commit
               (OpWrite (shapesPath (EditShapeFormValues.category values)))
               (<[shapesPath (EditShapeFormValues.category values)
                  := Json (ShapesArray
                             (sort (byName localeCompare) upserted))]>
                  (files w2))
               (dirs w2) w2)) as Hadd.
  { rewrite (addShapeToLibrary_run root localeCompare updatedShape w2 l2)
      by (by rewrite loadCategoryShapes_eq, <- Hl2').
    erewrite bind_Ok; [reflexivity |].
    by apply saveCategoryShapes_ok. }
  eexists _, kept, (sort (byName localeCompare) upserted).
  split; [|split; [|split; [|split]]].
  - unfold EditShapeForm_handleSubmit. cbv zeta.
    rewrite bool_decide_eq_false_2 by done. cbn [negb].
    apply try_catch_Ok. erewrite bind_Ok; [reflexivity |].
    erewrite bind_Ok by exact Hrem.
    erewrite bind_Ok by exact Hmove.
    erewrite bind_Ok by exact Hadd. reflexivity.
  - cbn [files commit].
    rewrite lookup_insert_ne by (by apply shape_files_differ).
    destruct Ha as (_ & _ & _ & Hp).
    destruct (Hp (shapesPath (ShapeInfo.category shape))) as [-> _].
    { intros rel Heq. by apply Hasset in Heq. }
    subst w1. cbn [files commit]. apply lookup_insert_eq.
  - apply not_true_is_false. intros (s & Hs & Hsid)%existsb_exists.
    apply list_elem_of_In in Hs. subst kept. rewrite sort_perm in Hs.
    apply list_elem_of_In, filter_In in Hs as [_ Hs].
    by rewrite Hsid in Hs.
  - cbn [files commit]. apply lookup_insert_eq.
  - rewrite sort_perm. apply (upsert_elem updatedShape l2).
Qed.

(** X19. A change of category for a record that is not in the file of
    its category changes nothing: the handler reports that the shape
    was not found, and every file is as it was. *)
Theorem handleSubmit_not_found (shape : ShapeInfo.t)
    (values : EditShapeFormValues.t) (w : World) (l : list ShapeInfo.t) :
  ShapeInfo.category shape <> EditShapeFormValues.category values ->
  storedShapes root (ShapeInfo.category shape) w = ShapesArray l ->
  existsb (sameId (ShapeInfo.id shape)) l = false ->
  EditShapeForm_handleSubmit root localeCompare trim shape values w
  = (Ok (Failure "Failed to update shape"
           (shapeNotFound (ShapeInfo.id shape) (ShapeInfo.category shape))),
     w).
Proof.
  intros Hne Hl Hex.
  unfold EditShapeForm_handleSubmit. cbv zeta.
  rewrite bool_decide_eq_false_2 by done. cbn [negb].
  erewrite try_catch_Throw; [reflexivity |].
  do 2 apply bind_Throw.
  rewrite (removeShapeFromLibrary_run root localeCompare _ _ _ l), Hex;
    [done |].
  by rewrite loadCategoryShapes_eq, Hl.
Qed.

End EditShape.

(** * Runs on the demonstration library *)

Lemma compareNames_total : totalOrder Demo.compareNames.
Proof.
  intros x y. unfold Demo.compareNames.
  rewrite (String.compare_antisym x y).
  destruct (String.compare y x); simpl; lia.
Qed.

Lemma library_shapeFilesAreArrays (refused : fsop -> option string) :
  shapeFilesAreArrays Demo.root (Demo.library refused).
Proof.
  intros category. unfold storedShapes.
  destruct (fault (Demo.library refused) _); [by eexists |].
  destruct (files (Demo.library refused) !! _) as [[[l|o]|]|] eqn:Hf;
    try by eexists.
  exfalso. simpl in Hf.
  apply lookup_insert_Some in Hf as [[Hp _] | [_ Hf]].
  { by apply (categories_not_shape_file Demo.root category). }
  apply lookup_insert_Some in Hf as [[_ Hv] | [_ Hf]]; [done |].
  apply lookup_insert_Some in Hf as [[_ Hv] | [_ Hf]]; [done |].
  by rewrite lookup_empty in Hf.
Qed.

(** C1 at work: [arrows] has no shape and is deleted. *)
Lemma deleteCategory_iff_empty_witness :
  exists w',
    deleteCategory Demo.root "arrows" (Demo.library Demo.noFault)
    = (Ok true, w').
Proof.
  pose proof (deleteCategory_iff_empty Demo.root "arrows"
                (Demo.library Demo.noFault) (Demo.library Demo.noFault)
                Demo.categories 0) as H.
  assert (storedCategories Demo.root (Demo.library Demo.noFault)
          = (Ok Demo.categories, Demo.library Demo.noFault)) as H1
    by (vm_compute; reflexivity).
  assert (getShapeCountInCategory Demo.root "arrows"
            (Demo.library Demo.noFault)
          = (Ok 0, Demo.library Demo.noFault)) as H2
    by (vm_compute; reflexivity).
  assert (canWrite (getCategoriesFilePath Demo.root)
            (Demo.library Demo.noFault) = true) as H3
    by (vm_compute; reflexivity).
  specialize (H H1 H2 H3). simpl in H.
  destruct H as [[_ H] _]. exact (H eq_refl).
Defined.

(** C2 at work: [icons] is a slug and is not in the store. *)
Lemma addCategory_spec_witness :
  ~ (exists e w',
       addCategory Demo.root "icons" "Icons" (Demo.library Demo.noFault)
       = (Throw e, w')).
Proof.
  destruct (addCategory_spec Demo.root "icons" "Icons"
              (Demo.library Demo.noFault)) as [H _].
  assert (storedCategories Demo.root (Demo.library Demo.noFault)
          = (Ok Demo.categories, Demo.library Demo.noFault)) as H1
    by (vm_compute; reflexivity).
  assert (canWrite (getCategoriesFilePath Demo.root)
            (Demo.library Demo.noFault) = true) as H2
    by (vm_compute; reflexivity).
  assert (canWrite (getCategoryFilePath Demo.root "icons")
            (Demo.library Demo.noFault) = true) as H3
    by (vm_compute; reflexivity).
  intros Hthrow. apply (H _ _ H1 H2 H3) in Hthrow.
  destruct Hthrow as [Hbad | Hdup]; vm_compute in *; discriminate.
Defined.

(** C3 at work: an update that tries to change the id and the category
    of [star]. *)
Lemma updateShapeInLibrary_keeps_identity_witness :
  exists original merged,
    [Demo.star] !! 0 = Some original
    /\ ShapeInfo.id merged = ShapeInfo.id original
    /\ ShapeInfo.category merged = ShapeInfo.category original
    /\ ShapeInfo.name merged = "Comet".
Proof.
  pose proof (updateShapeInLibrary_keeps_identity Demo.root
                Demo.compareNames "star" "basic"
                (PartialShapeInfo.mk (Some "moon") (Some "Comet")
                   (Some "arrows") None [])
                (Demo.library Demo.noFault) [Demo.star]) as H.
  assert (loadCategoryShapes Demo.root "basic" (Demo.library Demo.noFault)
          = (Ok (ShapesArray [Demo.star]), Demo.library Demo.noFault)) as H1
    by (vm_compute; reflexivity).
  assert (forall s, s ∈ [Demo.star] -> ShapeInfo.category s = "basic") as H2
    by (by intros s ->%list_elem_of_singleton).
  specialize (H H1 H2). simpl in H.
  destruct H as (original & merged & Hl & Hid & Hcat & Hname & _).
  exists original, merged. injection Hl as <-. by repeat split.
Defined.

(** C4 at work: [star] upserted twice. *)
Lemma addShapeToLibrary_twice_witness :
  let w1 :=
    (addShapeToLibrary Demo.root Demo.compareNames Demo.star
       (Demo.library Demo.noFault)).2 in
  files (addShapeToLibrary Demo.root Demo.compareNames Demo.star w1).2
  = files w1.
Proof.
  apply (addShapeToLibrary_twice Demo.root Demo.compareNames Demo.star
           (Demo.library Demo.noFault) compareNames_total).
  intros l Hl. vm_compute in Hl. injection Hl as <-.
  apply NoDup_singleton.
Defined.

(** C6 at work: a forced repair of the demonstration library moves the
    preview of [star] from the folder of [arrows] to that of [basic]. *)
Lemma repairOrphanedPreviews_spec_witness :
  exists w',
    repairOrphanedPreviews Demo.root true (Demo.library Demo.noFault)
    = (Ok 1, w')
    /\ relocations w' = 1
    /\ files w' !! "/lib/assets/basic/star.png" = Some (Raw "PNG")
    /\ files w' !! "/lib/assets/arrows/star.png" = None
    /\ files w' !! repairMarker Demo.root = Some (Raw Demo.stamp).
Proof.
  assert (getCategoryIds Demo.root (Demo.library Demo.noFault)
          = (Ok ["basic"; "arrows"; "misc"], Demo.library Demo.noFault))
    as H1 by (vm_compute; reflexivity).
  destruct (repairOrphanedPreviews_spec Demo.root true _ _ _ H1) as [_ H].
  destruct (H eq_refl (fun _ _ => or_intror eq_refl)
              (library_shapeFilesAreArrays Demo.noFault))
    as (n & w2 & w' & Hscan & Hrun & Hn & _ & Hrest & Hmarker & Horphan).
  assert (1 <= n) as Hone.
  { apply (Horphan "basic" "arrows" [Demo.star] Demo.star (Raw "PNG"));
      try (vm_compute; reflexivity).
    - apply (bool_decide_unpack _). vm_compute. exact I.
    - apply (bool_decide_unpack _). vm_compute. exact I.
    - discriminate.
    - intros c' Hc'.
      repeat (apply elem_of_cons in Hc' as [-> | Hc']; [reflexivity |]).
      by apply elem_of_nil in Hc'.
    - apply list_elem_of_here. }
  vm_compute in Hscan. injection Hscan as <- <-.
  exists w'. split; [exact Hrun |]. split; [exact (eq_sym Hn) |].
  split; [rewrite Hrest by discriminate; vm_compute; reflexivity |].
  split; [rewrite Hrest by discriminate; vm_compute; reflexivity |].
  apply Hmarker. vm_compute. reflexivity.
Defined.

(** C7 at work: the rename is refused, the copy goes through. *)
Lemma movePreviewToCategory_returns_path_witness :
  exists w',
    movePreviewToCategory Demo.root Demo.star "arrows" "basic"
      (Demo.library Demo.crossDevice)
    = (Ok "basic/star.png", w')
    /\ files w' !! "/lib/assets/arrows/star.png" = Some (Raw "PNG")
    /\ files w' !! "/lib/assets/basic/star.png" = Some (Raw "PNG").
Proof.
  destruct (movePreviewToCategory_returns_path Demo.root Demo.star
              "arrows" "basic" (Demo.library Demo.crossDevice))
    as (w' & Hrun & Hkeep).
  { left. vm_compute. reflexivity. }
  exists w'. split; [exact Hrun |].
  destruct (Hkeep (Raw "PNG")
              "EXDEV: cross-device link not permitted, rename")
    as [Hsrc Hdest]; [vm_compute; reflexivity | reflexivity |].
  split; [exact Hsrc |]. apply Hdest; vm_compute; reflexivity.
Defined.

(** C8 at work: [arrows] is deleted, the shape of [basic] and the
    preview in the folder of [arrows] stay. *)
Lemma deleteCategory_keeps_shapes_and_assets_witness :
  let w' := (deleteCategory Demo.root "arrows" (Demo.library Demo.noFault)).2 in
  files w' !! "/lib/assets/arrows/star.png" = Some (Raw "PNG")
  /\ files w' !! "/lib/categories.json"
     = Some (Json (CategoriesObject
                     (Some [ CategoryConfig.mk "basic" "Basic Shapes";
                             CategoryConfig.mk "misc" EmptyString ]))).
Proof.
  destruct (deleteCategory_keeps_shapes_and_assets Demo.root "arrows"
              (Demo.library Demo.noFault)) as (_ & Hassets & _ & _ & Hentry).
  split.
  - exact (Hassets "arrows/star.png").
  - destruct (Hentry Demo.categories (Demo.library Demo.noFault))
      as (index & Hindex & Hfile);
      [vm_compute; reflexivity | vm_compute; reflexivity |].
    vm_compute in Hindex. injection Hindex as <-. exact Hfile.
Defined.

(** C9 at work: no record [moon] in [basic]. *)
Lemma notFound_leaves_the_file_witness :
  removeShapeFromLibrary Demo.root Demo.compareNames "moon" "basic"
    (Demo.library Demo.noFault)
  = (Throw (shapeNotFound "moon" "basic"), Demo.library Demo.noFault).
Proof.
  apply (notFound_leaves_the_file Demo.root Demo.compareNames "moon" "basic"
           (PartialShapeInfo.mk None None None None [])
           (Demo.library Demo.noFault) (Demo.library Demo.noFault)).
  split; [vm_compute; reflexivity | reflexivity].
Defined.

(** C10 at work: the category [misc] has the empty name. *)
Lemma getCategoryDisplayName_falls_back_to_id_witness :
  getCategoryDisplayName Demo.root "misc" (Demo.library Demo.noFault)
  = (Ok "misc", Demo.library Demo.noFault).
Proof.
  apply (getCategoryDisplayName_falls_back_to_id Demo.root "misc"
           (Demo.library Demo.noFault) (Demo.library Demo.noFault)
           Demo.categories).
  - vm_compute. reflexivity.
  - right. exists (CategoryConfig.mk "misc" EmptyString). by split.
Defined.

(** The two operations on the demonstration library, renames refused;
    and the repair in a folder where nothing can be written. *)
Lemma preview_operations_return_witness :
  (exists path w',
     movePreviewToCategory Demo.root Demo.star "arrows" "basic"
       (Demo.library Demo.crossDevice) = (Ok path, w'))
  /\ (exists n w',
        repairOrphanedPreviews Demo.root false (Demo.library Demo.crossDevice)
        = (Ok n, w'))
  /\ (exists e,
        repairOrphanedPreviews Demo.root true Demo.lockedFolder
        = (Throw ("Failed to save categories: " ++ e), Demo.lockedFolder)).
Proof.
  destruct (preview_operations_return Demo.root)
    as (Hmove & Hrepair & Hraise).
  split; [|split].
  - apply Hmove. left. vm_compute. reflexivity.
  - apply (Hrepair false (Demo.library Demo.crossDevice)
             (Demo.library Demo.crossDevice) ["basic"; "arrows"; "misc"]).
    + vm_compute. reflexivity.
    + intros c _. right. reflexivity.
    + apply library_shapeFilesAreArrays.
  - apply Hraise; vm_compute; reflexivity.
Defined.

(** C5 as stated does not hold: in a folder where nothing can be
    created, [movePreviewToCategory] raises the error of [mkdirSync],
    and [repairOrphanedPreviews] the error of [saveCategories]. *)
Lemma preview_operations_can_raise :
  movePreviewToCategory Demo.root Demo.star "basic" "arrows" Demo.lockedFolder
  = (Throw "EACCES: permission denied, mkdir", Demo.lockedFolder)
  /\ repairOrphanedPreviews Demo.root true Demo.lockedFolder
     = (Throw "Failed to save categories: EACCES: permission denied, open",
        Demo.lockedFolder).
Proof. split; vm_compute; reflexivity. Qed.

(** ** Outside the data model *)

(** With two records under one id in the file, a second upsert is not
    idle: the hypothesis of distinct ids is needed in C4. *)
Example upsert_with_duplicate_ids :
  let shape := ShapeInfo.mk "star" "Middle" "basic" "basic/star.png" [] in
  let w1 :=
    (addShapeToLibrary Demo.root Demo.compareNames shape Demo.twoStars).2 in
  let w2 := (addShapeToLibrary Demo.root Demo.compareNames shape w1).2 in
  files w1 !! getCategoryFilePath Demo.root "basic"
  <> files w2 !! getCategoryFilePath Demo.root "basic".
Proof. vm_compute. discriminate. Qed.

(** A record whose [category] is not the one of its file gets the
    category of the file: the pin is on the argument of the call. *)
Example update_of_misfiled_record :
  exists w',
    updateShapeInLibrary Demo.root Demo.compareNames "star" "basic"
      (PartialShapeInfo.mk None None None None []) Demo.misfiled
    = (Ok tt, w')
    /\ files w' !! getCategoryFilePath Demo.root "basic"
       = Some (Json (ShapesArray
                       [ShapeInfo.mk "star" "Star" "basic" "arrows/star.png"
                          []])).
Proof. eexists. split; vm_compute; reflexivity. Qed.

(** ** More runs on the demonstration library *)

Lemma lowerChar_slug (c : ascii) :
  slugChar c = true -> Demo.lowerChar c = c.
Proof.
  destruct c as [[] [] [] [] [] [] [] []]; vm_compute; intros H;
    first [reflexivity | discriminate H].
Qed.

Lemma toLowerCase_slug (s : string) :
  allSlug s = true -> Demo.toLowerCase s = s.
Proof.
  induction s as [|c s IH]; [done |]. cbn [allSlug Demo.toLowerCase].
  intros [Hc Hs]%andb_true_iff. by rewrite lowerChar_slug, IH.
Qed.

(** X1 at work: [arrows] is renamed. *)
Lemma renameCategory_spec_witness :
  exists w',
    renameCategory Demo.root "arrows" "Pointers" (Demo.library Demo.noFault)
    = (Ok tt, w').
Proof.
  pose proof (renameCategory_spec Demo.root "arrows" "Pointers"
                (Demo.library Demo.noFault) (Demo.library Demo.noFault)
                Demo.categories) as H.
  assert (storedCategories Demo.root (Demo.library Demo.noFault)
          = (Ok Demo.categories, Demo.library Demo.noFault)) as H1
    by (vm_compute; reflexivity).
  assert (canWrite (getCategoriesFilePath Demo.root)
            (Demo.library Demo.noFault) = true) as H2
    by (vm_compute; reflexivity).
  specialize (H H1 H2).
  assert (findIndex (hasId "arrows") Demo.categories = Some 1) as Hi
    by (vm_compute; reflexivity).
  rewrite Hi in H. destruct H as (w' & cs' & H & _). by exists w'.
Defined.

(** X2 at work: [arrows] shows under its new name. *)
Lemma renameCategory_then_display_name_witness :
  let w' :=
    (renameCategory Demo.root "arrows" "Pointers"
       (Demo.library Demo.noFault)).2 in
  getCategoryDisplayName Demo.root "arrows" w' = (Ok "Pointers", w').
Proof.
  apply (renameCategory_then_display_name Demo.root "arrows" "Pointers"
           (Demo.library Demo.noFault)).
  vm_compute. reflexivity.
Defined.

(** X3 at work: [arrows] is deleted and is gone. *)
Lemma deleteCategory_then_gone_witness :
  let w' :=
    (deleteCategory Demo.root "arrows" (Demo.library Demo.noFault)).2 in
  categoryExists Demo.root "arrows" w' = (Ok false, w').
Proof.
  destruct (deleteCategory_then_gone Demo.root "arrows"
              (Demo.library Demo.noFault) (Demo.library Demo.noFault)
              (deleteCategory Demo.root "arrows"
                 (Demo.library Demo.noFault)).2
              Demo.categories)
    as (index & _ & _ & H);
    [vm_compute; reflexivity | vm_compute; reflexivity |].
  apply H. apply (bool_decide_unpack _). vm_compute. exact I.
Defined.

(** X4 at work: the store takes [icons], its shape file is refused. *)
Lemma addCategory_half_done_witness :
  exists w',
    addCategory Demo.root "icons" "Icons" (Demo.library Demo.shapesLocked)
    = (Throw "EACCES: permission denied, open", w')
    /\ storedCategories Demo.root w'
       = (Ok (Demo.categories ++ [CategoryConfig.mk "icons" "Icons"])%list,
          w').
Proof.
  destruct (addCategory_half_done Demo.root "icons" "Icons"
              "EACCES: permission denied, open"
              (Demo.library Demo.shapesLocked)
              (Demo.library Demo.shapesLocked) Demo.categories)
    as (w' & Hrun & Hstore & _); try (vm_compute; reflexivity).
  by exists w'.
Defined.

(** X5 at work: the first run in an empty folder. *)
Lemma loadCategories_first_run_once_witness :
  exists w',
    storedCategories Demo.root Demo.emptyFolder = (Ok Demo.defaults, w')
    /\ storedCategories Demo.root w' = (Ok Demo.defaults, w').
Proof.
  destruct (loadCategories_first_run_once Demo.root Demo.emptyFolder)
    as (w' & Hrun & _ & _ & Hnext); try (vm_compute; reflexivity).
  by exists w'.
Defined.

(** X7 at work: the id of a display name, generated again. *)
Lemma generateCategoryId_idempotent_witness :
  generateCategoryId Demo.toLowerCase "my-shapes" = "my-shapes"
  /\ generateCategoryId Demo.toLowerCase
       (generateCategoryId Demo.toLowerCase "  My   Shapes! ")
     = generateCategoryId Demo.toLowerCase "  My   Shapes! ".
Proof.
  destruct (generateCategoryId_idempotent Demo.toLowerCase toLowerCase_slug)
    as [Hfixed Htwice].
  split; [apply Hfixed; vm_compute; reflexivity | apply Htwice].
Defined.

(** X8 at work: the counts of the three categories. *)
Lemma getShapeCounts_spec_witness :
  exists counts,
    getShapeCounts Demo.root (Demo.library Demo.noFault)
    = (Ok counts, Demo.library Demo.noFault)
    /\ counts !! "basic" = Some (Some 1)
    /\ counts !! "icons" = None.
Proof.
  destruct (getShapeCounts_spec Demo.root (Demo.library Demo.noFault)
              (Demo.library Demo.noFault) ["basic"; "arrows"; "misc"])
    as (counts & Hrun & Hkeys & Hvalues); [vm_compute; reflexivity |].
  exists counts. split; [exact Hrun |]. split.
  - apply (Hvalues "basic" 1); [| vm_compute; reflexivity].
    apply (bool_decide_unpack _). vm_compute. exact I.
  - apply eq_None_not_Some. intros Hsome. apply Hkeys in Hsome.
    revert Hsome. apply (bool_decide_unpack _). vm_compute. exact I.
Defined.

(** X9 at work: one shape in the whole library. *)
Lemma getTotalShapeCount_spec_witness :
  exists n,
    getTotalShapeCount Demo.root (Demo.library Demo.noFault)
    = (Ok (Some n), Demo.library Demo.noFault).
Proof.
  destruct (getTotalShapeCount_spec Demo.root (Demo.library Demo.noFault)
              (Demo.library Demo.noFault) ["basic"; "arrows"; "misc"])
    as [H _]; [vm_compute; reflexivity |].
  eexists. apply H. apply library_shapeFilesAreArrays.
Defined.

(** X10 at work: [moon] added before [star]. *)
Lemma writes_leave_the_file_sorted_witness :
  let w' :=
    (addShapeToLibrary Demo.root Demo.compareNames Demo.moon
       (Demo.library Demo.noFault)).2 in
  exists l,
    files w' !! getCategoryFilePath Demo.root "basic"
    = Some (Json (ShapesArray l))
    /\ Sorted (inOrder (byName Demo.compareNames)) l.
Proof.
  destruct (writes_leave_the_file_sorted Demo.root Demo.compareNames
              (Demo.library Demo.noFault)
              (addShapeToLibrary Demo.root Demo.compareNames Demo.moon
                 (Demo.library Demo.noFault)).2
              compareNames_total) as [H _].
  apply (H Demo.moon (getCategoryFilePath Demo.root "basic")).
  vm_compute. reflexivity.
Defined.

(** X11 at work: [moon] is added to [basic]. *)
Lemma addShapeToLibrary_then_exists_witness :
  exists w',
    addShapeToLibrary Demo.root Demo.compareNames Demo.moon
      (Demo.library Demo.noFault)
    = (Ok (getCategoryFilePath Demo.root "basic"), w')
    /\ shapeExists Demo.root "moon" "basic" w' = (Ok true, w').
Proof.
  destruct (addShapeToLibrary_then_exists Demo.root Demo.compareNames
              Demo.moon (Demo.library Demo.noFault) [Demo.star])
    as (w' & l' & Hrun & _ & _ & Hexists & _);
    try (vm_compute; reflexivity).
  by exists w'.
Defined.

(** X12 at work: both records under the id [star] are removed. *)
Lemma removeShapeFromLibrary_then_gone_witness :
  exists w',
    removeShapeFromLibrary Demo.root Demo.compareNames "star" "basic"
      Demo.twoStars
    = (Ok tt, w')
    /\ shapeExists Demo.root "star" "basic" w' = (Ok false, w').
Proof.
  destruct (removeShapeFromLibrary_then_gone Demo.root Demo.compareNames
              "star" "basic" Demo.twoStars
              [ ShapeInfo.mk "star" "Zenith" "basic" "basic/star.png" [];
                ShapeInfo.mk "star" "Anchor" "basic" "basic/star.png" [] ])
    as (w' & l' & Hrun & _ & Hgone & _);
    try (vm_compute; reflexivity).
  by exists w'.
Defined.

Lemma library_previews_plain (refused : fsop -> option string) :
  forall category l s,
    storedShapes Demo.root category (Demo.library refused) = ShapesArray l ->
    s ∈ l -> plainPath (ShapeInfo.preview s) = true.
Proof.
  intros category l s Hl Hs. revert Hl. unfold storedShapes.
  destruct (fault (Demo.library refused) _);
    [intros [= <-]; by apply elem_of_nil in Hs |].
  destruct (files (Demo.library refused) !! _) as [[d|b]|] eqn:Hf;
    try (intros [= <-]; by apply elem_of_nil in Hs).
  intros ->. simpl in Hf.
  apply lookup_insert_Some in Hf as [[Hp _] | [_ Hf]].
  { exfalso. by apply (categories_not_shape_file Demo.root category). }
  apply lookup_insert_Some in Hf as [[_ Hv] | [_ Hf]].
  { injection Hv as <-. by apply list_elem_of_singleton in Hs as ->. }
  apply lookup_insert_Some in Hf as [[_ Hv] | [_ Hf]]; [done |].
  by rewrite lookup_empty in Hf.
Qed.

(** X14 at work: the forced repair keeps the preview of [star]. *)
Lemma repairOrphanedPreviews_loses_nothing_witness :
  let w' :=
    (repairOrphanedPreviews Demo.root true
       (Demo.library Demo.crossDevice)).2 in
  files w' !! "/lib/assets/arrows/star.png" = Some (Raw "PNG")
  \/ exists rel,
       plainPath rel = true
       /\ files w' !! join (getAssetsDir Demo.root) rel = Some (Raw "PNG").
Proof.
  destruct (repairOrphanedPreviews_loses_nothing Demo.root true
              (Demo.library Demo.crossDevice)
              (repairOrphanedPreviews Demo.root true
                 (Demo.library Demo.crossDevice)).2
              (repairOrphanedPreviews Demo.root true
                 (Demo.library Demo.crossDevice)).1)
    as [_ H];
    [apply library_previews_plain | vm_compute; reflexivity |].
  apply H; [discriminate | vm_compute; reflexivity].
Defined.

(** X15 at work: the repair after a repair. *)
Lemma repairOrphanedPreviews_runs_once_witness :
  let w' :=
    (repairOrphanedPreviews Demo.root false
       (Demo.library Demo.noFault)).2 in
  repairOrphanedPreviews Demo.root false w' = (Ok 0, w').
Proof.
  apply (repairOrphanedPreviews_runs_once Demo.root false
           (Demo.library Demo.noFault) _ 1);
    vm_compute; reflexivity.
Defined.

(** X16 at work: the preview of [star] moves to the folder of
    [basic]. *)
Lemma movePreviewToCategory_moves_witness :
  exists w',
    movePreviewToCategory Demo.root Demo.star "arrows" "basic"
      (Demo.library Demo.noFault)
    = (Ok "basic/star.png", w')
    /\ files w' !! "/lib/assets/basic/star.png" = Some (Raw "PNG")
    /\ files w' !! "/lib/assets/arrows/star.png" = None.
Proof.
  destruct (movePreviewToCategory_moves Demo.root Demo.star "arrows" "basic"
              (Demo.library Demo.noFault) (Raw "PNG"))
    as (w' & Hrun & _ & Hnew & Hold);
    [reflexivity | reflexivity | reflexivity
    | left; vm_compute; reflexivity | vm_compute; reflexivity
    | reflexivity | vm_compute; reflexivity |].
  exists w'. split; [exact Hrun |]. split; [exact Hnew |].
  apply Hold. discriminate.
Defined.

(** X17 at work: [star] is filed under [misc], whose folder cannot be
    created. *)
Lemma handleSubmit_half_done_witness :
  exists w',
    EditShapeForm_handleSubmit Demo.root Demo.compareNames Demo.trim
      Demo.star (EditShapeFormValues.mk "Star" "misc" "geometry, five")
      (Demo.library Demo.noFolders)
    = (Ok (Failure "Failed to update shape"
             "EACCES: permission denied, mkdir"), w')
    /\ files w' !! getCategoryFilePath Demo.root "basic"
       = Some (Json (ShapesArray []))
    /\ files w' !! getCategoryFilePath Demo.root "misc" = None.
Proof.
  destruct (handleSubmit_half_done Demo.root Demo.compareNames Demo.trim
              Demo.star (EditShapeFormValues.mk "Star" "misc" "geometry, five")
              (Demo.library Demo.noFolders) [Demo.star]
              "EACCES: permission denied, mkdir")
    as (w' & Hrun & Hold & Hrest);
    try (vm_compute; reflexivity); [discriminate |].
  exists w'. split; [exact Hrun |]. split; [exact Hold |].
  rewrite Hrest by discriminate. vm_compute. reflexivity.
Defined.

(** X18 at work: [star] is filed under [arrows]. *)
Lemma handleSubmit_moves_record_witness :
  exists w' ln,
    EditShapeForm_handleSubmit Demo.root Demo.compareNames Demo.trim
      Demo.star (EditShapeFormValues.mk "Comet" "arrows" "geometry, five")
      (Demo.library Demo.noFault)
    = (Ok (Success "Shape updated!" "Updated Comet"), w')
    /\ files w' !! getCategoryFilePath Demo.root "arrows"
       = Some (Json (ShapesArray ln))
    /\ ShapeInfo.mk "star" "Comet" "arrows" "arrows/star.png"
         [("description", JStr "Five points");
          ("tags", JArr [JStr "geometry"; JStr "five"])]
       ∈ ln.
Proof.
  destruct (handleSubmit_moves_record Demo.root Demo.compareNames Demo.trim
              Demo.star
              (EditShapeFormValues.mk "Comet" "arrows" "geometry, five")
              (Demo.library Demo.noFault) [Demo.star] [])
    as (w' & lo & ln & Hrun & _ & _ & Hnew & Hin);
    try (vm_compute; reflexivity);
    [discriminate | left; vm_compute; reflexivity |].
  exists w', ln. split; [exact Hrun |]. split; [exact Hnew |]. exact Hin.
Defined.

(** X19 at work: [moon] is in no file. *)
Lemma handleSubmit_not_found_witness :
  EditShapeForm_handleSubmit Demo.root Demo.compareNames Demo.trim
    Demo.moon (EditShapeFormValues.mk "Moon" "arrows" EmptyString)
    (Demo.library Demo.noFault)
  = (Ok (Failure "Failed to update shape" (shapeNotFound "moon" "basic")),
     Demo.library Demo.noFault).
Proof.
  apply (handleSubmit_not_found Demo.root Demo.compareNames Demo.trim
           Demo.moon (EditShapeFormValues.mk "Moon" "arrows" EmptyString)
           (Demo.library Demo.noFault) [Demo.star]).
  - discriminate.
  - vm_compute. reflexivity.
  - vm_compute. reflexivity.
Defined.
